(** * supauth: the request/response pipeline of the auth client

    A shallow embedding of [client.go] (createRequest, sendRequest,
    createAndSendRequest) and of the facade operations that call it,
    together with the part of Go's [encoding/json], [unicode/utf8] and
    [net/http] behaviour that the pipeline relies on.

    Go strings are byte sequences: they are modelled as [string]
    (a list of [ascii], one per byte).  Go's [int] is taken as 64 bits wide. *)

From Stdlib Require Import ZArith Ascii String List Lia Bool.
From stdpp Require Import base option strings gmap list sorting.

Set Warnings "-register-all".
Local Open Scope Z_scope.

(** ** Bytes *)

Definition byte (c : ascii) : Z := Z.of_N (N_of_ascii c).
Definition chr (z : Z) : ascii := ascii_of_N (Z.to_N z).

Definition inRange (lo hi b : Z) : bool := (lo <=? b) && (b <=? hi).

(** The double quote (byte 34), and a text between double quotes. *)
Definition dquote : ascii := Ascii false true false false false true false false.

Definition quoted (s : string) : string :=
  String dquote (s +:+ String dquote EmptyString).

(** ** unicode/utf8 *)

Module utf8.

Definition RuneError : Z := 0xFFFD.
Definition MaxRune : Z := 0x10FFFF.
Definition RuneSelf : Z := 0x80.
Definition surrogateMin : Z := 0xD800.
Definition surrogateMax : Z := 0xDFFF.

Definition maskx : Z := 0x3F.
Definition mask2 : Z := 0x1F.
Definition mask3 : Z := 0x0F.
Definition mask4 : Z := 0x07.
Definition tx : Z := 0x80.
Definition t2 : Z := 0xC0.
Definition t3 : Z := 0xE0.
Definition t4 : Z := 0xF0.
Definition locb : Z := 0x80.
Definition hicb : Z := 0xBF.

(** The table [first] joined with [acceptRanges]: for a leading byte, the
    length of the sequence and the range accepted for the second byte;
    [None] is the table's [xx] (invalid leading byte). *)
Definition first (p0 : Z) : option (nat * (Z * Z)) :=
  if inRange 0xC2 0xDF p0 then Some (2%nat, (locb, hicb))
  else if p0 =? 0xE0 then Some (3%nat, (0xA0, hicb))
  else if inRange 0xE1 0xEC p0 then Some (3%nat, (locb, hicb))
  else if p0 =? 0xED then Some (3%nat, (locb, 0x9F))
  else if inRange 0xEE 0xEF p0 then Some (3%nat, (locb, hicb))
  else if p0 =? 0xF0 then Some (4%nat, (0x90, hicb))
  else if inRange 0xF1 0xF3 p0 then Some (4%nat, (locb, hicb))
  else if p0 =? 0xF4 then Some (4%nat, (locb, 0x8F))
  else None.

(** [DecodeRune p]: the first rune of [p] and its width in bytes;
    [(RuneError, 1)] on an invalid encoding, [(RuneError, 0)] on empty input. *)
Definition DecodeRune (p : string) : Z * nat :=
  match p with
  | EmptyString => (RuneError, 0%nat)
  | String c0 p1 =>
    let p0 := byte c0 in
    if p0 <? RuneSelf then (p0, 1%nat) else
    match first p0 with
    | None => (RuneError, 1%nat)
    | Some (sz, (lo, hi)) =>
      if (String.length p <? sz)%nat then (RuneError, 1%nat) else
      match p1 with
      | EmptyString => (RuneError, 1%nat)
      | String c1 p2 =>
        let b1 := byte c1 in
        if negb (inRange lo hi b1) then (RuneError, 1%nat) else
        if (sz <=? 2)%nat then
          (Z.lor (Z.shiftl (Z.land p0 mask2) 6) (Z.land b1 maskx), 2%nat)
        else
        match p2 with
        | EmptyString => (RuneError, 1%nat)
        | String c2 p3 =>
          let b2 := byte c2 in
          if negb (inRange locb hicb b2) then (RuneError, 1%nat) else
          if (sz <=? 3)%nat then
            (Z.lor (Z.lor (Z.shiftl (Z.land p0 mask3) 12)
                          (Z.shiftl (Z.land b1 maskx) 6))
                   (Z.land b2 maskx), 3%nat)
          else
          match p3 with
          | EmptyString => (RuneError, 1%nat)
          | String c3 _ =>
            let b3 := byte c3 in
            if negb (inRange locb hicb b3) then (RuneError, 1%nat) else
            (Z.lor (Z.lor (Z.lor (Z.shiftl (Z.land p0 mask4) 18)
                                 (Z.shiftl (Z.land b1 maskx) 12))
                          (Z.shiftl (Z.land b2 maskx) 6))
                   (Z.land b3 maskx), 4%nat)
          end
        end
      end
    end
  end.

Definition enc3 (r : Z) : string :=
  String (chr (Z.lor t3 (Z.shiftr r 12)))
    (String (chr (Z.lor tx (Z.land (Z.shiftr r 6) maskx)))
      (String (chr (Z.lor tx (Z.land r maskx))) EmptyString)).

(** [AppendRune] on an empty buffer: the UTF-8 encoding of rune [r]. *)
Definition EncodeRune (r : Z) : string :=
  if (0 <=? r) && (r <=? 0x7F) then String (chr r) EmptyString
  else if (0 <=? r) && (r <=? 0x7FF) then
    String (chr (Z.lor t2 (Z.shiftr r 6)))
      (String (chr (Z.lor tx (Z.land r maskx))) EmptyString)
  else if (r <? 0) || (MaxRune <? r) || inRange surrogateMin surrogateMax r then
    enc3 RuneError
  else if r <=? 0xFFFF then enc3 r
  else
    String (chr (Z.lor t4 (Z.shiftr r 18)))
      (String (chr (Z.lor tx (Z.land (Z.shiftr r 12) maskx)))
        (String (chr (Z.lor tx (Z.land (Z.shiftr r 6) maskx)))
          (String (chr (Z.lor tx (Z.land r maskx))) EmptyString))).

Fixpoint string_drop (k : nat) (s : string) : string :=
  match k, s with
  | O, _ => s
  | S k', String _ rest => string_drop k' rest
  | S _, EmptyString => EmptyString
  end.

(** [utf8.ValidString]: every rune of [s] decodes without error.  The fuel
    bounds the number of runes; [String.length s] always suffices. *)
Fixpoint validFuel (n : nat) (s : string) : bool :=
  match s with
  | EmptyString => true
  | String c rest =>
    match n with
    | O => false
    | S n' =>
      if byte c <? RuneSelf then validFuel n' rest
      else
        match DecodeRune s with
        | (_, 1%nat) => false
        | (_, sz) => validFuel n' (string_drop sz s)
        end
    end
  end.

Definition ValidString (s : string) : bool := validFuel (String.length s) s.

End utf8.

(** ** Errors and results

    Go's [(value, error)] returns of library calls are modelled as a sum;
    the two-valued returns of the client's own methods are kept as pairs. *)

Inductive error : Type :=
| ErrEmptyURL                          (* errors.New("supabase api url is empty") *)
| UnsupportedTypeError (ty : string)   (* json: unsupported type: ty *)
| URLParseError (url : string)         (* parse "url": ... *)
| InvalidMethodError (method : string) (* net/http: invalid method *)
| TransportError (msg : string)        (* whatever HttpClient.Do reports *)
| EOF                                  (* io.EOF *)
| ErrUnexpectedEOF                     (* io.ErrUnexpectedEOF *)
| SyntaxError (c : ascii) (context : string)  (* invalid character c context *)
| ErrSyntaxEnd                         (* &SyntaxError{"unexpected end of JSON input"} *)
| UnmarshalTypeError (value type : string)
                                       (* json: cannot unmarshal value into Go value of type *)
| ErrMaxDepth                          (* json: exceeded max depth *)
| ErrFuel.                             (* the model's recursion bound; never reached *)

Definition errorString (e : error) : string :=
  match e with
  | ErrEmptyURL => "supabase api url is empty"
  | UnsupportedTypeError ty => "json: unsupported type: " +:+ ty
  | URLParseError u => "parse " +:+ u
  | InvalidMethodError m => "net/http: invalid method " +:+ m
  | TransportError msg => msg
  | EOF => "EOF"
  | ErrUnexpectedEOF => "unexpected EOF"
  | SyntaxError c ctx =>
      "invalid character '" +:+ String c EmptyString +:+ "' " +:+ ctx
  | ErrSyntaxEnd => "unexpected end of JSON input"
  | UnmarshalTypeError v t =>
      "json: cannot unmarshal " +:+ v +:+ " into Go value of type " +:+ t
  | ErrMaxDepth => "exceeded max depth"
  | ErrFuel => "recursion bound"
  end.

Inductive result (A : Type) : Type :=
| Ok (a : A)
| Err (e : error).
Arguments Ok {A} a.
Arguments Err {A} e.

#[global] Instance result_ret : MRet result := fun A a => Ok a.
#[global] Instance result_bind : MBind result := fun A B f m =>
  match m with
  | Ok a => f a
  | Err e => Err e
  end.

Definition is_Ok {A} (r : result A) : bool :=
  match r with Ok _ => true | Err _ => false end.

(** ** encoding/json: values *)

Module json.

(** A JSON value as the scanner delimits it.  A number keeps its literal;
    a string is held unquoted (as Go bytes); an object keeps its members in
    the order of the text, duplicates included. *)
Inductive value : Type :=
| Null
| Bool (b : bool)
| Number (lit : string)
| Str (s : string)
| Array (elems : list value)
| Object (members : list (string * value)).

(** *** Scanning *)

Definition isSpace (c : ascii) : bool :=
  (c =? " ")%char || (c =? "009")%char || (c =? "013")%char || (c =? "010")%char.

Fixpoint skipSpace (s : string) : string :=
  match s with
  | String c r => if isSpace c then skipSpace r else s
  | EmptyString => EmptyString
  end.

Definition isDigit (c : ascii) : bool := inRange 48 57 (byte c).

(** Value of a hexadecimal digit. *)
Definition hexVal (c : ascii) : option Z :=
  let b := byte c in
  if inRange 48 57 b then Some (b - 48)
  else if inRange 97 102 b then Some (b - 97 + 10)
  else if inRange 65 70 b then Some (b - 65 + 10)
  else None.

(** [getu4]: the rune of a [\uXXXX] escape at the head of [s], or [None]. *)
Definition getu4 (s : string) : option Z :=
  match s with
  | String "\" (String "u" (String h1 (String h2 (String h3 (String h4 _))))) =>
    a ← hexVal h1; b ← hexVal h2; c ← hexVal h3; d ← hexVal h4;
    Some (a * 4096 + b * 256 + c * 16 + d)
  | _ => None
  end.

(** The first of up to four bytes that is not a hexadecimal digit. *)
Fixpoint firstNonHex (k : nat) (s : string) : option ascii :=
  match k, s with
  | O, _ => None
  | S _, EmptyString => None
  | S k', String c r =>
    match hexVal c with
    | Some _ => firstNonHex k' r
    | None => Some c
    end
  end.

Definition badHex (s : string) : option ascii := firstNonHex 4 s.

(** [utf16.DecodeRune]: the rune of a surrogate pair, [RuneError] when the
    two halves do not form one. *)
Definition utf16_DecodeRune (r1 r2 : Z) : Z :=
  if inRange 0xD800 0xDBFF r1 && inRange 0xDC00 0xDFFF r2
  then Z.lor (Z.shiftl (r1 - 0xD800) 10) (r2 - 0xDC00) + 0x10000
  else utf8.RuneError.

Definition isSurrogate (r : Z) : bool := inRange 0xD800 0xDFFF r.

(** The body of a string literal, after its opening quote: the scanner's
    [stateInString] states and [unquote] in one pass.  Returns the unquoted
    bytes and the input after the closing quote. *)
Fixpoint readString (n : nat) (s : string) : result (string * string) :=
  match n with
  | O => Err ErrFuel
  | S n' =>
    match s with
    | EmptyString => Err ErrUnexpectedEOF
    | String c r =>
      if (c =? dquote)%char then Ok (EmptyString, r)
      else if (c =? "\")%char then
        match r with
        | EmptyString => Err ErrUnexpectedEOF
        | String e r' =>
          let plain (b : ascii) :=
            '(t, rest) ← readString n' r'; Ok (String b t, rest) in
          if (e =? dquote)%char || (e =? "\")%char || (e =? "/")%char then plain e
          else if (e =? "b")%char then plain "008"%char
          else if (e =? "f")%char then plain "012"%char
          else if (e =? "n")%char then plain "010"%char
          else if (e =? "r")%char then plain "013"%char
          else if (e =? "t")%char then plain "009"%char
          else if (e =? "u")%char then
            match getu4 s with
            | None =>
              match badHex r' with
              | Some c' => Err (SyntaxError c' "in \u hexadecimal character escape")
              | None => Err ErrUnexpectedEOF
              end
            | Some rr =>
              let after := utf8.string_drop 6 s in
              if isSurrogate rr then
                match getu4 after with
                | Some rr1 =>
                  let dec := utf16_DecodeRune rr rr1 in
                  if dec =? utf8.RuneError then
                    '(t, rest) ← readString n' after;
                    Ok (utf8.EncodeRune utf8.RuneError +:+ t, rest)
                  else
                    '(t, rest) ← readString n' (utf8.string_drop 6 after);
                    Ok (utf8.EncodeRune dec +:+ t, rest)
                | None =>
                  '(t, rest) ← readString n' after;
                  Ok (utf8.EncodeRune utf8.RuneError +:+ t, rest)
                end
              else
                '(t, rest) ← readString n' after;
                Ok (utf8.EncodeRune rr +:+ t, rest)
            end
          else Err (SyntaxError e "in string escape code")
        end
      else if byte c <? 32 then Err (SyntaxError c "in string literal")
      else if byte c <? utf8.RuneSelf then
        '(t, rest) ← readString n' r; Ok (String c t, rest)
      else
        let '(rr, size) := utf8.DecodeRune s in
        '(t, rest) ← readString n' (utf8.string_drop size s);
        Ok (utf8.EncodeRune rr +:+ t, rest)
    end
  end.

(** Every step of [readString] takes one unit of the bound and at least
    one byte, and one more unit is needed to see the end of the input. *)
Definition readStringLit (s : string) : result (string * string) :=
  readString (S (String.length s)) s.

(** The longest run of digits at the head of [s], and what follows it. *)
Fixpoint spanDigits (s : string) : string * string :=
  match s with
  | String c r =>
    if isDigit c then let '(d, rest) := spanDigits r in (String c d, rest)
    else (EmptyString, s)
  | EmptyString => (EmptyString, EmptyString)
  end.

(** At least one digit, as the scanner demands after [-], [.] and the
    exponent mark. *)
Definition someDigits (ctx : string) (s : string) : result (string * string) :=
  match s with
  | EmptyString => Err ErrUnexpectedEOF
  | String c _ =>
    if isDigit c then Ok (spanDigits s) else Err (SyntaxError c ctx)
  end.

Definition readFraction (s : string) : result (string * string) :=
  match s with
  | String c r =>
    if (c =? ".")%char then
      '(d, rest) ← someDigits "after decimal point in numeric literal" r;
      Ok (String c d, rest)
    else Ok (EmptyString, s)
  | EmptyString => Ok (EmptyString, s)
  end.

Definition readExponent (s : string) : result (string * string) :=
  match s with
  | String e r =>
    if (e =? "e")%char || (e =? "E")%char then
      let '(sign, r') :=
        match r with
        | String g r'' =>
          if (g =? "+")%char || (g =? "-")%char
          then (String g EmptyString, r'') else (EmptyString, r)
        | EmptyString => (EmptyString, r)
        end in
      '(d, rest) ← someDigits "in exponent of numeric literal" r';
      Ok (String e sign +:+ d, rest)
    else Ok (EmptyString, s)
  | EmptyString => Ok (EmptyString, s)
  end.

Definition readSign (s : string) : string * string :=
  match s with
  | String c r => if (c =? "-")%char then ("-"%string, r) else (EmptyString, s)
  | EmptyString => (EmptyString, s)
  end.

(** The integer part: a single zero, or a run of digits that starts with
    another digit. *)
Definition readInt (s : string) : result (string * string) :=
  match s with
  | EmptyString => Err ErrUnexpectedEOF
  | String c r =>
    if (c =? "0")%char then Ok ("0"%string, r)
    else if isDigit c then Ok (spanDigits s)
    else Err (SyntaxError c "in numeric literal")
  end.

(** A number literal ([state1], [state0], [stateDot], [stateE] ...). *)
Definition readNumber (s : string) : result (string * string) :=
  let '(sign, r) := readSign s in
  '(int, r1) ← readInt r;
  '(frac, r2) ← readFraction r1;
  '(exp, r3) ← readExponent r2;
  Ok (sign +:+ int +:+ frac +:+ exp, r3).

(** The rest of a literal ([true], [false], [null]) after its first byte. *)
Fixpoint expect (name : string) (want : string) (s : string) : result string :=
  match want with
  | EmptyString => Ok s
  | String w want' =>
    match s with
    | EmptyString => Err ErrUnexpectedEOF
    | String c r =>
      if (c =? w)%char then expect name want' r
      else Err (SyntaxError c ("in literal " +:+ name +:+ " (expecting '"
                                +:+ String w EmptyString +:+ "')"))
    end
  end.

Definition maxNestingDepth : Z := 10000.

(** [closes c s]: after white space [s] goes on with the closing byte [c];
    the result is what follows it. *)
Definition closes (c : ascii) (s : string) : option string :=
  match skipSpace s with
  | String d r => if (d =? c)%char then Some r else None
  | EmptyString => None
  end.

(** One value, with leading white space; an object's members and an
    array's elements.  [depth] is the number of containers open around the
    value ([len(parseState)]).  Every call passes on a smaller bound and a
    shorter input. *)
Fixpoint readValue (n : nat) (depth : Z) (s : string) : result (value * string) :=
  match n with
  | O => Err ErrFuel
  | S n' =>
    match skipSpace s with
    | EmptyString => Err ErrUnexpectedEOF
    | String c r =>
      if (c =? "{")%char then
        if maxNestingDepth <? depth + 1 then Err ErrMaxDepth else
        match closes "}" r with
        | Some r' => Ok (Object [], r')
        | None => '(ms, rest) ← readMembers n' (depth + 1) r; Ok (Object ms, rest)
        end
      else if (c =? "[")%char then
        if maxNestingDepth <? depth + 1 then Err ErrMaxDepth else
        match closes "]" r with
        | Some r' => Ok (Array [], r')
        | None => '(es, rest) ← readElements n' (depth + 1) r; Ok (Array es, rest)
        end
      else if (c =? dquote)%char then
        '(t, rest) ← readStringLit r; Ok (Str t, rest)
      else if (c =? "-")%char || isDigit c then
        '(lit, rest) ← readNumber (String c r); Ok (Number lit, rest)
      else if (c =? "t")%char then
        rest ← expect "true" "rue" r; Ok (Bool true, rest)
      else if (c =? "f")%char then
        rest ← expect "false" "alse" r; Ok (Bool false, rest)
      else if (c =? "n")%char then
        rest ← expect "null" "ull" r; Ok (Null, rest)
      else Err (SyntaxError c "looking for beginning of value")
    end
  end

with readMembers (n : nat) (depth : Z) (s : string)
  : result (list (string * value) * string) :=
  match n with
  | O => Err ErrFuel
  | S n' =>
    match skipSpace s with
    | EmptyString => Err ErrUnexpectedEOF
    | String q r =>
      if (q =? dquote)%char then
        '(k, r1) ← readStringLit r;
        match skipSpace r1 with
        | EmptyString => Err ErrUnexpectedEOF
        | String colon r2 =>
          if (colon =? ":")%char then
            '(v, r3) ← readValue n' depth r2;
            match skipSpace r3 with
            | EmptyString => Err ErrUnexpectedEOF
            | String d r4 =>
              if (d =? ",")%char then
                '(ms, rest) ← readMembers n' depth r4; Ok ((k, v) :: ms, rest)
              else if (d =? "}")%char then Ok ([(k, v)], r4)
              else Err (SyntaxError d "after object key:value pair")
            end
          else Err (SyntaxError colon "after object key")
        end
      else Err (SyntaxError q "looking for beginning of object key string")
    end
  end

with readElements (n : nat) (depth : Z) (s : string) : result (list value * string) :=
  match n with
  | O => Err ErrFuel
  | S n' =>
    '(v, r1) ← readValue n' depth s;
    match skipSpace r1 with
    | EmptyString => Err ErrUnexpectedEOF
    | String d r2 =>
      if (d =? ",")%char then
        '(es, rest) ← readElements n' depth r2; Ok (v :: es, rest)
      else if (d =? "]")%char then Ok ([v], r2)
      else Err (SyntaxError d "after array element")
    end
  end.

(** The bound handed to [readValue] for input [s]: a value, a member and
    an element each take at least one byte and at most two units. *)
Definition fuelFor (s : string) : nat := S (2 * String.length s).

(** [Decoder.readValue] on a fresh decoder: the next value of the stream
    and the unread input.  An input of white space only is [io.EOF]. *)
Definition scanNext (s : string) : result (value * string) :=
  match skipSpace s with
  | EmptyString => Err EOF
  | _ => readValue (fuelFor s) 0 s
  end.

(** Where a reader of a stream runs out of input ([io.ErrUnexpectedEOF]),
    [checkValid], which holds the whole input, reports a syntax error. *)
Definition atEnd (err : error) : error :=
  match err with
  | ErrUnexpectedEOF => ErrSyntaxEnd
  | _ => err
  end.

(** [checkValid] followed by the scan of [Unmarshal]: the whole input is
    one value, white space apart; an input that is empty or stops short is
    the syntax error "unexpected end of JSON input". *)
Definition scanWhole (s : string) : result value :=
  match skipSpace s with
  | EmptyString => Err ErrSyntaxEnd
  | _ =>
    match readValue (fuelFor s) 0 s with
    | Err err => Err (atEnd err)
    | Ok (v, rest) =>
      match skipSpace rest with
      | EmptyString => Ok v
      | String c _ => Err (SyntaxError c "after top-level value")
      end
    end
  end.

(** *** Decoding into typed Go values *)

(** What [UnmarshalTypeError.Value] says of a JSON value that does not fit
    the kind of the Go value.  (A number that fits the kind but not the
    range is reported with its literal, see [int_unmarshaler].) *)
Definition describe (v : value) : string :=
  match v with
  | Null => "null"
  | Bool _ => "bool"
  | Number _ => "number"
  | Str _ => "string"
  | Array _ => "array"
  | Object _ => "object"
  end.

(** A Go type that [Unmarshal] can fill: [store v old] is the content of a
    variable of the type that held [old], after JSON value [v] was decoded
    into it. *)
Class Unmarshaler (T : Type) := {
  zero : T;
  store : value -> T -> result T
}.

Fixpoint digitsVal (acc : Z) (s : string) : option Z :=
  match s with
  | EmptyString => Some acc
  | String c r =>
    if isDigit c then digitsVal (acc * 10 + (byte c - 48)) r else None
  end.

(** [strconv.ParseInt(lit, 10, 64)] on a literal the scanner accepted. *)
Definition ParseInt (lit : string) : option Z :=
  n ← match lit with
      | String "-" r => Z.opp <$> digitsVal 0 r
      | _ => digitsVal 0 lit
      end;
  if (- 2 ^ 63 <=? n) && (n <? 2 ^ 63) then Some n else None.

(** [span p s]: the longest prefix of [s] whose bytes satisfy [p], and
    what follows it. *)
Fixpoint span (p : ascii -> bool) (s : string) : string * string :=
  match s with
  | EmptyString => (EmptyString, EmptyString)
  | String c r =>
    if p c then let '(a, b) := span p r in (String c a, b)
    else (EmptyString, s)
  end.

(** The value of a run of decimal digits. *)
Fixpoint digitsOf (acc : Z) (s : string) : Z :=
  match s with
  | EmptyString => acc
  | String c r => digitsOf (acc * 10 + (byte c - 48)) r
  end.

(** The decimal exponent as [strconv] reads it: a digit is taken in while
    the value read so far is below 10000. *)
Fixpoint expVal (acc : Z) (s : string) : Z :=
  match s with
  | EmptyString => acc
  | String c r =>
    expVal (if acc <? 10000 then acc * 10 + (byte c - 48) else acc) r
  end.

(** A number literal the scanner accepted, as [strconv] reads it: the
    digits [m] of the mantissa and the decimal exponent [e]; the magnitude
    of the number is [m * 10 ^ e]. *)
Definition decimalOf (lit : string) : Z * Z :=
  let s := match lit with String "-" r => r | _ => lit end in
  let '(ip, r1) := span isDigit s in
  let '(fp, r2) :=
    match r1 with
    | String "." r => span isDigit r
    | _ => (EmptyString, r1)
    end in
  let e :=
    match r2 with
    | String _ (String "+" d) => expVal 0 d
    | String _ (String "-" d) => - expVal 0 d
    | String _ d => expVal 0 d
    | EmptyString => 0
    end in
  (digitsOf 0 (ip +:+ fp), e - Z.of_nat (String.length fp)).

(** Half a unit in the last place above the largest [float64]: a magnitude
    from here on rounds to infinity. *)
Definition float64Limit : Z := 2 ^ 1024 - 2 ^ 970.

(** [strconv.ParseFloat(lit, 64)] reports a range error: the number rounds
    to an infinity.  (A number too small for a [float64] is read as zero,
    without an error.) *)
Definition floatOverflows (lit : string) : bool :=
  let '(m, e) := decimalOf lit in
  if 0 <=? e then float64Limit <=? m * 10 ^ e
  else float64Limit * 10 ^ (- e) <=? m.

(** The number literals of a value, in the order of the text. *)
Fixpoint numbers (v : value) : list string :=
  match v with
  | Number lit => [lit]
  | Array es => flat_map numbers es
  | Object ms => flat_map (fun kv => numbers (snd kv)) ms
  | _ => []
  end.

(** A value decoded into an empty interface ([d.valueInterface]): an object
    becomes a [map[string]any], an array a [[]any], a number a [float64].
    The result is kept as the JSON tree; the first number beyond [float64]
    is the error reported. *)
Definition anyInto (v : value) : result value :=
  match List.find floatOverflows (numbers v) with
  | Some lit => Err (UnmarshalTypeError ("number " +:+ lit) "float64")
  | None => Ok v
  end.

#[global] Instance int_unmarshaler : Unmarshaler Z := {
  zero := 0;
  store v old :=
    match v with
    | Null => Ok old
    | Number lit =>
      match ParseInt lit with
      | Some n => Ok n
      | None => Err (UnmarshalTypeError ("number " +:+ lit) "int")
      end
    | _ => Err (UnmarshalTypeError (describe v) "int")
    end
}.

#[global] Instance string_unmarshaler : Unmarshaler string := {
  zero := EmptyString;
  store v old :=
    match v with
    | Null => Ok old
    | Str s => Ok s
    | _ => Err (UnmarshalTypeError (describe v) "string")
    end
}.

(** [foldRune]: the least rune of the simple-folding orbit of [r].  Only the
    two orbits that reach ASCII are spelled out (the long s and the Kelvin
    sign); every other orbit of a non-ASCII rune stays outside ASCII, so the
    comparison with an ASCII field name is not affected. *)
Definition foldRune (r : Z) : Z :=
  if r =? 0x17F then 0x53
  else if r =? 0x212A then 0x4B
  else r.

Fixpoint appendFoldedName (n : nat) (s : string) : string :=
  match s with
  | EmptyString => EmptyString
  | String c r =>
    match n with
    | O => EmptyString
    | S n' =>
      let b := byte c in
      if b <? utf8.RuneSelf then
        String (if inRange 97 122 b then chr (b - 32) else c)
               (appendFoldedName n' r)
      else
        let '(rr, size) := utf8.DecodeRune s in
        utf8.EncodeRune (foldRune rr)
          +:+ appendFoldedName n' (utf8.string_drop size s)
    end
  end.

Definition foldName (s : string) : string := appendFoldedName (String.length s) s.

(** The field a key selects: the exact name first, else the first field
    whose folded name equals the folded key.  The result is the index of
    the field in [names]. *)
Fixpoint indexOf (p : string -> bool) (names : list string) : option nat :=
  match names with
  | [] => None
  | x :: rest => if p x then Some O else S <$> indexOf p rest
  end.

Definition findField (names : list string) (key : string) : option nat :=
  match indexOf (String.eqb key) names with
  | Some i => Some i
  | None => indexOf (fun x => String.eqb (foldName x) (foldName key)) names
  end.

(** [d.object] on a struct: the members are applied in the order of the
    text, [setField i v t] storing [v] into the [i]-th field.  The first
    type error is the one reported. *)
Fixpoint objectInto {T} (names : list string)
    (setField : nat -> value -> T -> result T)
    (ms : list (string * value)) (t : T) : result T :=
  match ms with
  | [] => Ok t
  | (k, v) :: rest =>
    match findField names k with
    | Some i => t' ← setField i v t; objectInto names setField rest t'
    | None => objectInto names setField rest t
    end
  end.

Definition structInto {T} (type : string) (names : list string)
    (setField : nat -> value -> T -> result T) (v : value) (old : T) : result T :=
  match v with
  | Null => Ok old
  | Object ms => objectInto names setField ms old
  | _ => Err (UnmarshalTypeError (describe v) type)
  end.

(** [Decoder.Decode(&t)] on a fresh decoder over [body]. *)
Definition Decode {T} `{Unmarshaler T} (body : string) (old : T) : result T :=
  '(v, _) ← scanNext body; store v old.

(** [Decoder.Decode(&v)] for a variable [v any] that holds a non-nil
    pointer to [sv]: the JSON value [null] sets the interface itself to nil
    ([None]); any other value is decoded into the value the pointer refers
    to, and the interface keeps the pointer.  When [v] holds a value that is
    not a pointer, [null] sets the interface to nil as well, and any other
    value is decoded as into an empty interface and replaces what [v] held:
    that is this function at [json.value], see [any_unmarshaler]. *)
Definition DecodeInterface {T} `{Unmarshaler T} (body : string) (sv : T)
  : result (option T) :=
  '(v, _) ← scanNext body;
  match v with
  | Null => Ok None
  | _ => sv' ← store v sv; Ok (Some sv')
  end.

(** [Unmarshal(body, &t)]. *)
Definition Unmarshal {T} `{Unmarshaler T} (body : string) (old : T) : result T :=
  v ← scanWhole body; store v old.

(** *** Encoding *)

Definition hex (n : Z) : ascii :=
  match String.get (Z.to_nat n) "0123456789abcdef" with
  | Some c => c
  | None => "0"%char
  end.

(** [htmlSafeSet]: the ASCII bytes written as they are when HTML escaping
    is on, as it is for [Marshal]. *)
Definition htmlSafeSet (b : Z) : bool :=
  (32 <=? b) && (b <? 128)
  && negb ((b =? 34) || (b =? 38) || (b =? 60) || (b =? 62) || (b =? 92)).

(** The escape of an ASCII byte outside [htmlSafeSet].  (Older releases of
    Go write the backspace and the form feed as [\u0008] and [\u000c]; both
    spellings are read back alike.) *)
Definition escapeByte (c : ascii) : string :=
  if (c =? "\")%char || (c =? dquote)%char then String "\" (String c EmptyString)
  else if (c =? "008")%char then "\b"
  else if (c =? "012")%char then "\f"
  else if (c =? "010")%char then "\n"
  else if (c =? "013")%char then "\r"
  else if (c =? "009")%char then "\t"
  else "\u00" +:+ String (hex (Z.shiftr (byte c) 4))
                   (String (hex (Z.land (byte c) 0xF)) EmptyString).

Fixpoint string_take (k : nat) (s : string) : string :=
  match k, s with
  | O, _ => EmptyString
  | S k', String c rest => String c (string_take k' rest)
  | S _, EmptyString => EmptyString
  end.

(** The loop of [appendString], without the surrounding quotes. *)
Fixpoint appendStringBody (n : nat) (src : string) : string :=
  match src with
  | EmptyString => EmptyString
  | String c r =>
    match n with
    | O => EmptyString
    | S n' =>
      if byte c <? utf8.RuneSelf then
        if htmlSafeSet (byte c) then String c (appendStringBody n' r)
        else escapeByte c +:+ appendStringBody n' r
      else
        let '(rr, size) := utf8.DecodeRune src in
        if (rr =? utf8.RuneError) && (size =? 1)%nat then
          String "\" "ufffd" +:+ appendStringBody n' (utf8.string_drop size src)
        else if (rr =? 0x2028) || (rr =? 0x2029) then
          "\u202" +:+ String (hex (Z.land rr 0xF)) EmptyString
            +:+ appendStringBody n' (utf8.string_drop size src)
        else
          string_take size src +:+ appendStringBody n' (utf8.string_drop size src)
    end
  end.

(** [appendString(nil, src, true)]: [src] as a JSON string literal. *)
Definition appendString (src : string) : string :=
  quoted (appendStringBody (String.length src) src).

(** A Go type that [Marshal] can be asked to write. *)
Class Marshaler (P : Type) := Marshal : P -> result string.

#[global] Instance string_marshaler : Marshaler string :=
  fun s => Ok (appendString s).

(** The entries of a map in the order [Marshal] writes them: sorted by key. *)
Definition sortedEntries (m : gmap string string) : list (string * string) :=
  merge_sort (fun a b => String.leb a.1 b.1) (map_to_list m).

Fixpoint appendEntries (l : list (string * string)) : string :=
  match l with
  | [] => EmptyString
  | [(k, v)] => appendString k +:+ ":" +:+ appendString v
  | (k, v) :: rest =>
    appendString k +:+ ":" +:+ appendString v +:+ "," +:+ appendEntries rest
  end.

(** A non-nil [map[string]string]. *)
#[global] Instance map_marshaler : Marshaler (gmap string string) :=
  fun m => Ok ("{" +:+ appendEntries (sortedEntries m) +:+ "}").

(** The key of a struct field, given its Go name and the name in its
    [json] tag: the tag's name or, where no tag is declared, the Go name. *)
Definition fieldKey (field : string * string) : string :=
  if String.eqb (snd field) EmptyString then fst field else snd field.

(** A struct of string fields: the fields are written in the order of
    declaration, each under its key. *)
Definition appendStruct (fields : list (string * string))
    (values : list string) : string :=
  "{" +:+ appendEntries (combine (map fieldKey fields) values) +:+ "}".

(** [Marshal(data)] for [data any]: [None] is the nil interface. *)
Definition MarshalAny {P} `{Marshaler P} (data : option P) : result string :=
  match data with
  | None => Ok "null"%string
  | Some p => Marshal p
  end.

End json.

(** ** net/http: requests, responses, headers *)

(** [httpguts.IsTokenRune] on a byte, which is also [validHeaderFieldByte]. *)
Definition isToken (c : ascii) : bool :=
  let b := byte c in
  inRange 48 57 b || inRange 65 90 b || inRange 97 122 b
  || existsb (Ascii.eqb c)
       ["!"; "#"; "$"; "%"; "&"; "'"; "*"; "+"; "-"; "."; "^"; "_"; "`"; "|"; "~"]%char.

Definition validMethod (method : string) : bool :=
  negb (String.eqb method EmptyString) && forallb isToken (list_ascii_of_string method).

(** The letter case of a canonical header key: upper case at the start and
    after a hyphen, lower case elsewhere. *)
Fixpoint canonCase (upper : bool) (s : string) : string :=
  match s with
  | EmptyString => EmptyString
  | String c r =>
    let b := byte c in
    let c' :=
      if upper && inRange 97 122 b then chr (b - 32)
      else if negb upper && inRange 65 90 b then chr (b + 32)
      else c in
    String c' (canonCase (c' =? "-")%char r)
  end.

(** [textproto.CanonicalMIMEHeaderKey]: a key with a byte that is no token
    byte is left as it is. *)
Definition CanonicalMIMEHeaderKey (s : string) : string :=
  if forallb isToken (list_ascii_of_string s) then canonCase true s else s.

Module Request.
Record t : Type := mk {
  Method : string;
  URL : string;
  Header : gmap string (list string);
  Body : string
}.
End Request.

(** The body of a response is taken as delivered in full: a read error of
    the stream is not modelled. *)
Module Response.
Record t : Type := mk {
  StatusCode : Z;
  Body : string
}.
End Response.

(** [req.Header.Set(key, value)] *)
Definition Header_Set (key value : string) (req : Request.t) : Request.t :=
  Request.mk (Request.Method req) (Request.URL req)
             (<[CanonicalMIMEHeaderKey key := [value]]> (Request.Header req))
             (Request.Body req).

(** [req.Header.Get(key)] *)
Definition Header_Get (key : string) (req : Request.t) : string :=
  match Request.Header req !! CanonicalMIMEHeaderKey key with
  | Some (v :: _) => v
  | _ => EmptyString
  end.

(** [net/url.Parse] is not part of this repository: the pipeline is stated
    over any parser, which returns the URL it accepted or its error. *)
Class URLParser := url_Parse : string -> result string.

(** [http.NewRequestWithContext] with a background context and a
    [bytes.Buffer] body. *)
Definition NewRequestWithContext `{URLParser} (method url body : string)
  : result Request.t :=
  let method := if String.eqb method EmptyString then "GET"%string else method in
  if negb (validMethod method) then Err (InvalidMethodError method) else
  u ← url_Parse url;
  Ok (Request.mk method u ∅ body).

(** ** client.go *)

Definition authEndpoint : string := "auth/v1".

Module ErrorResponse.
Record t : Type := mk {
  Status : Z;          (* `json:"code"` *)
  ErrorCode : string;  (* `json:"error_code"` *)
  Message : string     (* `json:"msg"` *)
}.

Definition names : list string := ["code"; "error_code"; "msg"].

Definition setField (i : nat) (v : json.value) (e : t) : result t :=
  match i with
  | 0%nat => x ← json.store v (Status e); Ok (mk x (ErrorCode e) (Message e))
  | 1%nat => x ← json.store v (ErrorCode e); Ok (mk (Status e) x (Message e))
  | _ => x ← json.store v (Message e); Ok (mk (Status e) (ErrorCode e) x)
  end.
End ErrorResponse.

#[global] Instance ErrorResponse_unmarshaler : json.Unmarshaler ErrorResponse.t := {
  json.zero := ErrorResponse.mk 0 EmptyString EmptyString;
  json.store := json.structInto "supauth.ErrorResponse"
                  ErrorResponse.names ErrorResponse.setField
}.

(** What the [Data any] field of an [AuthResponse] holds: nothing, the
    pointer to the decoded [ErrorResponse], or the caller's success value. *)
Inductive data (T : Type) : Type :=
| Nil
| ErrorValue (e : ErrorResponse.t)
| SuccessValue (v : T).
Arguments Nil {T}.
Arguments ErrorValue {T} e.
Arguments SuccessValue {T} v.

(** [response.Data = successValue]: the interface value as data. *)
Definition dataOf {T} (successValue : option T) : data T :=
  match successValue with
  | Some sv => SuccessValue sv
  | None => Nil
  end.

Module AuthResponse.
Record t (T : Type) : Type := mk {
  Status : Z;
  Data : data T
}.
Arguments mk {T} Status Data.
Arguments Status {T} _.
Arguments Data {T} _.
End AuthResponse.

(** The transport ([httpClientInterface]): [Do] answers a request with a
    response or with an error. *)
Record client : Type := mkClient {
  BaseUrl : string;
  ApiKey : string;
  HttpClient : Request.t -> result Response.t
}.

(** What a call does to the transport, in order. *)
Inductive event : Type :=
| EvDo (req : Request.t)   (* c.HttpClient.Do(req) *)
| EvClose.                 (* res.Body.Close() *)

Definition newClient (projectId apiKey : string)
    (httpClient : Request.t -> result Response.t) : client :=
  mkClient ("https://" +:+ projectId +:+ ".supabase.co/" +:+ authEndpoint)
           apiKey httpClient.

Definition StatusNoContent : Z := 204.

Section Pipeline.
Context `{URLParser}.

(** [createRequest]: the request, or the error returned with a nil request. *)
Definition createRequest {P} `{json.Marshaler P}
    (c : client) (method endpoint : string) (data : option P)
  : result Request.t :=
  if String.eqb (BaseUrl c) EmptyString then Err ErrEmptyURL else
  let reqUrl := BaseUrl c in
  let reqUrl :=
    if negb (String.eqb endpoint EmptyString)
    then reqUrl +:+ "/" +:+ endpoint else reqUrl in
  match json.MarshalAny data with
  | Err err => Err err
  | Ok reqBody =>
    match NewRequestWithContext method reqUrl reqBody with
    | Err err => Err err
    | Ok req =>
      let req := Header_Set "Content-Type" "application/json" req in
      let req := Header_Set "Accept" "application/json" req in
      Ok req
    end
  end.

(** [sendRequest]: the envelope (with a nil error) or the error (with a nil
    envelope), and the transport events of the call.

    [successValue any] is [None] for a nil interface.  For an interface
    that holds a non-nil pointer to a struct, map, string or number it is
    [Some sv], with [sv : T] the value the pointer refers to.  For an
    interface that holds a value that is not a pointer (the tests pass a
    map by value) it is [byValue], that is [Some] at [T := json.value]:
    the decoder is handed the address of the interface variable, not what
    it holds, so it replaces such a value by the value it decodes, as it
    does for a variable of type [any].  A pointer to a pointer is not
    covered. *)
Definition sendRequest {T} `{json.Unmarshaler T}
    (c : client) (req : Request.t) (successValue : option T)
  : result (AuthResponse.t T) * list event :=
  let req := Header_Set "apikey" (ApiKey c) req in
  match HttpClient c req with
  | Err err => (Err err, [EvDo req])
  | Ok res =>
    let response := AuthResponse.mk (Response.StatusCode res) Nil in
    let ok := (200 <=? Response.StatusCode res) && (Response.StatusCode res <? 300) in
    let out :=
      if negb ok then
        match json.Decode (Response.Body res) (json.zero (T := ErrorResponse.t)) with
        | Err err => Err err
        | Ok errorValue =>
          Ok (AuthResponse.mk (AuthResponse.Status response) (ErrorValue errorValue))
        end
      else
        match negb (Response.StatusCode res =? StatusNoContent), successValue with
        | true, Some sv =>
          match json.DecodeInterface (Response.Body res) sv with
          | Err err => Err err
          | Ok successValue' =>
            Ok (AuthResponse.mk (AuthResponse.Status response)
                                (dataOf successValue'))
          end
        | _, _ => Ok response
        end in
    (out, [EvDo req; EvClose])
  end.

(** [createAndSendRequest] *)
Definition createAndSendRequest {P T} `{json.Marshaler P} `{json.Unmarshaler T}
    (c : client) (method endpoint : string) (data : option P)
    (successValue : option T)
  : result (AuthResponse.t T) * list event :=
  match createRequest c method endpoint data with
  | Err err => (Err err, [])
  | Ok req => sendRequest c req successValue
  end.

End Pipeline.

(** ** Payloads and success shapes *)

Module UserCredentials.
Record t : Type := mk {
  Email : string;
  Password : string
}.

(** The fields in the order of declaration, each with the name in its
    [json] tag: the struct declares no tag. *)
Definition fields : list (string * string) :=
  [("Email"%string, EmptyString); ("Password"%string, EmptyString)].
End UserCredentials.

#[global] Instance UserCredentials_marshaler : json.Marshaler UserCredentials.t :=
  fun c =>
    Ok (json.appendStruct UserCredentials.fields
          [UserCredentials.Email c; UserCredentials.Password c]).

(** A Go channel ([make(chan int)] in the tests): a value [Marshal] refuses. *)
Inductive chan_int : Type := make_chan_int.

#[global] Instance chan_int_marshaler : json.Marshaler chan_int :=
  fun _ => Err (UnsupportedTypeError "chan int").

(** The fields of [UserCredentials] as the decoder sees them. *)
Module UserCredentials_fields.
Definition names : list string := map json.fieldKey UserCredentials.fields.

Definition setField (i : nat) (v : json.value) (c : UserCredentials.t)
  : result UserCredentials.t :=
  match i with
  | 0%nat => x ← json.store v (UserCredentials.Email c);
             Ok (UserCredentials.mk x (UserCredentials.Password c))
  | _ => x ← json.store v (UserCredentials.Password c);
         Ok (UserCredentials.mk (UserCredentials.Email c) x)
  end.
End UserCredentials_fields.

#[global] Instance UserCredentials_unmarshaler
  : json.Unmarshaler UserCredentials.t := {
  json.zero := UserCredentials.mk EmptyString EmptyString;
  json.store := json.structInto "supauth.UserCredentials"
                  UserCredentials_fields.names UserCredentials_fields.setField
}.

(** [d.object] on a [map[string]string]: each value is decoded into a fresh
    element, which is then stored under the member's key. *)
Fixpoint objectIntoMap (ms : list (string * json.value)) (m : gmap string string)
  : result (gmap string string) :=
  match ms with
  | [] => Ok m
  | (k, v) :: rest =>
    x ← json.store v EmptyString; objectIntoMap rest (<[k := x]> m)
  end.

#[global] Instance map_unmarshaler : json.Unmarshaler (gmap string string) := {
  json.zero := ∅;
  json.store v old :=
    match v with
    | json.Null => Ok ∅
    | json.Object ms => objectIntoMap ms old
    | _ => Err (UnmarshalTypeError (json.describe v) "map[string]string")
    end
}.

(** A variable of type [any] that is nil or holds a value that is not a
    pointer: the decoded value replaces what it held. *)
#[global] Instance any_unmarshaler : json.Unmarshaler json.value := {
  json.zero := json.Null;
  json.store v _ := json.anyInto v
}.

(** A [successValue] that is not a pointer; what it holds at the call is
    replaced, so it does not matter. *)
Definition byValue : option json.value := Some json.Null.

(** [map[string]any]: members are inserted in the order of the text, a
    later duplicate replacing an earlier one; [null] empties the map. *)
#[global] Instance map_any_unmarshaler : json.Unmarshaler (gmap string json.value) := {
  json.zero := ∅;
  json.store v old :=
    match v with
    | json.Null => Ok ∅
    | json.Object ms =>
      _ ← json.anyInto v; Ok (foldl (fun m kv => <[kv.1 := kv.2]> m) old ms)
    | _ => Err (UnmarshalTypeError (json.describe v) "map[string]interface {}")
    end
}.

(** [struct{ provider string }]: no exported field, so every member of an
    object is skipped. *)
#[global] Instance AppMetadata_unmarshaler : json.Unmarshaler unit := {
  json.zero := tt;
  json.store := json.structInto "struct { provider string }" []
                  (fun _ _ u => Ok u)
}.

Section Shapes.
(** [time.Time] and its [UnmarshalJSON] belong to Go's library. *)
Context {Time : Type} `{json.Unmarshaler Time}.

Record SignUp : Type := mkSignUp {
  SignUp_ID : string;                 (* `json:"id"` *)
  SignUp_Email : string;              (* `json:"email"` *)
  SignUp_ConfirmedAt : Time;          (* `json:"confirmed_at"` *)
  SignUp_ConfirmationSentAt : Time;   (* `json:"confirmation_sent_at"` *)
  SignUp_CreatedAt : Time;            (* `json:"created_at"` *)
  SignUp_UpdatedAt : Time             (* `json:"updated_at"` *)
}.

Definition SignUp_setField (i : nat) (v : json.value) (s : SignUp) : result SignUp :=
  let '(mkSignUp id email confirmed sent created updated) := s in
  match i with
  | 0%nat => x ← json.store v id; Ok (mkSignUp x email confirmed sent created updated)
  | 1%nat => x ← json.store v email; Ok (mkSignUp id x confirmed sent created updated)
  | 2%nat => x ← json.store v confirmed; Ok (mkSignUp id email x sent created updated)
  | 3%nat => x ← json.store v sent; Ok (mkSignUp id email confirmed x created updated)
  | 4%nat => x ← json.store v created; Ok (mkSignUp id email confirmed sent x updated)
  | _ => x ← json.store v updated; Ok (mkSignUp id email confirmed sent created x)
  end.

#[global] Instance SignUp_unmarshaler : json.Unmarshaler SignUp := {
  json.zero := mkSignUp EmptyString EmptyString json.zero json.zero json.zero json.zero;
  json.store := json.structInto "supauth.SignUp"
    ["id"; "email"; "confirmed_at"; "confirmation_sent_at"; "created_at";
     "updated_at"]%string SignUp_setField
}.

Record User : Type := mkUser {
  User_ID : string;                          (* `json:"id"` *)
  User_Aud : string;                         (* `json:"aud"` *)
  User_Role : string;                        (* `json:"role"` *)
  User_Email : string;                       (* `json:"email"` *)
  User_InvitedAt : Time;                     (* `json:"invited_at"` *)
  User_ConfirmedAt : Time;                   (* `json:"confirmed_at"` *)
  User_ConfirmationSentAt : Time;            (* `json:"confirmation_sent_at"` *)
  User_AppMetadata : unit;                   (* `json:"app_metadata"` *)
  User_UserMetadata : gmap string json.value; (* `json:"user_metadata"` *)
  User_CreatedAt : Time;                     (* `json:"created_at"` *)
  User_UpdatedAt : Time                      (* `json:"updated_at"` *)
}.

Definition User_setField (i : nat) (v : json.value) (u : User) : result User :=
  let '(mkUser id aud role email inv conf sent app meta created updated) := u in
  match i with
  | 0%nat => x ← json.store v id;
             Ok (mkUser x aud role email inv conf sent app meta created updated)
  | 1%nat => x ← json.store v aud;
             Ok (mkUser id x role email inv conf sent app meta created updated)
  | 2%nat => x ← json.store v role;
             Ok (mkUser id aud x email inv conf sent app meta created updated)
  | 3%nat => x ← json.store v email;
             Ok (mkUser id aud role x inv conf sent app meta created updated)
  | 4%nat => x ← json.store v inv;
             Ok (mkUser id aud role email x conf sent app meta created updated)
  | 5%nat => x ← json.store v conf;
             Ok (mkUser id aud role email inv x sent app meta created updated)
  | 6%nat => x ← json.store v sent;
             Ok (mkUser id aud role email inv conf x app meta created updated)
  | 7%nat => x ← json.store v app;
             Ok (mkUser id aud role email inv conf sent x meta created updated)
  | 8%nat => x ← json.store v meta;
             Ok (mkUser id aud role email inv conf sent app x created updated)
  | 9%nat => x ← json.store v created;
             Ok (mkUser id aud role email inv conf sent app meta x updated)
  | _ => x ← json.store v updated;
         Ok (mkUser id aud role email inv conf sent app meta created x)
  end.

#[global] Instance User_unmarshaler : json.Unmarshaler User := {
  json.zero := mkUser EmptyString EmptyString EmptyString EmptyString
                 json.zero json.zero json.zero tt ∅ json.zero json.zero;
  json.store := json.structInto "supauth.User"
    ["id"; "aud"; "role"; "email"; "invited_at"; "confirmed_at";
     "confirmation_sent_at"; "app_metadata"; "user_metadata"; "created_at";
     "updated_at"]%string User_setField
}.

Record Authenticated : Type := mkAuthenticated {
  AccessToken : string;           (* `json:"access_token"` *)
  TokenType : string;             (* `json:"token_type"` *)
  ExpiresIn : Z;                  (* `json:"expires_in"` *)
  RefreshToken : string;          (* `json:"refresh_token"` *)
  Authenticated_User : User;      (* `json:"user"` *)
  ProviderToken : string;         (* `json:"provider_token"` *)
  ProviderRefreshToken : string   (* `json:"provider_refresh_token"` *)
}.

Definition Authenticated_setField (i : nat) (v : json.value) (a : Authenticated)
  : result Authenticated :=
  let '(mkAuthenticated access type expires refresh user ptoken prefresh) := a in
  match i with
  | 0%nat => x ← json.store v access;
             Ok (mkAuthenticated x type expires refresh user ptoken prefresh)
  | 1%nat => x ← json.store v type;
             Ok (mkAuthenticated access x expires refresh user ptoken prefresh)
  | 2%nat => x ← json.store v expires;
             Ok (mkAuthenticated access type x refresh user ptoken prefresh)
  | 3%nat => x ← json.store v refresh;
             Ok (mkAuthenticated access type expires x user ptoken prefresh)
  | 4%nat => x ← json.store v user;
             Ok (mkAuthenticated access type expires refresh x ptoken prefresh)
  | 5%nat => x ← json.store v ptoken;
             Ok (mkAuthenticated access type expires refresh user x prefresh)
  | _ => x ← json.store v prefresh;
         Ok (mkAuthenticated access type expires refresh user ptoken x)
  end.

#[global] Instance Authenticated_unmarshaler : json.Unmarshaler Authenticated := {
  json.zero := mkAuthenticated EmptyString EmptyString 0 EmptyString json.zero
                 EmptyString EmptyString;
  json.store := json.structInto "supauth.Authenticated"
    ["access_token"; "token_type"; "expires_in"; "refresh_token"; "user";
     "provider_token"; "provider_refresh_token"]%string Authenticated_setField
}.

End Shapes.

(** ** The facade: the six operations of [Auth] *)

Definition MethodPost : string := "POST".
Definition MethodPut : string := "PUT".

Module Auth.
Section Operations.
Context `{URLParser} {Time : Type} `{json.Unmarshaler Time}.

(** The receiver [a *Auth] is its [client] field. *)

Definition SignUp (a : client) (credentials : UserCredentials.t)
  : result (AuthResponse.t (SignUp (Time := Time))) * list event :=
  let successResponse : SignUp := json.zero in
  createAndSendRequest a MethodPost "signup" (Some credentials)
                       (Some successResponse).

Definition SignIn (a : client) (credentials : UserCredentials.t)
  : result (AuthResponse.t (Authenticated (Time := Time))) * list event :=
  let successResponse : Authenticated := json.zero in
  createAndSendRequest a MethodPost "token?grant_type=password"
                       (Some credentials) (Some successResponse).

Definition SignOut (a : client) (token : string)
  : result (AuthResponse.t json.value) * list event :=
  match createRequest a MethodPost "logout" (None : option string) with
  | Err err => (Err err, [])
  | Ok req =>
    let req := Header_Set "Authorization" ("Bearer " +:+ token) req in
    sendRequest a req None
  end.

Definition RefreshToken (a : client) (refreshToken : string)
  : result (AuthResponse.t (Authenticated (Time := Time))) * list event :=
  let reqBody : gmap string string := {["refresh_token"%string := refreshToken]} in
  let successResponse : Authenticated := json.zero in
  createAndSendRequest a MethodPost "token?grant_type=refresh_token"
                       (Some reqBody) (Some successResponse).

Definition ForgottenPassword (a : client) (email : string)
  : result (AuthResponse.t json.value) * list event :=
  let reqBody : gmap string string := {["email"%string := email]} in
  createAndSendRequest a MethodPost "recover" (Some reqBody) None.

Definition ResetPassword (a : client) (token password : string)
  : result (AuthResponse.t json.value) * list event :=
  let reqBody : gmap string string := {["password"%string := password]} in
  match createRequest a MethodPut "user?type=recovery" (Some reqBody) with
  | Err err => (Err err, [])
  | Ok req =>
    let req := Header_Set "Authorization" ("Bearer " +:+ token) req in
    sendRequest a req None
  end.

End Operations.
End Auth.

(** [stringContainsCTLByte] of [net/url]. *)
Definition stringContainsCTLByte (s : string) : bool :=
  existsb (fun c => (byte c <? 32) || (byte c =? 0x7f)) (list_ascii_of_string s).

(** A parser that applies the first check of [url.Parse] only (no control
    byte in the URL); it serves where an example needs a concrete parser. *)
Definition ctlCheckParser : URLParser :=
  fun u => if stringContainsCTLByte u then Err (URLParseError u) else Ok u.

(** ** Test doubles

    A transport that answers every request with one fixed response, as
    [HttpClientMock] does in the tests, and one that always fails. *)

Definition respondWith (code : Z) (body : string) : Request.t -> result Response.t :=
  fun _ => Ok (Response.mk code body).

Definition failWith (msg : string) : Request.t -> result Response.t :=
  fun _ => Err (TransportError msg).

Definition testClient (httpClient : Request.t -> result Response.t) : client :=
  mkClient "http://localhost" "abc123" httpClient.

Definition testRequest : Request.t :=
  Request.mk "GET" "http://localhost/test" ∅
             (json.appendString ("{" +:+ quoted "foo" +:+ ": " +:+ quoted "bar" +:+ "}")).

(** ** Vocabulary of the properties *)

(** A status in the success range. *)
Definition is2xx (code : Z) : Prop := 200 <= code < 300.

(** No member of [ms] selects the [i]-th field of [ErrorResponse]. *)
Definition fieldAbsent (i : nat) (ms : list (string * json.value)) : Prop :=
  forall k v, (k, v) ∈ ms -> json.findField ErrorResponse.names k <> Some i.

(** The [i]-th field of an [ErrorResponse]. *)
Definition field (i : nat) (e : ErrorResponse.t) : Z + string :=
  match i with
  | 0%nat => inl (ErrorResponse.Status e)
  | 1%nat => inr (ErrorResponse.ErrorCode e)
  | _ => inr (ErrorResponse.Message e)
  end.

(** What [appendString] makes of a Go string once it is read back: every
    byte that is not part of a well-formed UTF-8 sequence becomes U+FFFD. *)
Fixpoint coerceUTF8 (n : nat) (s : string) : string :=
  match s with
  | EmptyString => EmptyString
  | String c r =>
    match n with
    | O => EmptyString
    | S n' =>
      if byte c <? utf8.RuneSelf then String c (coerceUTF8 n' r)
      else
        let '(rr, size) := utf8.DecodeRune s in
        if (rr =? utf8.RuneError) && (size =? 1)%nat then
          utf8.EncodeRune utf8.RuneError +:+ coerceUTF8 n' (utf8.string_drop size s)
        else
          json.string_take size s +:+ coerceUTF8 n' (utf8.string_drop size s)
    end
  end.

(** The text one ASCII byte contributes to a JSON string literal. *)
Definition asciiPiece (c : ascii) : string :=
  if json.htmlSafeSet (byte c) then String c EmptyString else json.escapeByte c.

(** [p] put before the bytes a reader returns. *)
Definition prepend (p : string) (r : result (string * string))
  : result (string * string) :=
  '(t, rest) ← r; Ok (p +:+ t, rest).

(** What the decoder reads for a member written by [Marshal]. *)
Definition readBack (kv : string * string) : string * json.value :=
  (coerceUTF8 (String.length kv.1) kv.1,
   json.Str (coerceUTF8 (String.length kv.2) kv.2)).

(** A map entry whose key and value are valid UTF-8. *)
Definition validEntry (k v : string) : Prop :=
  utf8.ValidString k = true /\ utf8.ValidString v = true.

(** Response bodies of the tests. *)
Definition fooBarBody : string :=
  "{" +:+ quoted "foo" +:+ ": " +:+ quoted "bar" +:+ "}".

Definition errorKeyBody : string :=
  "{" +:+ quoted "error" +:+ ": " +:+ quoted "Bad request" +:+ "}".

Definition badRequestBody : string :=
  "{" +:+ quoted "code" +:+ ": 400, " +:+ quoted "error_code" +:+ ": "
  +:+ quoted "used_foo_bar" +:+ ", " +:+ quoted "msg" +:+ ": "
  +:+ quoted "Bad Request" +:+ "}".

(** [NewAuth]: an [Auth] holds nothing but its client. *)
Definition NewAuth (projectId apiKey : string)
    (httpClient : Request.t -> result Response.t) : client :=
  newClient projectId apiKey httpClient.

(** The values the [i]-th field of [ErrorResponse] takes without a type
    error: [null] for every field, a number within [int] for [Status], a
    string for [ErrorCode] and [Message]. *)
Definition fieldAccepts (i : nat) (v : json.value) : bool :=
  match v with
  | json.Null => true
  | json.Number lit =>
    match i with
    | 0%nat => match json.ParseInt lit with Some _ => true | None => false end
    | _ => false
    end
  | json.Str _ => match i with 0%nat => false | _ => true end
  | _ => false
  end.

(** A member that selects no field, or a field that accepts its value. *)
Definition memberAccepted (kv : string * json.value) : bool :=
  match json.findField ErrorResponse.names kv.1 with
  | Some i => fieldAccepts i kv.2
  | None => true
  end.

(** The method [NewRequestWithContext] records for [method]. *)
Definition effectiveMethod (method : string) : string :=
  if String.eqb method EmptyString then "GET"%string else method.

(** The string [createRequest] hands to the URL parser. *)
Definition composedURL (c : client) (endpoint : string) : string :=
  if String.eqb endpoint EmptyString then BaseUrl c
  else (BaseUrl c +:+ "/" +:+ endpoint)%string.

(** Error bodies used as examples. *)
Definition mistypedCodeBody : string :=
  "{" +:+ quoted "code" +:+ ": " +:+ quoted "400" +:+ "}".

Definition upperCaseBody : string :=
  "{" +:+ quoted "CODE" +:+ ": 401, " +:+ quoted "Msg" +:+ ": "
  +:+ quoted "denied" +:+ "}".

Definition duplicateKeyBody : string :=
  "{" +:+ quoted "msg" +:+ ": " +:+ quoted "first" +:+ ", "
  +:+ quoted "msg" +:+ ": " +:+ quoted "second" +:+ "}".

Definition extraKeyBody : string :=
  "{" +:+ quoted "hint" +:+ ": [1, 2], " +:+ quoted "msg" +:+ ": "
  +:+ quoted "denied" +:+ "}".

(** A request that already carries an API key, under another spelling. *)
Definition staleKeyRequest : Request.t :=
  Header_Set "APIKEY" "stale" (Header_Set "Accept" "application/json" testRequest).

(** What an operation of the facade hands to the transport: every request
    in [trace] has the given method, the URL parsed from the base URL and
    the endpoint, the given body and [Authorization] header, the client's
    key, and announces and accepts JSON. *)
Definition sends `{URLParser} (a : client) (trace : list event)
    (method endpoint body authorization : string) : Prop :=
  forall req, EvDo req ∈ trace ->
    Request.Method req = method
    /\ url_Parse (composedURL a endpoint) = Ok (Request.URL req)
    /\ Request.Body req = body
    /\ Header_Get "apikey" req = ApiKey a
    /\ Header_Get "Authorization" req = authorization
    /\ Header_Get "Content-Type" req = "application/json"%string
    /\ Header_Get "Accept" req = "application/json"%string.

(** The body [Marshal] writes for a map with the single entry [k], [v]. *)
Definition singletonBody (k v : string) : string :=
  "{" +:+ json.appendString k +:+ ":" +:+ json.appendString v +:+ "}".


(** A body that is not JSON. *)
Definition notJSONBody : string := "<html>".

(** A Go string as the server reads it out of a request body. *)
Definition asReceived (s : string) : string := coerceUTF8 (String.length s) s.

(** A password that is not valid UTF-8: the byte 0xFF between two letters. *)
Definition rawBytePassword : string := String "p" (String (chr 255) "w").




(** The order of the keys in a body: bytewise, as [strings.Compare]. *)
Definition keyLe (a b : string * string) : Prop := String.leb a.1 b.1 = true.




(** A client without a base URL. *)
Definition unconfigured (httpClient : Request.t -> result Response.t) : client :=
  mkClient EmptyString "abc123" httpClient.

(** What an operation does with the request it is to send, spelled out
    over the three ways it can go.  Without a base URL, or when the URL
    composed of base URL and endpoint does not parse, nothing is sent and
    the error is the outcome.  Otherwise [Do] is called once, with a
    request that has the given method, the parsed URL, the given body and
    [Authorization] header, the client's key, and that announces and
    accepts JSON; the body of the response is released at most once. *)
Definition handsOver `{URLParser} {A} (a : client) (out : result A * list event)
    (method endpoint body authorization : string) : Prop :=
  if String.eqb (BaseUrl a) EmptyString then out = (Err ErrEmptyURL, [])
  else
    match url_Parse (composedURL a endpoint) with
    | Err err => out = (Err err, [])
    | Ok u =>
      exists req,
        (snd out = [EvDo req] \/ snd out = [EvDo req; EvClose])
        /\ Request.Method req = method
        /\ Request.URL req = u
        /\ Request.Body req = body
        /\ Header_Get "apikey" req = ApiKey a
        /\ Header_Get "Authorization" req = authorization
        /\ Header_Get "Content-Type" req = "application/json"%string
        /\ Header_Get "Accept" req = "application/json"%string
    end.

(** The body [Marshal] writes for [UserCredentials]. *)
Definition credentialsBody (credentials : UserCredentials.t) : string :=
  json.appendStruct UserCredentials.fields
    [UserCredentials.Email credentials; UserCredentials.Password credentials].

(** The request of an operation that authenticates as the user. *)
Definition withBearer (token : string) (built : result Request.t)
  : result Request.t :=
  match built with
  | Ok req => Ok (Header_Set "Authorization" ("Bearer " +:+ token) req)
  | Err err => Err err
  end.

(** The outcome of an operation over the request it built.  When the
    request could not be built, nothing is done and the error is the
    outcome.  Otherwise [Do] is called once, on the request with the
    client's key set: when it fails, its error is the outcome and nothing
    is released; when it delivers a response, the body of the response is
    released, once, whatever the outcome is. *)
Definition exchangeOf {A} (a : client) (built : result Request.t)
    (out : result A * list event) : Prop :=
  match built with
  | Err err => out = (Err err, [])
  | Ok req =>
    match HttpClient a (Header_Set "apikey" (ApiKey a) req) with
    | Err err => out = (Err err, [EvDo (Header_Set "apikey" (ApiKey a) req)])
    | Ok _ => snd out = [EvDo (Header_Set "apikey" (ApiKey a) req); EvClose]
    end
  end.

(** What a member with value [v] stores in the [i]-th field of
    [ErrorResponse], when it stores anything. *)
Definition stored (i : nat) (v : json.value) : option (Z + string) :=
  match v with
  | json.Number lit =>
    match i with
    | 0%nat => inl <$> json.ParseInt lit
    | _ => None
    end
  | json.Str s =>
    match i with
    | 0%nat => None
    | _ => Some (inr s)
    end
  | _ => None
  end.

(** The integer a literal denotes, when it is the literal of an integer. *)
Definition integerOf (lit : string) : option Z :=
  match lit with
  | String "-" r => Z.opp <$> json.digitsVal 0 r
  | _ => json.digitsVal 0 lit
  end.

(** A [code] one beyond the largest [int]. *)
Definition hugeCodeBody : string :=
  "{" +:+ quoted "code" +:+ ": 9223372036854775808}".

(** An error body in which [msg] is repeated and [code] follows. *)
Definition repeatedKeyBody : string :=
  "{" +:+ quoted "msg" +:+ ": " +:+ quoted "first" +:+ ", "
  +:+ quoted "msg" +:+ ": " +:+ quoted "second" +:+ ", "
  +:+ quoted "code" +:+ ": 401}".

(** * Properties *)

(** ** Bit arithmetic on bytes and runes *)

Lemma lor_disjoint (x y k : Z) :
  0 <= k -> x mod 2 ^ k = 0 -> 0 <= y < 2 ^ k -> Z.lor x y = x + y.
Proof.
  intros Hk Hx Hy.
  assert (Hland : Z.land x y = 0).
  { apply Z.bits_inj'. intros n Hn. rewrite Z.land_spec, Z.bits_0.
    destruct (Z_lt_dec n k) as [Hlt|Hge].
    - rewrite (Z.div_mod x (2 ^ k)) by lia. rewrite Hx, Z.add_0_r.
      rewrite Z.mul_comm, Z.mul_pow2_bits_low by lia. reflexivity.
    - rewrite <- (Z.mod_small y (2 ^ k)) by lia.
      rewrite Z.mod_pow2_bits_high by lia. apply andb_false_r. }
  rewrite <- Z.lxor_lor by assumption. symmetry. now apply Z.add_nocarry_lxor.
Qed.

Lemma land_mask (b k : Z) : 0 <= k -> Z.land b (2 ^ k - 1) = b mod 2 ^ k.
Proof.
  intros Hk. rewrite <- Z.land_ones by assumption.
  now rewrite Z.ones_equiv, <- Z.sub_1_r.
Qed.

Lemma byte_range c : 0 <= byte c < 256.
Proof.
  unfold byte. pose proof (N_ascii_bounded c). lia.
Qed.

Lemma chr_byte c : chr (byte c) = c.
Proof. unfold chr, byte. now rewrite N2Z.id, ascii_N_embedding. Qed.

Lemma byte_chr z : 0 <= z < 256 -> byte (chr z) = z.
Proof.
  intros Hz. unfold chr, byte. rewrite N_ascii_embedding by lia. lia.
Qed.

Ltac pow2 :=
  change (2 ^ 3) with 8 in *; change (2 ^ 4) with 16 in *;
  change (2 ^ 5) with 32 in *; change (2 ^ 6) with 64 in *;
  change (2 ^ 10) with 1024 in *; change (2 ^ 12) with 4096 in *;
  change (2 ^ 18) with 262144 in *.

Ltac divmod := pow2; Z.to_euclidean_division_equations; lia.

Ltac bits :=
  unfold utf8.maskx, utf8.mask2, utf8.mask3, utf8.mask4, utf8.tx, utf8.t2,
    utf8.t3, utf8.t4 in *;
  change 0x3F with (2 ^ 6 - 1) in *;
  change 0x1F with (2 ^ 5 - 1) in *;
  change 0x0F with (2 ^ 4 - 1) in *;
  change 0x07 with (2 ^ 3 - 1) in *;
  rewrite ?land_mask, ?Z.shiftl_mul_pow2, ?Z.shiftr_div_pow2 in * by lia.

(** [lor_sum k]: turn the [Z.lor]s whose right operand is below [2 ^ k] and
    whose left operand is a multiple of [2 ^ k] into sums. *)
Ltac lor_sum k :=
  repeat match goal with
         | |- context [Z.lor ?a ?b] => rewrite (lor_disjoint a b k) by divmod
         end.

Lemma rune2 (p0 b1 : Z) :
  0xC2 <= p0 <= 0xDF -> 0x80 <= b1 <= 0xBF ->
  let r := Z.lor (Z.shiftl (Z.land p0 utf8.mask2) 6) (Z.land b1 utf8.maskx) in
  0x80 <= r <= 0x7FF
  /\ Z.lor utf8.t2 (Z.shiftr r 6) = p0
  /\ Z.lor utf8.tx (Z.land r utf8.maskx) = b1.
Proof.
  intros H0 H1 r. subst r. bits. lor_sum 6. divmod.
Qed.

Lemma rune3 (p0 b1 b2 : Z) :
  0xE0 <= p0 <= 0xEF -> 0x80 <= b1 <= 0xBF -> 0x80 <= b2 <= 0xBF ->
  (p0 = 0xE0 -> 0xA0 <= b1) -> (p0 = 0xED -> b1 <= 0x9F) ->
  let r := Z.lor (Z.lor (Z.shiftl (Z.land p0 utf8.mask3) 12)
                        (Z.shiftl (Z.land b1 utf8.maskx) 6))
                 (Z.land b2 utf8.maskx) in
  0x800 <= r <= 0xFFFF /\ ~ (0xD800 <= r <= 0xDFFF)
  /\ Z.lor utf8.t3 (Z.shiftr r 12) = p0
  /\ Z.lor utf8.tx (Z.land (Z.shiftr r 6) utf8.maskx) = b1
  /\ Z.lor utf8.tx (Z.land r utf8.maskx) = b2.
Proof.
  intros H0 H1 H2 Hlo Hhi r. subst r. bits.
  lor_sum 12. lor_sum 6. lor_sum 4. divmod.
Qed.

Lemma rune4 (p0 b1 b2 b3 : Z) :
  0xF0 <= p0 <= 0xF4 -> 0x80 <= b1 <= 0xBF -> 0x80 <= b2 <= 0xBF ->
  0x80 <= b3 <= 0xBF ->
  (p0 = 0xF0 -> 0x90 <= b1) -> (p0 = 0xF4 -> b1 <= 0x8F) ->
  let r := Z.lor (Z.lor (Z.lor (Z.shiftl (Z.land p0 utf8.mask4) 18)
                               (Z.shiftl (Z.land b1 utf8.maskx) 12))
                        (Z.shiftl (Z.land b2 utf8.maskx) 6))
                 (Z.land b3 utf8.maskx) in
  0x10000 <= r <= 0x10FFFF
  /\ Z.lor utf8.t4 (Z.shiftr r 18) = p0
  /\ Z.lor utf8.tx (Z.land (Z.shiftr r 12) utf8.maskx) = b1
  /\ Z.lor utf8.tx (Z.land (Z.shiftr r 6) utf8.maskx) = b2
  /\ Z.lor utf8.tx (Z.land r utf8.maskx) = b3.
Proof.
  intros H0 H1 H2 H3 Hlo Hhi r. subst r. bits.
  lor_sum 18. lor_sum 12. lor_sum 6. lor_sum 3. divmod.
Qed.

Lemma append_String c s t : String c s +:+ t = String c (s +:+ t).
Proof. reflexivity. Qed.

Lemma append_Empty t : EmptyString +:+ t = t.
Proof. reflexivity. Qed.

Lemma length_append s t :
  String.length (s +:+ t) = (String.length s + String.length t)%nat.
Proof.
  induction s as [|c s IH]; [reflexivity|].
  rewrite append_String. cbn [String.length]. now rewrite IH.
Qed.

Lemma append_assoc s t u : (s +:+ t) +:+ u = s +:+ (t +:+ u).
Proof.
  induction s as [|c s IH]; [reflexivity|].
  rewrite !append_String. now rewrite IH.
Qed.

(** [String.append] is not unfolded by [cbn]: push it through the known
    head of a string by rewriting. *)
Ltac push_append := rewrite ?append_String, ?append_Empty.

(** Right-nested appends with every known head pushed out. *)
Ltac norm_append :=
  repeat first [ rewrite append_assoc | rewrite append_String
               | rewrite append_Empty ].

Lemma inRange_spec lo hi b : inRange lo hi b = true <-> lo <= b <= hi.
Proof. unfold inRange. rewrite andb_true_iff, !Z.leb_le. tauto. Qed.

(** What the table [first] says of a leading byte. *)
Lemma first_cases p0 sz lo hi :
  utf8.first p0 = Some (sz, (lo, hi)) ->
  (sz = 2%nat /\ 0xC2 <= p0 <= 0xDF /\ lo = 0x80 /\ hi = 0xBF)
  \/ (sz = 3%nat /\ 0xE0 <= p0 <= 0xEF /\ 0x80 <= lo /\ hi <= 0xBF
      /\ (p0 = 0xE0 -> lo = 0xA0) /\ (p0 = 0xED -> hi = 0x9F))
  \/ (sz = 4%nat /\ 0xF0 <= p0 <= 0xF4 /\ 0x80 <= lo /\ hi <= 0xBF
      /\ (p0 = 0xF0 -> lo = 0x90) /\ (p0 = 0xF4 -> hi = 0x8F)).
Proof.
  unfold utf8.first, utf8.locb, utf8.hicb.
  repeat match goal with
         | |- context [if inRange ?a ?b ?x then _ else _] =>
           destruct (inRange a b x) eqn:?
         | |- context [if ?x =? ?y then _ else _] =>
           destruct (Z.eqb_spec x y)
         end;
    intros [= <- <- <-];
    repeat match goal with
           | H : inRange _ _ _ = true |- _ => apply inRange_spec in H
           end;
    (left; repeat split; lia) || (right; left; repeat split; lia)
    || (right; right; repeat split; lia).
Qed.

(** The outcome of [DecodeRune] at a byte that is not ASCII: an error of
    width one, or a rune of two to four bytes whose encoding is exactly the
    bytes read. *)
Lemma DecodeRune_inv c0 s1 rr size :
  (byte c0 <? utf8.RuneSelf) = false ->
  utf8.DecodeRune (String c0 s1) = (rr, size) ->
  (rr = utf8.RuneError /\ size = 1%nat)
  \/ (size = 2%nat /\ exists c1 s2, s1 = String c1 s2
        /\ utf8.EncodeRune rr = String c0 (String c1 EmptyString))
  \/ (size = 3%nat /\ exists c1 c2 s3, s1 = String c1 (String c2 s3)
        /\ utf8.EncodeRune rr = String c0 (String c1 (String c2 EmptyString)))
  \/ (size = 4%nat /\ exists c1 c2 c3 s4, s1 = String c1 (String c2 (String c3 s4))
        /\ utf8.EncodeRune rr
           = String c0 (String c1 (String c2 (String c3 EmptyString)))).
Proof.
  intros E0. unfold utf8.DecodeRune. rewrite E0.
  destruct (utf8.first (byte c0)) as [[sz [lo hi]]|] eqn:Ef;
    [|intros [= <- <-]; now left].
  destruct (String.length (String c0 s1) <? sz)%nat; [intros [= <- <-]; now left|].
  destruct s1 as [|c1 s2]; [intros [= <- <-]; now left|].
  destruct (inRange lo hi (byte c1)) eqn:E1; cbn [negb];
    [|intros [= <- <-]; now left].
  apply inRange_spec in E1.
  pose proof (byte_range c0) as R0. pose proof (byte_range c1) as R1.
  apply first_cases in Ef.
  destruct Ef as [(-> & Hp & -> & ->) | [(-> & Hp & Hlo & Hhi & Hl & Hh)
                                        | (-> & Hp & Hlo & Hhi & Hl & Hh)]].
  - cbn [Nat.leb]. intros [= <- <-]. right; left. split; [reflexivity|].
    exists c1, s2. split; [reflexivity|].
    destruct (rune2 (byte c0) (byte c1) Hp E1) as (Hr & H0 & H1).
    unfold utf8.EncodeRune.
    replace ((0 <=? _) && (_ <=? 0x7F)) with false
      by (symmetry; apply andb_false_iff; right; apply Z.leb_gt; lia).
    replace ((0 <=? _) && (_ <=? 0x7FF)) with true
      by (symmetry; apply andb_true_iff; split; apply Z.leb_le; lia).
    now rewrite H0, H1, !chr_byte.
  - cbn [Nat.leb].
    destruct s2 as [|c2 s3]; [intros [= <- <-]; now left|].
    destruct (inRange utf8.locb utf8.hicb (byte c2)) eqn:E2; cbn [negb];
      [|intros [= <- <-]; now left].
    apply inRange_spec in E2. unfold utf8.locb, utf8.hicb in E2.
    intros [= <- <-]. right; right; left. split; [reflexivity|].
    exists c1, c2, s3. split; [reflexivity|].
    destruct (rune3 (byte c0) (byte c1) (byte c2)) as (Hr & Hs & H0 & H1 & H2);
      try lia.
    unfold utf8.EncodeRune.
    replace ((0 <=? _) && (_ <=? 0x7F)) with false
      by (symmetry; apply andb_false_iff; right; apply Z.leb_gt; lia).
    replace ((0 <=? _) && (_ <=? 0x7FF)) with false
      by (symmetry; apply andb_false_iff; right; apply Z.leb_gt; lia).
    replace (_ || _ || inRange _ _ _) with false.
    2: { symmetry. rewrite !orb_false_iff. repeat split.
         - apply Z.ltb_ge; lia.
         - apply Z.ltb_ge; unfold utf8.MaxRune; lia.
         - apply not_true_is_false. rewrite inRange_spec.
           unfold utf8.surrogateMin, utf8.surrogateMax. lia. }
    replace (_ <=? 0xFFFF) with true by (symmetry; apply Z.leb_le; lia).
    unfold utf8.enc3. now rewrite H0, H1, H2, !chr_byte.
  - cbn [Nat.leb].
    destruct s2 as [|c2 s3]; [intros [= <- <-]; now left|].
    destruct (inRange utf8.locb utf8.hicb (byte c2)) eqn:E2; cbn [negb];
      [|intros [= <- <-]; now left].
    apply inRange_spec in E2. unfold utf8.locb, utf8.hicb in E2.
    destruct s3 as [|c3 s4]; [intros [= <- <-]; now left|].
    destruct (inRange utf8.locb utf8.hicb (byte c3)) eqn:E3; cbn [negb];
      [|intros [= <- <-]; now left].
    apply inRange_spec in E3. unfold utf8.locb, utf8.hicb in E3.
    intros [= <- <-]. right; right; right. split; [reflexivity|].
    exists c1, c2, c3, s4. split; [reflexivity|].
    destruct (rune4 (byte c0) (byte c1) (byte c2) (byte c3))
      as (Hr & H0 & H1 & H2 & H3); try lia.
    unfold utf8.EncodeRune.
    replace ((0 <=? _) && (_ <=? 0x7F)) with false
      by (symmetry; apply andb_false_iff; right; apply Z.leb_gt; lia).
    replace ((0 <=? _) && (_ <=? 0x7FF)) with false
      by (symmetry; apply andb_false_iff; right; apply Z.leb_gt; lia).
    replace (_ || _ || inRange _ _ _) with false.
    2: { symmetry. rewrite !orb_false_iff. repeat split.
         - apply Z.ltb_ge; lia.
         - apply Z.ltb_ge; unfold utf8.MaxRune; lia.
         - apply not_true_is_false. rewrite inRange_spec.
           unfold utf8.surrogateMin, utf8.surrogateMax. lia. }
    replace (_ <=? 0xFFFF) with false by (symmetry; apply Z.leb_gt; lia).
    now rewrite H0, H1, H2, H3, !chr_byte.
Qed.

Lemma first_size p0 sz lo hi :
  utf8.first p0 = Some (sz, (lo, hi)) -> (2 <= sz <= 4)%nat.
Proof.
  intros Hf. apply first_cases in Hf.
  destruct Hf as [(-> & _) | [(-> & _) | (-> & _)]]; lia.
Qed.

(** A rune of two bytes or more is decoded from exactly its own bytes:
    what follows them does not matter. *)
Lemma DecodeRune_prefix s rr size tail :
  utf8.DecodeRune s = (rr, size) -> (2 <= size)%nat ->
  utf8.DecodeRune (json.string_take size s +:+ tail) = (rr, size).
Proof.
  unfold utf8.DecodeRune at 1.
  destruct s as [|c0 s1]; [intros [= <- <-]; lia|].
  destruct (byte c0 <? utf8.RuneSelf) eqn:E0; [intros [= <- <-]; lia|].
  destruct (utf8.first (byte c0)) as [[sz [lo hi]]|] eqn:Ef;
    [|intros [= <- <-]; lia].
  pose proof (first_size _ _ _ _ Ef) as Hsz.
  destruct (String.length (String c0 s1) <? sz)%nat; [intros [= <- <-]; lia|].
  destruct s1 as [|c1 s2]; [intros [= <- <-]; lia|].
  destruct (inRange lo hi (byte c1)) eqn:E1; cbn [negb];
    [|intros [= <- <-]; lia].
  destruct (sz <=? 2)%nat eqn:S2.
  { intros [= <- <-] _. cbn [json.string_take]. push_append.
    unfold utf8.DecodeRune. rewrite E0, Ef.
    apply Nat.leb_le in S2.
    replace (String.length _ <? sz)%nat with false
      by (symmetry; apply Nat.ltb_ge; cbn; lia).
    rewrite E1. cbn [negb]. apply Nat.leb_le in S2. now rewrite S2. }
  destruct s2 as [|c2 s3]; [intros [= <- <-]; lia|].
  destruct (inRange utf8.locb utf8.hicb (byte c2)) eqn:E2; cbn [negb];
    [|intros [= <- <-]; lia].
  destruct (sz <=? 3)%nat eqn:S3.
  { intros [= <- <-] _. cbn [json.string_take]. push_append.
    unfold utf8.DecodeRune. rewrite E0, Ef.
    apply Nat.leb_le in S3.
    replace (String.length _ <? sz)%nat with false
      by (symmetry; apply Nat.ltb_ge; cbn; lia).
    rewrite E1, S2, E2. cbn [negb]. apply Nat.leb_le in S3. now rewrite S3. }
  destruct s3 as [|c3 s4]; [intros [= <- <-]; lia|].
  destruct (inRange utf8.locb utf8.hicb (byte c3)) eqn:E3; cbn [negb];
    [|intros [= <- <-]; lia].
  intros [= <- <-] _. cbn [json.string_take]. push_append.
  unfold utf8.DecodeRune. rewrite E0, Ef.
  replace (String.length _ <? sz)%nat with false
    by (symmetry; apply Nat.ltb_ge; cbn; lia).
  rewrite E1, S2, E2, S3, E3. reflexivity.
Qed.

(** ** Reading back what [appendString] wrote *)

Lemma readString_ascii c n rest :
  (byte c <? utf8.RuneSelf) = true ->
  json.readString (S n) (asciiPiece c +:+ rest)
  = prepend (String c EmptyString) (json.readString n rest).
Proof.
  destruct c as [[] [] [] [] [] [] [] []]; intros Hc;
    first [ discriminate Hc | reflexivity ].
Qed.

Lemma readString_replacement n rest :
  json.readString (S n) (String "\" "ufffd" +:+ rest)
  = prepend (utf8.EncodeRune utf8.RuneError) (json.readString n rest).
Proof. reflexivity. Qed.

Lemma readString_separator n rest (rr : Z) :
  rr = 0x2028 \/ rr = 0x2029 ->
  json.readString (S n)
    ("\u202" +:+ String (json.hex (Z.land rr 0xF)) EmptyString +:+ rest)
  = prepend (utf8.EncodeRune rr) (json.readString n rest).
Proof. intros [-> | ->]; reflexivity. Qed.

Lemma high_byte_plain c :
  (byte c <? utf8.RuneSelf) = false ->
  (c =? dquote)%char = false /\ (c =? "\")%char = false
  /\ (byte c <? 32) = false.
Proof.
  intros Hc. apply Z.ltb_ge in Hc. unfold utf8.RuneSelf in Hc.
  repeat split.
  - apply Ascii.eqb_neq. intros ->. cbv in Hc. now apply Hc.
  - apply Ascii.eqb_neq. intros ->. cbv in Hc. now apply Hc.
  - apply Z.ltb_ge. lia.
Qed.

Lemma string_drop_take_append k s tail :
  (k <= String.length s)%nat ->
  utf8.string_drop k (json.string_take k s +:+ tail) = tail.
Proof.
  revert s. induction k as [|k IH]; intros s Hk; [reflexivity|].
  destruct s as [|c s]; cbn in Hk; [lia|].
  cbn [json.string_take]. push_append. cbn [utf8.string_drop].
  apply IH. lia.
Qed.

Lemma length_string_take k s :
  (k <= String.length s)%nat -> String.length (json.string_take k s) = k.
Proof.
  revert s. induction k as [|k IH]; intros s Hk; [reflexivity|].
  destruct s as [|c s]; cbn in Hk |- *; [lia|]. rewrite IH; lia.
Qed.

Lemma length_string_drop k s :
  (k <= String.length s)%nat ->
  String.length (utf8.string_drop k s) = (String.length s - k)%nat.
Proof.
  revert s. induction k as [|k IH]; intros s Hk; [cbn; lia|].
  destruct s as [|c s]; cbn in Hk |- *; [lia|]. apply IH. lia.
Qed.

(** A rune of two bytes or more is read back as its own bytes. *)
Lemma readString_rune s rr size n rest :
  utf8.DecodeRune s = (rr, size) -> (2 <= size)%nat ->
  json.readString (S n) (json.string_take size s +:+ rest)
  = prepend (json.string_take size s) (json.readString n rest).
Proof.
  intros Hdec Hsize.
  pose proof (DecodeRune_prefix s rr size rest Hdec Hsize) as Hpre.
  destruct s as [|c0 s1]; [cbn in Hdec; injection Hdec as <- <-; lia|].
  destruct (byte c0 <? utf8.RuneSelf) eqn:E0.
  { unfold utf8.DecodeRune in Hdec. rewrite E0 in Hdec.
    injection Hdec as <- <-. lia. }
  destruct (high_byte_plain c0 E0) as (Hq & Hb & H32).
  assert (Henc : utf8.EncodeRune rr = json.string_take size (String c0 s1)
                 /\ (size <= String.length (String c0 s1))%nat).
  { destruct (DecodeRune_inv c0 s1 rr size E0 Hdec)
      as [[_ ->] | [(-> & c1 & s2 & -> & He)
                   | [(-> & c1 & c2 & s3 & -> & He)
                     | (-> & c1 & c2 & c3 & s4 & -> & He)]]];
      [lia| | |]; (split; [exact He | cbn; lia]). }
  destruct Henc as [Henc Hlen].
  destruct size as [|size]; [lia|].
  cbn [json.string_take] in *. push_append.
  rewrite append_String in Hpre.
  cbn [json.readString]. rewrite Hq, Hb, H32, E0, Hpre.
  rewrite Henc.
  change (String c0 (json.string_take size s1 +:+ rest))
    with (json.string_take (S size) (String c0 s1) +:+ rest).
  rewrite string_drop_take_append by exact Hlen.
  reflexivity.
Qed.

Lemma length_asciiPiece c : (1 <= String.length (asciiPiece c))%nat.
Proof.
  unfold asciiPiece, json.escapeByte.
  repeat match goal with
         | |- context [if ?b then _ else _] => destruct b
         end; rewrite ?length_append; cbn [String.length]; lia.
Qed.

(** Reading back the literal of [s] gives [s] coerced to valid UTF-8, and
    stops right after the closing quote. *)
Lemma readString_appendStringBody n : forall s m rest,
  (String.length s <= n)%nat ->
  (String.length (json.appendStringBody n s) < m)%nat ->
  json.readString m (json.appendStringBody n s +:+ String dquote rest)
  = Ok (coerceUTF8 n s, rest).
Proof.
  induction n as [|n IH]; intros s m rest Hlen Hm.
  - destruct s; [|cbn in Hlen; lia].
    destruct m; [cbn in Hm; lia|]. reflexivity.
  - destruct s as [|c r].
    { destruct m; [cbn in Hm; lia|]. reflexivity. }
    cbn [String.length] in Hlen.
    cbn [json.appendStringBody coerceUTF8] in *.
    destruct (byte c <? utf8.RuneSelf) eqn:E0.
    + assert (Hpiece : (if json.htmlSafeSet (byte c)
                        then String c (json.appendStringBody n r)
                        else (json.escapeByte c +:+ json.appendStringBody n r)%string)
                       = (asciiPiece c +:+ json.appendStringBody n r)%string).
      { unfold asciiPiece. now destruct (json.htmlSafeSet (byte c)). }
      rewrite Hpiece in *. rewrite length_append in Hm.
      pose proof (length_asciiPiece c).
      destruct m as [|m]; [lia|].
      rewrite !append_assoc.
      rewrite readString_ascii by exact E0.
      rewrite IH by lia. reflexivity.
    + destruct (utf8.DecodeRune (String c r)) as [rr size] eqn:Hdec.
      destruct (DecodeRune_inv c r rr size E0 Hdec)
        as [[-> ->] | Hmulti].
      * cbn [Z.eqb Nat.eqb andb utf8.RuneError Pos.eqb utf8.string_drop] in *.
        rewrite length_append in Hm. cbn [String.length] in Hm.
        destruct m as [|m]; [lia|].
        rewrite !append_assoc, readString_replacement.
        rewrite IH by lia. reflexivity.
      * assert (Hs : (2 <= size)%nat
                     /\ (size <= String.length (String c r))%nat
                     /\ utf8.EncodeRune rr = json.string_take size (String c r)).
        { destruct Hmulti as [(-> & c1 & s2 & -> & He)
                             | [(-> & c1 & c2 & s3 & -> & He)
                               | (-> & c1 & c2 & c3 & s4 & -> & He)]];
            (split; [lia|split; [cbn; lia|exact He]]). }
        destruct Hs as (Hsz & Hle & Henc).
        assert (Hdrop : (String.length (utf8.string_drop size (String c r)) <= n)%nat).
        { rewrite length_string_drop by exact Hle. cbn [String.length]. lia. }
        replace ((rr =? utf8.RuneError) && (size =? 1)%nat) with false in *
          by (symmetry; apply andb_false_iff; right; apply Nat.eqb_neq; lia).
        destruct ((rr =? 0x2028) || (rr =? 0x2029)) eqn:Esep.
        -- rewrite !length_append in Hm. cbn [String.length] in Hm.
           destruct m as [|m]; [lia|].
           rewrite !append_assoc.
           rewrite readString_separator
             by (apply orb_true_iff in Esep; rewrite !Z.eqb_eq in Esep; exact Esep).
           rewrite IH by (try exact Hdrop; lia).
           cbn [prepend mbind result_bind]. now rewrite Henc.
        -- rewrite length_append, length_string_take in Hm by exact Hle.
           destruct m as [|m]; [lia|].
           rewrite !append_assoc.
           rewrite (readString_rune _ rr size) by assumption.
           rewrite IH by (try exact Hdrop; lia). reflexivity.
Qed.

(** ** The recursion bounds are never reached *)

Lemma skipSpace_length s :
  (String.length (json.skipSpace s) <= String.length s)%nat.
Proof.
  induction s as [|c s IH]; [cbn; lia|].
  cbn [json.skipSpace]. destruct (json.isSpace c); cbn [String.length]; lia.
Qed.

Lemma DecodeRune_size c r rr size :
  utf8.DecodeRune (String c r) = (rr, size) ->
  (1 <= size <= String.length (String c r))%nat.
Proof.
  intros Hdec. destruct (byte c <? utf8.RuneSelf) eqn:E0.
  - unfold utf8.DecodeRune in Hdec. rewrite E0 in Hdec.
    injection Hdec as <- <-. cbn. lia.
  - destruct (DecodeRune_inv c r rr size E0 Hdec)
      as [[_ ->] | [(-> & c1 & s2 & -> & _)
                   | [(-> & c1 & c2 & s3 & -> & _)
                     | (-> & c1 & c2 & c3 & s4 & -> & _)]]]; cbn; lia.
Qed.

Lemma getu4_length s r : json.getu4 s = Some r -> (6 <= String.length s)%nat.
Proof.
  destruct s as [|a [|b [|c [|d [|e [|f s]]]]]];
    try (cbn [String.length]; intros; lia);
    unfold json.getu4;
    repeat match goal with
           | |- context [match ?x with _ => _ end] => destruct x
           end; discriminate.
Qed.

Ltac break_match :=
  match goal with
  | |- context [match ?x with _ => _ end] => destruct x eqn:?
  | H : context [match ?x with _ => _ end] |- _ => destruct x eqn:?
  end.

(** Facts on how much input a step has taken. *)
Ltac step_lengths :=
  repeat match goal with
         | H : json.getu4 ?s = Some _ |- _ =>
           lazymatch goal with
           | _ : (6 <= String.length s)%nat |- _ => fail
           | _ => pose proof (getu4_length _ _ H)
           end
         | H : utf8.DecodeRune (String ?c ?r) = (_, ?size) |- _ =>
           lazymatch goal with
           | _ : (1 <= size <= String.length (String c r))%nat |- _ => fail
           | _ => pose proof (DecodeRune_size _ _ _ _ H)
           end
         end.

Lemma readString_rest n : forall s t rest,
  json.readString n s = Ok (t, rest) ->
  (String.length rest < String.length s)%nat.
Proof.
  induction n as [|n IH]; intros s t rest; [discriminate|].
  destruct s as [|c r]; [discriminate|].
  cbn [json.readString mbind result_bind].
  repeat first [ break_match | progress unfold mbind, result_bind ];
    try discriminate;
    intros Heq; inversion Heq; subst; clear Heq; step_lengths;
    repeat match goal with
           | H : json.readString n _ = Ok _ |- _ => apply IH in H
           end;
    rewrite ?length_string_drop in * by (rewrite ?length_string_drop; lia);
    cbn [String.length] in *; lia.
Qed.

Lemma readString_fuel n : forall s,
  (String.length s < n)%nat -> json.readString n s <> Err ErrFuel.
Proof.
  induction n as [|n IH]; intros s Hn; [lia|].
  destruct s as [|c r]; [discriminate|].
  cbn [json.readString String.length] in *.
  repeat first [ break_match | progress unfold mbind, result_bind ];
    try discriminate;
    intros Heq; inversion Heq; subst; clear Heq; step_lengths;
    match goal with
    | H : json.readString n ?x = Err ErrFuel |- _ =>
      apply (IH x); [|exact H]
    end;
    rewrite ?length_string_drop in * by (rewrite ?length_string_drop; lia);
    cbn [String.length] in *; lia.
Qed.

Lemma readStringLit_fuel s : json.readStringLit s <> Err ErrFuel.
Proof. apply readString_fuel. lia. Qed.

Lemma readStringLit_rest s t rest :
  json.readStringLit s = Ok (t, rest) ->
  (String.length rest < String.length s)%nat.
Proof. apply readString_rest. Qed.

Lemma spanDigits_rest s d rest :
  json.spanDigits s = (d, rest) ->
  (String.length rest <= String.length s)%nat.
Proof.
  revert d rest. induction s as [|c s IH]; intros d rest; cbn [json.spanDigits].
  - intros [= <- <-]. lia.
  - destruct (json.isDigit c).
    + destruct (json.spanDigits s) as [d' rest'] eqn:E.
      intros [= <- <-]. specialize (IH _ _ eq_refl). cbn [String.length]. lia.
    + intros [= <- <-]. lia.
Qed.

Lemma someDigits_rest ctx s d rest :
  json.someDigits ctx s = Ok (d, rest) ->
  (String.length rest < String.length s)%nat.
Proof.
  unfold json.someDigits. destruct s as [|c s]; [discriminate|].
  destruct (json.isDigit c) eqn:Ed; [|discriminate].
  intros [= Hs]. cbn [json.spanDigits] in Hs. rewrite Ed in Hs.
  destruct (json.spanDigits s) as [d' rest'] eqn:E.
  injection Hs as <- <-. apply spanDigits_rest in E. cbn [String.length]. lia.
Qed.

Lemma readSign_rest s sign r :
  json.readSign s = (sign, r) -> (String.length r <= String.length s)%nat.
Proof.
  unfold json.readSign. destruct s as [|c s]; [intros [= <- <-]; lia|].
  destruct (c =? "-")%char; intros [= <- <-]; cbn [String.length]; lia.
Qed.

Lemma readInt_rest s int r :
  json.readInt s = Ok (int, r) -> (String.length r < String.length s)%nat.
Proof.
  unfold json.readInt. destruct s as [|c s]; [discriminate|].
  destruct (c =? "0")%char; [intros [= <- <-]; cbn; lia|].
  destruct (json.isDigit c) eqn:Ed; [|discriminate].
  intros [= Hs]. cbn [json.spanDigits] in Hs. rewrite Ed in Hs.
  destruct (json.spanDigits s) as [d' rest'] eqn:E.
  injection Hs as <- <-. apply spanDigits_rest in E. cbn [String.length]. lia.
Qed.

Lemma readFraction_rest s f r :
  json.readFraction s = Ok (f, r) -> (String.length r <= String.length s)%nat.
Proof.
  unfold json.readFraction. destruct s as [|c s]; [intros [= <- <-]; lia|].
  destruct (c =? ".")%char; [|intros [= <- <-]; lia].
  unfold mbind, result_bind.
  destruct (json.someDigits _ s) as [[d rest]|] eqn:E; [|discriminate].
  intros [= <- <-]. apply someDigits_rest in E. cbn [String.length]. lia.
Qed.

Lemma readExponent_rest s e r :
  json.readExponent s = Ok (e, r) -> (String.length r <= String.length s)%nat.
Proof.
  unfold json.readExponent. destruct s as [|c s]; [intros [= <- <-]; lia|].
  destruct ((c =? "e")%char || (c =? "E")%char); [|intros [= <- <-]; lia].
  assert (Hsign : forall sign r',
            match s with
            | String g r'' =>
              if (g =? "+")%char || (g =? "-")%char
              then (String g EmptyString, r'') else (EmptyString, s)
            | EmptyString => (EmptyString, s)
            end = (sign, r') ->
            (String.length r' <= String.length s)%nat).
  { intros sign r'. destruct s as [|g s']; [intros [= <- <-]; lia|].
    destruct ((g =? "+")%char || (g =? "-")%char);
      intros [= <- <-]; cbn [String.length]; lia. }
  destruct (match s with String g r'' => _ | EmptyString => _ end)
    as [sign r'] eqn:Es.
  pose proof (Hsign _ _ eq_refl) as Hr'. unfold mbind, result_bind.
  destruct (json.someDigits _ r') as [[d rest]|] eqn:E; [|discriminate].
  intros [= <- <-]. apply someDigits_rest in E. cbn [String.length]. lia.
Qed.

Lemma readNumber_rest s lit rest :
  json.readNumber s = Ok (lit, rest) ->
  (String.length rest < String.length s)%nat.
Proof.
  unfold json.readNumber.
  destruct (json.readSign s) as [sign r] eqn:Es. apply readSign_rest in Es.
  unfold mbind, result_bind.
  destruct (json.readInt r) as [[int r1]|] eqn:Ei; [|discriminate].
  destruct (json.readFraction r1) as [[frac r2]|] eqn:Ef; [|discriminate].
  destruct (json.readExponent r2) as [[exp r3]|] eqn:Ee; [|discriminate].
  intros [= <- <-].
  apply readInt_rest in Ei. apply readFraction_rest in Ef.
  apply readExponent_rest in Ee. lia.
Qed.

Lemma someDigits_fuel ctx s : json.someDigits ctx s <> Err ErrFuel.
Proof.
  unfold json.someDigits. destruct s; [discriminate|].
  destruct (json.isDigit _); discriminate.
Qed.

Lemma readNumber_fuel s : json.readNumber s <> Err ErrFuel.
Proof.
  unfold json.readNumber.
  destruct (json.readSign s) as [sign r].
  unfold mbind, result_bind.
  destruct (json.readInt r) as [[int r1]|e] eqn:Ei.
  2: { unfold json.readInt in Ei. destruct r; [congruence|].
       repeat break_match; congruence. }
  destruct (json.readFraction r1) as [[frac r2]|e] eqn:Ef.
  2: { unfold json.readFraction in Ef. destruct r1; [congruence|].
       destruct (_ =? _)%char; [|congruence].
       unfold mbind, result_bind in Ef.
       destruct (json.someDigits _ r1) as [[? ?]|e'] eqn:E; [congruence|].
       injection Ef as <-. intros [= ->]. exact (someDigits_fuel _ _ E). }
  destruct (json.readExponent r2) as [[exp r3]|e] eqn:Ee; [discriminate|].
  unfold json.readExponent in Ee. destruct r2; [congruence|].
  destruct (_ || _); [|congruence].
  destruct (match r2 with String g r'' => _ | EmptyString => _ end) as [sg r'].
  unfold mbind, result_bind in Ee.
  destruct (json.someDigits _ r') as [[? ?]|e'] eqn:E; [congruence|].
  injection Ee as <-. intros [= ->]. exact (someDigits_fuel _ _ E).
Qed.

Lemma expect_rest name want s rest :
  json.expect name want s = Ok rest ->
  (String.length rest <= String.length s)%nat.
Proof.
  revert s. induction want as [|w want IH]; intros s; cbn [json.expect].
  - intros [= <-]. lia.
  - destruct s as [|c s]; [discriminate|].
    destruct (c =? w)%char; [|discriminate].
    intros H. apply IH in H. cbn [String.length]. lia.
Qed.

Lemma expect_fuel name want s : json.expect name want s <> Err ErrFuel.
Proof.
  revert s. induction want as [|w want IH]; intros s; cbn [json.expect];
    [discriminate|].
  destruct s as [|c s]; [discriminate|].
  destruct (c =? w)%char; [apply IH|discriminate].
Qed.

Lemma skipSpace_String s c r :
  json.skipSpace s = String c r -> (String.length r < String.length s)%nat.
Proof.
  intros E. pose proof (skipSpace_length s) as H. rewrite E in H.
  cbn [String.length] in H. lia.
Qed.

Lemma closes_rest c s r :
  json.closes c s = Some r -> (String.length r < String.length s)%nat.
Proof.
  unfold json.closes. destruct (json.skipSpace s) as [|d r'] eqn:E; [discriminate|].
  destruct (d =? c)%char; [|discriminate]. intros [= <-].
  now apply skipSpace_String in E.
Qed.

(** What the readers that take no bound tell about lengths. *)
Ltac reader_lengths :=
  repeat match goal with
         | H : json.skipSpace _ = String _ _ |- _ => apply skipSpace_String in H
         | H : json.closes _ _ = Some _ |- _ => apply closes_rest in H
         | H : json.readStringLit _ = Ok _ |- _ => apply readStringLit_rest in H
         | H : json.readNumber _ = Ok _ |- _ => apply readNumber_rest in H
         | H : json.expect _ _ _ = Ok _ |- _ => apply expect_rest in H
         end.

Lemma readers_rest n :
  (forall depth s v r, json.readValue n depth s = Ok (v, r) ->
                       (String.length r < String.length s)%nat)
  /\ (forall depth s ms r, json.readMembers n depth s = Ok (ms, r) ->
                           (String.length r < String.length s)%nat)
  /\ (forall depth s es r, json.readElements n depth s = Ok (es, r) ->
                           (String.length r < String.length s)%nat).
Proof.
  induction n as [|n (IHv & IHm & IHe)]; [repeat split; discriminate|].
  repeat split; intros depth s x r.
  - cbn [json.readValue].
    repeat first [ break_match | progress unfold mbind, result_bind ];
      try discriminate;
      intros Heq; inversion Heq; subst; clear Heq;
      repeat match goal with
             | H : json.readMembers n _ _ = Ok _ |- _ => apply IHm in H
             | H : json.readElements n _ _ = Ok _ |- _ => apply IHe in H
             end;
      reader_lengths; cbn [String.length] in *; lia.
  - cbn [json.readMembers].
    repeat first [ break_match | progress unfold mbind, result_bind ];
      try discriminate;
      intros Heq; inversion Heq; subst; clear Heq;
      repeat match goal with
             | H : json.readMembers n _ _ = Ok _ |- _ => apply IHm in H
             | H : json.readValue n _ _ = Ok _ |- _ => apply IHv in H
             end;
      reader_lengths; cbn [String.length] in *; lia.
  - cbn [json.readElements].
    repeat first [ break_match | progress unfold mbind, result_bind ];
      try discriminate;
      intros Heq; inversion Heq; subst; clear Heq;
      repeat match goal with
             | H : json.readElements n _ _ = Ok _ |- _ => apply IHe in H
             | H : json.readValue n _ _ = Ok _ |- _ => apply IHv in H
             end;
      reader_lengths; cbn [String.length] in *; lia.
Qed.

(** With a bound of twice the length of the input and one more (two more
    for the elements of an array), no reader reports the bound. *)
Lemma readers_fuel n :
  (forall depth s, (2 * String.length s + 1 <= n)%nat ->
                   json.readValue n depth s <> Err ErrFuel)
  /\ (forall depth s, (2 * String.length s + 1 <= n)%nat ->
                      json.readMembers n depth s <> Err ErrFuel)
  /\ (forall depth s, (2 * String.length s + 2 <= n)%nat ->
                      json.readElements n depth s <> Err ErrFuel).
Proof.
  induction n as [|n (IHv & IHm & IHe)]; [repeat split; intros; lia|].
  pose proof (readers_rest n) as (Rv & Rm & Re).
  repeat split; intros depth s Hn.
  - cbn [json.readValue].
    repeat first [ break_match | progress unfold mbind, result_bind ];
      try discriminate;
      intros Heq; inversion Heq; subst; clear Heq;
      try match goal with
          | H : json.readStringLit _ = Err ErrFuel |- _ =>
            exact (readStringLit_fuel _ H)
          | H : json.readNumber _ = Err ErrFuel |- _ =>
            exact (readNumber_fuel _ H)
          | H : json.expect _ _ _ = Err ErrFuel |- _ =>
            exact (expect_fuel _ _ _ H)
          end;
      match goal with
      | H : json.readMembers n ?d ?x = Err ErrFuel |- _ =>
        apply (IHm d x); [|exact H]
      | H : json.readElements n ?d ?x = Err ErrFuel |- _ =>
        apply (IHe d x); [|exact H]
      end;
      reader_lengths; cbn [String.length] in *; lia.
  - cbn [json.readMembers].
    repeat first [ break_match | progress unfold mbind, result_bind ];
      try discriminate;
      intros Heq; inversion Heq; subst; clear Heq;
      try match goal with
          | H : json.readStringLit _ = Err ErrFuel |- _ =>
            exact (readStringLit_fuel _ H)
          end;
      repeat match goal with
             | H : json.readValue n _ _ = Ok _ |- _ => apply Rv in H
             end;
      match goal with
      | H : json.readMembers n ?d ?x = Err ErrFuel |- _ =>
        apply (IHm d x); [|exact H]
      | H : json.readValue n ?d ?x = Err ErrFuel |- _ =>
        apply (IHv d x); [|exact H]
      end;
      reader_lengths; cbn [String.length] in *; lia.
  - cbn [json.readElements].
    repeat first [ break_match | progress unfold mbind, result_bind ];
      try discriminate;
      intros Heq; inversion Heq; subst; clear Heq;
      repeat match goal with
             | H : json.readValue n _ _ = Ok _ |- _ => apply Rv in H
             end;
      match goal with
      | H : json.readElements n ?d ?x = Err ErrFuel |- _ =>
        apply (IHe d x); [|exact H]
      | H : json.readValue n ?d ?x = Err ErrFuel |- _ =>
        apply (IHv d x); [|exact H]
      end;
      reader_lengths; cbn [String.length] in *; lia.
Qed.

(** The decoder's scan never ends on the model's bound: its errors are
    Go's. *)
Lemma scanNext_total s : json.scanNext s <> Err ErrFuel.
Proof.
  unfold json.scanNext, json.fuelFor.
  destruct (json.skipSpace s); [discriminate|].
  apply (proj1 (readers_fuel _)). lia.
Qed.

Lemma scanWhole_total s : json.scanWhole s <> Err ErrFuel.
Proof.
  unfold json.scanWhole, json.fuelFor.
  destruct (json.skipSpace s); [discriminate|].
  unfold mbind, result_bind.
  destruct (json.readValue _ 0 s) as [[v rest]|e] eqn:E.
  - destruct (json.skipSpace rest); discriminate.
  - intros Hend. assert (e = ErrFuel) as -> by (now destruct e).
    revert E. apply (proj1 (readers_fuel _)). lia.
Qed.

(** ** Field selection of [ErrorResponse] *)

Lemma findField_code : json.findField ErrorResponse.names "code" = Some 0%nat.
Proof. reflexivity. Qed.

Lemma findField_error_code :
  json.findField ErrorResponse.names "error_code" = Some 1%nat.
Proof. reflexivity. Qed.

Lemma findField_msg : json.findField ErrorResponse.names "msg" = Some 2%nat.
Proof. reflexivity. Qed.

Lemma store_int_number lit n old :
  json.ParseInt lit = Some n -> json.store (json.Number lit) old = Ok n.
Proof. intros E. cbn. now rewrite E. Qed.

Lemma objectInto_code lit n rest e :
  json.ParseInt lit = Some n ->
  json.objectInto ErrorResponse.names ErrorResponse.setField
    (("code"%string, json.Number lit) :: rest) e
  = json.objectInto ErrorResponse.names ErrorResponse.setField rest
      (ErrorResponse.mk n (ErrorResponse.ErrorCode e) (ErrorResponse.Message e)).
Proof.
  intros Hn. cbn [json.objectInto]. rewrite findField_code.
  unfold ErrorResponse.setField. now rewrite (store_int_number lit n _ Hn).
Qed.

Lemma objectInto_error_code ec rest e :
  json.objectInto ErrorResponse.names ErrorResponse.setField
    (("error_code"%string, json.Str ec) :: rest) e
  = json.objectInto ErrorResponse.names ErrorResponse.setField rest
      (ErrorResponse.mk (ErrorResponse.Status e) ec (ErrorResponse.Message e)).
Proof. cbn [json.objectInto]. now rewrite findField_error_code. Qed.

Lemma objectInto_msg m rest e :
  json.objectInto ErrorResponse.names ErrorResponse.setField
    (("msg"%string, json.Str m) :: rest) e
  = json.objectInto ErrorResponse.names ErrorResponse.setField rest
      (ErrorResponse.mk (ErrorResponse.Status e) (ErrorResponse.ErrorCode e) m).
Proof. cbn [json.objectInto]. now rewrite findField_msg. Qed.

(** Decoding the three members of the error shape, whatever their order. *)
Lemma objectInto_error_shape ms lit n ec m e0 :
  ms ≡ₚ [("code"%string, json.Number lit); ("error_code"%string, json.Str ec);
         ("msg"%string, json.Str m)] ->
  json.ParseInt lit = Some n ->
  json.objectInto ErrorResponse.names ErrorResponse.setField ms e0
  = Ok (ErrorResponse.mk n ec m).
Proof.
  intros Hp Hn. symmetry in Hp. apply permutations_Permutation in Hp.
  cbn in Hp.
  repeat (apply elem_of_cons in Hp; destruct Hp as [-> | Hp]);
    try (repeat first [ rewrite (objectInto_code lit n _ _ Hn)
                      | rewrite objectInto_error_code
                      | rewrite objectInto_msg ];
         reflexivity).
  inversion Hp.
Qed.

Lemma indexOf_lt p names i :
  json.indexOf p names = Some i -> (i < length names)%nat.
Proof.
  revert i. induction names as [|x names IH]; intros i; cbn; [discriminate|].
  destruct (p x); [intros [= <-]; lia|].
  destruct (json.indexOf p names) as [j|]; cbn; [|discriminate].
  intros [= <-]. specialize (IH j eq_refl). lia.
Qed.

Lemma findField_lt names k i :
  json.findField names k = Some i -> (i < length names)%nat.
Proof.
  unfold json.findField.
  destruct (json.indexOf (String.eqb k) names) eqn:E.
  - intros [= <-]. eauto using indexOf_lt.
  - eauto using indexOf_lt.
Qed.

Lemma setField_other i j v e e' :
  (i < 3)%nat -> (j < 3)%nat -> i <> j ->
  ErrorResponse.setField i v e = Ok e' -> field j e' = field j e.
Proof.
  intros Hi Hj Hne. unfold ErrorResponse.setField.
  destruct i as [|[|[|i]]]; try lia;
    match goal with
    | |- context [json.store v ?x] => destruct (json.store v x)
    end; cbn; try discriminate; intros [= <-];
    destruct j as [|[|[|j]]]; try lia; reflexivity.
Qed.

(** A field that no member selects keeps the value it had. *)
Lemma objectInto_absent j ms e e' :
  (j < 3)%nat -> fieldAbsent j ms ->
  json.objectInto ErrorResponse.names ErrorResponse.setField ms e = Ok e' ->
  field j e' = field j e.
Proof.
  intros Hj. revert e. induction ms as [|[k v] ms IH]; intros e Habs; cbn.
  - now intros [= <-].
  - assert (Hrest : fieldAbsent j ms).
    { intros k' v' Hin. apply (Habs k' v'). now right. }
    assert (Hk : json.findField ErrorResponse.names k <> Some j) by (apply (Habs k v); left).
    destruct (json.findField ErrorResponse.names k) as [i|] eqn:Ef.
    + destruct (ErrorResponse.setField i v e) as [e1|] eqn:Es; cbn; [|discriminate].
      intros Hrec. rewrite (IH e1 Hrest Hrec).
      apply (setField_other i j v e e1);
        first [ assumption | apply (findField_lt _ _ _ Ef) | congruence ].
    + now apply IH.
Qed.

Lemma json_is_null (v : json.value) : v = json.Null \/ v <> json.Null.
Proof. destruct v; (now left) || (right; discriminate). Qed.

(** ** The two branches of [sendRequest] *)

Lemma ok_true code :
  is2xx code -> (200 <=? code) && (code <? 300) = true.
Proof. unfold is2xx. intros. apply andb_true_iff. lia. Qed.

Lemma ok_false code :
  ~ is2xx code -> (200 <=? code) && (code <? 300) = false.
Proof. unfold is2xx. intros. apply andb_false_iff. lia. Qed.

(** Outside [200, 300) the outcome is the decoding of the body into a fresh
    [ErrorResponse]. *)
Lemma sendRequest_rejected {T} `{json.Unmarshaler T}
    (c : client) (req : Request.t) (successValue : option T) (res : Response.t) :
  HttpClient c (Header_Set "apikey" (ApiKey c) req) = Ok res ->
  ~ is2xx (Response.StatusCode res) ->
  (sendRequest c req successValue).1
  = match json.Decode (Response.Body res) (json.zero (T := ErrorResponse.t)) with
    | Err err => Err err
    | Ok e => Ok (AuthResponse.mk (Response.StatusCode res) (ErrorValue e))
    end.
Proof.
  intros Hdo Hcode. unfold sendRequest. rewrite Hdo.
  cbn [fst]. now rewrite (ok_false _ Hcode).
Qed.

(** Inside [200, 300) the outcome depends on the status and on the success
    value only. *)
Lemma sendRequest_accepted {T} `{json.Unmarshaler T}
    (c : client) (req : Request.t) (successValue : option T) (res : Response.t) :
  HttpClient c (Header_Set "apikey" (ApiKey c) req) = Ok res ->
  is2xx (Response.StatusCode res) ->
  (sendRequest c req successValue).1
  = match negb (Response.StatusCode res =? StatusNoContent), successValue with
    | true, Some sv =>
      match json.DecodeInterface (Response.Body res) sv with
      | Err err => Err err
      | Ok sv' => Ok (AuthResponse.mk (Response.StatusCode res) (dataOf sv'))
      end
    | _, _ => Ok (AuthResponse.mk (Response.StatusCode res) Nil)
    end.
Proof.
  intros Hdo Hcode. unfold sendRequest. rewrite Hdo.
  cbn [fst]. now rewrite (ok_true _ Hcode).
Qed.

(** A success value passed by value: the data is what the body decodes to
    as a generic value, or the call fails on a number beyond [float64]. *)
Lemma sendRequest_by_value
    (c : client) (req : Request.t) (res : Response.t)
    (v : json.value) (rest : string) :
  HttpClient c (Header_Set "apikey" (ApiKey c) req) = Ok res ->
  is2xx (Response.StatusCode res) ->
  Response.StatusCode res <> StatusNoContent ->
  json.scanNext (Response.Body res) = Ok (v, rest) ->
  v <> json.Null ->
  (sendRequest c req byValue).1
  = match json.anyInto v with
    | Ok v' => Ok (AuthResponse.mk (Response.StatusCode res) (SuccessValue v'))
    | Err err => Err err
    end.
Proof.
  intros Hdo Hcode H204 Hscan Hv.
  rewrite (sendRequest_accepted c req byValue res Hdo Hcode).
  apply Z.eqb_neq in H204. rewrite H204. cbn [negb byValue].
  unfold json.DecodeInterface. rewrite Hscan. unfold mbind, result_bind.
  destruct v; try congruence; cbn [json.store any_unmarshaler];
    now destruct (json.anyInto _).
Qed.

(** ** Claims about [sendRequest] *)

(** C1. A response with a status outside [200, 300) whose body decodes into
    the error shape is a valid outcome: [sendRequest] returns the envelope
    (nil error) with the response's status and the decoded [ErrorResponse]
    as data; when the body is an object with the members [code],
    [error_code] and [msg] (in any order), the fields [Status],
    [ErrorCode] and [Message] hold their values. *)
Theorem sendRequest_non2xx_error_shape {T} `{json.Unmarshaler T}
    (c : client) (req : Request.t) (successValue : option T) (res : Response.t) :
  HttpClient c (Header_Set "apikey" (ApiKey c) req) = Ok res ->
  ~ is2xx (Response.StatusCode res) ->
  (forall e,
     json.Decode (Response.Body res) (json.zero (T := ErrorResponse.t)) = Ok e ->
     (sendRequest c req successValue).1
     = Ok (AuthResponse.mk (Response.StatusCode res) (ErrorValue e)))
  /\ (forall ms rest lit n ec m,
        json.scanNext (Response.Body res) = Ok (json.Object ms, rest) ->
        ms ≡ₚ [("code"%string, json.Number lit);
               ("error_code"%string, json.Str ec);
               ("msg"%string, json.Str m)] ->
        json.ParseInt lit = Some n ->
        (sendRequest c req successValue).1
        = Ok (AuthResponse.mk (Response.StatusCode res)
                (ErrorValue (ErrorResponse.mk n ec m)))).
Proof.
  intros Hdo Hcode.
  rewrite (sendRequest_rejected c req successValue res Hdo Hcode).
  split.
  - intros e ->. reflexivity.
  - intros ms rest lit n ec m Hscan Hperm Hn.
    unfold json.Decode. rewrite Hscan. cbn.
    now rewrite (objectInto_error_shape ms lit n ec m _ Hperm Hn).
Qed.

Lemma sendRequest_non2xx_error_shape_witness :
  (sendRequest (testClient (respondWith 400 badRequestBody)) testRequest
               (Some EmptyString)).1
  = Ok (AuthResponse.mk 400
          (ErrorValue (ErrorResponse.mk 400 "used_foo_bar" "Bad Request"))).
Proof.
  refine (proj2 (sendRequest_non2xx_error_shape
                   (testClient (respondWith 400 badRequestBody)) testRequest
                   (Some EmptyString) (Response.mk 400 badRequestBody)
                   eq_refl _)
                _ EmptyString "400"%string 400 _ _ eq_refl _ eq_refl).
  - unfold is2xx. cbn. lia.
  - reflexivity.
Defined.

(** With a status in [200, 300): for 204 or a nil success value the envelope
    has nil data and the body plays no part; otherwise the body is decoded:
    a decoder error is returned with no envelope, the JSON value [null]
    gives an envelope with nil data, and any other value is decoded into the
    success shape, which becomes the data of an envelope carrying the
    response's status. *)
Lemma sendRequest_success_path {T} `{json.Unmarshaler T}
    (c : client) (req : Request.t) (successValue : option T) (res : Response.t) :
  HttpClient c (Header_Set "apikey" (ApiKey c) req) = Ok res ->
  is2xx (Response.StatusCode res) ->
  (Response.StatusCode res = 204 \/ successValue = None ->
     (sendRequest c req successValue).1
     = Ok (AuthResponse.mk (Response.StatusCode res) Nil))
  /\ (forall sv, Response.StatusCode res <> 204 -> successValue = Some sv ->
        (forall err,
           json.scanNext (Response.Body res) = Err err ->
           (sendRequest c req successValue).1 = Err err)
        /\ (forall rest,
              json.scanNext (Response.Body res) = Ok (json.Null, rest) ->
              (sendRequest c req successValue).1
              = Ok (AuthResponse.mk (Response.StatusCode res) Nil))
        /\ (forall v rest,
              json.scanNext (Response.Body res) = Ok (v, rest) ->
              v <> json.Null ->
              (sendRequest c req successValue).1
              = match json.store v sv with
                | Ok sv' =>
                  Ok (AuthResponse.mk (Response.StatusCode res) (SuccessValue sv'))
                | Err err => Err err
                end)).
Proof.
  intros Hdo Hcode.
  rewrite (sendRequest_accepted c req successValue res Hdo Hcode).
  unfold StatusNoContent. split.
  - intros [-> | ->]; [reflexivity|].
    now destruct (negb (Response.StatusCode res =? 204)).
  - intros sv Hne ->.
    apply Z.eqb_neq in Hne. rewrite Hne. cbn [negb].
    unfold json.DecodeInterface. repeat split.
    + intros err ->. reflexivity.
    + intros rest ->. reflexivity.
    + intros v rest -> Hv. cbn [mbind result_bind].
      destruct v; try congruence; now destruct (json.store _ sv).
Qed.

(** The scenarios of the tests: 204 with an empty body, and 200 with the
    body [{"foo": "bar"}] decoded into a generic map. *)
Example sendRequest_success_scenarios :
  (sendRequest (testClient (respondWith 204 EmptyString)) testRequest
               (Some EmptyString)).1
  = Ok (AuthResponse.mk 204 Nil)
  /\ (sendRequest (testClient (respondWith 200 fooBarBody)) testRequest
                  (Some (∅ : gmap string json.value))).1
     = Ok (AuthResponse.mk 200
             (SuccessValue (<["foo"%string := json.Str "bar"]> ∅))).
Proof. split; reflexivity. Qed.

(** C3 holds for every body but one.  The decoder is handed the address of
    the interface variable [successValue], not the pointer it holds, so the
    body [null] sets the variable to nil: with status 200 and a success
    shape given, the envelope comes back with nil data and a nil error,
    where decoding into the shape itself (as the error branch does with its
    own struct) leaves the shape in place. *)
Theorem sendRequest_null_body_clears_data :
  let shape : gmap string json.value := ∅ in
  json.Decode "null" shape = Ok shape
  /\ (sendRequest (testClient (respondWith 200 "null")) testRequest
                  (Some shape)).1
     = Ok (AuthResponse.mk 200 Nil)
  /\ (sendRequest (testClient (respondWith 400 "null")) testRequest
                  (Some shape)).1
     = Ok (AuthResponse.mk 400
             (ErrorValue (ErrorResponse.mk 0 EmptyString EmptyString))).
Proof. repeat split. Qed.

(** C7. When the transport's [Do] returns an error, [sendRequest] returns
    that very error and no envelope; the only transport event is the call
    of [Do]: no body is read, decoded or closed. *)
Theorem sendRequest_transport_error {T} `{json.Unmarshaler T}
    (c : client) (req : Request.t) (successValue : option T) (err : error) :
  HttpClient c (Header_Set "apikey" (ApiKey c) req) = Err err ->
  sendRequest c req successValue
  = (Err err, [EvDo (Header_Set "apikey" (ApiKey c) req)]).
Proof. intros Hdo. unfold sendRequest. now rewrite Hdo. Qed.

Lemma sendRequest_transport_error_witness :
  sendRequest (testClient (failWith "http client error")) testRequest
              (Some EmptyString)
  = (Err (TransportError "http client error"),
     [EvDo (Header_Set "apikey" "abc123" testRequest)]).
Proof.
  exact (sendRequest_transport_error
           (testClient (failWith "http client error")) testRequest
           (Some EmptyString) (TransportError "http client error") eq_refl).
Defined.

(** C2, as the specification words it, fails: with a nil success value and a
    status outside [200, 300) the data is the decoded error shape, not
    nil. *)
Lemma sendRequest_data_absent_counterexample :
  ~ (forall (c : client) (req : Request.t) (successValue : option string)
            (r : AuthResponse.t string),
       (sendRequest c req successValue).1 = Ok r ->
       (AuthResponse.Data r = Nil
        <-> AuthResponse.Status r = 204 \/ successValue = None)).
Proof.
  intros Hclaim.
  pose proof (Hclaim (testClient (respondWith 400 badRequestBody)) testRequest None
                _ eq_refl) as [_ Hnil].
  specialize (Hnil (or_intror eq_refl)). discriminate Hnil.
Qed.

(** C2 (amended). In every envelope that [sendRequest] returns, whether the
    success value is nil, a pointer to a shape or a value that is not a
    pointer, the status is the response's.  For a status outside [200, 300)
    the data is the error shape decoded from the body.  For a status in
    [200, 300) the data is nil when the status is 204 or no success value
    was given.  Otherwise, when the first JSON value of the body (the one
    value the decoder reads) is not [null], the data is the value decoded
    from the body: the shape filled in for a pointer, the generic value for
    a success value that is not a pointer.  So, for a body whose first value
    is not [null], the data is nil exactly when the status is in [200, 300)
    and either is 204 or no success value was given.  What a first value
    [null] leaves in the data of a response in [200, 300) is set apart. *)
Theorem sendRequest_data_invariant {T} `{json.Unmarshaler T}
    (c : client) (req : Request.t) (successValue : option T)
    (r : AuthResponse.t T) :
  (sendRequest c req successValue).1 = Ok r ->
  exists res,
    HttpClient c (Header_Set "apikey" (ApiKey c) req) = Ok res
    /\ AuthResponse.Status r = Response.StatusCode res
    /\ (~ is2xx (AuthResponse.Status r) ->
        exists e, json.Decode (Response.Body res) json.zero = Ok e
                  /\ AuthResponse.Data r = ErrorValue e)
    /\ (is2xx (AuthResponse.Status r) ->
        AuthResponse.Status r = 204 \/ successValue = None ->
        AuthResponse.Data r = Nil)
    /\ ((forall rest, json.scanNext (Response.Body res) <> Ok (json.Null, rest)) ->
        (is2xx (AuthResponse.Status r) -> AuthResponse.Status r <> 204 ->
         forall sv, successValue = Some sv ->
         exists sv', json.Decode (Response.Body res) sv = Ok sv'
                     /\ AuthResponse.Data r = SuccessValue sv')
        /\ (AuthResponse.Data r = Nil
            <-> is2xx (AuthResponse.Status r)
                /\ (AuthResponse.Status r = 204 \/ successValue = None))).
Proof.
  destruct (HttpClient c (Header_Set "apikey" (ApiKey c) req)) as [res|err] eqn:Hdo.
  2: { unfold sendRequest. rewrite Hdo. discriminate. }
  intros Hr. exists res. split; [reflexivity|].
  destruct (Z_le_dec 200 (Response.StatusCode res)) as [Hlo|Hlo];
    [destruct (Z_lt_dec (Response.StatusCode res) 300) as [Hhi|Hhi]|].
  - assert (Hcode : is2xx (Response.StatusCode res)) by (split; assumption).
    rewrite (sendRequest_accepted c req successValue res Hdo Hcode) in Hr.
    unfold StatusNoContent in Hr.
    destruct (Z.eqb_spec (Response.StatusCode res) 204) as [E|E]; cbn in Hr.
    + injection Hr as <-. cbn. repeat split; try tauto; try congruence.
    + destruct successValue as [sv|].
      2: { injection Hr as <-. cbn. repeat split; try tauto; try congruence. }
      unfold json.DecodeInterface in Hr. unfold json.Decode.
      destruct (json.scanNext (Response.Body res)) as [[v rest]|] eqn:Es;
        [|discriminate].
      cbn [mbind result_bind] in *.
      destruct (json_is_null v) as [-> | Hv].
      * injection Hr as <-. cbn.
        repeat split; try tauto; try congruence;
          intros Hnn; now destruct (Hnn rest).
      * assert (Hst : exists sv', json.store v sv = Ok sv'
                                  /\ r = AuthResponse.mk (Response.StatusCode res)
                                           (SuccessValue sv')).
        { destruct v; try congruence;
            (destruct (json.store _ sv) as [sv'|]; [|discriminate]);
            injection Hr as <-; eauto. }
        destruct Hst as (sv' & Hst & ->). clear Hr.
        cbn. repeat split; try tauto; try discriminate.
        -- intros _ [?|?]; congruence.
        -- intros _ _ sv0 [= <-]. eauto.
        -- intros [_ [?|?]]; congruence.
  - assert (Hcode : ~ is2xx (Response.StatusCode res)) by (unfold is2xx; lia).
    rewrite (sendRequest_rejected c req successValue res Hdo Hcode) in Hr.
    destruct (json.Decode (Response.Body res) json.zero) as [e|] eqn:Ed;
      [|discriminate].
    injection Hr as <-. cbn. repeat split; try tauto; try congruence; eauto.
  - assert (Hcode : ~ is2xx (Response.StatusCode res)) by (unfold is2xx; lia).
    rewrite (sendRequest_rejected c req successValue res Hdo Hcode) in Hr.
    destruct (json.Decode (Response.Body res) json.zero) as [e|] eqn:Ed;
      [|discriminate].
    injection Hr as <-. cbn. repeat split; try tauto; try congruence; eauto.
Qed.

Lemma sendRequest_data_invariant_witness :
  let c := testClient (respondWith 200 fooBarBody) in
  let r := AuthResponse.mk 200
             (SuccessValue (json.Object [("foo"%string, json.Str "bar")])) in
  (sendRequest c testRequest byValue).1 = Ok r
  /\ exists res,
    HttpClient c (Header_Set "apikey" (ApiKey c) testRequest) = Ok res
    /\ AuthResponse.Status r = Response.StatusCode res
    /\ (~ is2xx (AuthResponse.Status r) ->
        exists e, json.Decode (Response.Body res) json.zero = Ok e
                  /\ AuthResponse.Data r = ErrorValue e)
    /\ (is2xx (AuthResponse.Status r) ->
        AuthResponse.Status r = 204 \/ byValue = None ->
        AuthResponse.Data r = Nil)
    /\ ((forall rest, json.scanNext (Response.Body res) <> Ok (json.Null, rest)) ->
        (is2xx (AuthResponse.Status r) -> AuthResponse.Status r <> 204 ->
         forall sv, byValue = Some sv ->
         exists sv', json.Decode (Response.Body res) sv = Ok sv'
                     /\ AuthResponse.Data r = SuccessValue sv')
        /\ (AuthResponse.Data r = Nil
            <-> is2xx (AuthResponse.Status r)
                /\ (AuthResponse.Status r = 204 \/ byValue = None))).
Proof.
  split; [reflexivity|].
  exact (sendRequest_data_invariant
           (testClient (respondWith 200 fooBarBody)) testRequest byValue _
           eq_refl).
Defined.

(** C4, as the specification words it, fails twice over.  A 204 response
    is never decoded, so its body may be anything (the tests send an empty
    one); and the decoder reads one value from the head of the body, so
    bytes after a well-formed first value go unexamined. *)
Lemma sendRequest_invalid_body_counterexample :
  (json.scanWhole EmptyString = Err ErrSyntaxEnd
   /\ (sendRequest (testClient (respondWith 204 EmptyString)) testRequest
                   (Some EmptyString)).1
      = Ok (AuthResponse.mk 204 Nil))
  /\ (json.scanWhole "{} !" = Err (SyntaxError "!" "after top-level value")
      /\ (sendRequest (testClient (respondWith 400 "{} !")) testRequest
                      (Some EmptyString)).1
         = Ok (AuthResponse.mk 400
                 (ErrorValue (ErrorResponse.mk 0 EmptyString EmptyString)))).
Proof. repeat split. Qed.

(** C4 (amended). When the body is decoded at all, that is for a status
    outside [200, 300), or for a status in [200, 300) other than 204 with a
    success value given, and the decoder cannot read a well-formed JSON
    value from the head of the body, [sendRequest] returns the decoder's
    error and no envelope. *)
Theorem sendRequest_invalid_body {T} `{json.Unmarshaler T}
    (c : client) (req : Request.t) (successValue : option T) (res : Response.t)
    (err : error) :
  HttpClient c (Header_Set "apikey" (ApiKey c) req) = Ok res ->
  json.scanNext (Response.Body res) = Err err ->
  ~ is2xx (Response.StatusCode res)
  \/ (Response.StatusCode res <> 204 /\ successValue <> None) ->
  (sendRequest c req successValue).1 = Err err.
Proof.
  intros Hdo Hscan Hcase.
  destruct (Z_le_dec 200 (Response.StatusCode res)) as [Hlo|Hlo];
    [destruct (Z_lt_dec (Response.StatusCode res) 300) as [Hhi|Hhi]|].
  - assert (Hcode : is2xx (Response.StatusCode res)) by (split; assumption).
    destruct Hcase as [Hn|[Hne Hsv]]; [contradiction|].
    rewrite (sendRequest_accepted c req successValue res Hdo Hcode).
    unfold StatusNoContent. apply Z.eqb_neq in Hne. rewrite Hne.
    destruct successValue as [sv|]; [|congruence].
    cbn. unfold json.DecodeInterface. now rewrite Hscan.
  - rewrite (sendRequest_rejected c req successValue res Hdo);
      [|unfold is2xx; lia].
    unfold json.Decode. now rewrite Hscan.
  - rewrite (sendRequest_rejected c req successValue res Hdo);
      [|unfold is2xx; lia].
    unfold json.Decode. now rewrite Hscan.
Qed.

Lemma sendRequest_invalid_body_witness :
  (sendRequest (testClient (respondWith 400 "!")) testRequest
               (Some EmptyString)).1
  = Err (SyntaxError "!" "looking for beginning of value")
  /\ (sendRequest (testClient (respondWith 200 "!")) testRequest
                  (Some EmptyString)).1
     = Err (SyntaxError "!" "looking for beginning of value").
Proof.
  split.
  - refine (sendRequest_invalid_body
              (testClient (respondWith 400 "!")) testRequest (Some EmptyString)
              (Response.mk 400 "!") _ eq_refl eq_refl (or_introl _)).
    unfold is2xx. cbn. lia.
  - refine (sendRequest_invalid_body
              (testClient (respondWith 200 "!")) testRequest (Some EmptyString)
              (Response.mk 200 "!") _ eq_refl eq_refl
              (or_intror (conj _ _))); cbn; [lia|discriminate].
Defined.

(** C10. No member of the error shape is required.  For a status outside
    [200, 300): a body [null], and an object none of whose members selects
    a field (such as [{}]), give the envelope with an all-zero
    [ErrorResponse] and a nil error; and whenever an object decodes, every
    field that no member selects holds its zero value. *)
Theorem sendRequest_error_shape_zero_values {T} `{json.Unmarshaler T}
    (c : client) (req : Request.t) (successValue : option T) (res : Response.t) :
  HttpClient c (Header_Set "apikey" (ApiKey c) req) = Ok res ->
  ~ is2xx (Response.StatusCode res) ->
  (forall rest,
     json.scanNext (Response.Body res) = Ok (json.Null, rest) ->
     (sendRequest c req successValue).1
     = Ok (AuthResponse.mk (Response.StatusCode res)
             (ErrorValue (ErrorResponse.mk 0 EmptyString EmptyString))))
  /\ (forall ms rest,
        json.scanNext (Response.Body res) = Ok (json.Object ms, rest) ->
        (forall k v, (k, v) ∈ ms -> json.findField ErrorResponse.names k = None) ->
        (sendRequest c req successValue).1
        = Ok (AuthResponse.mk (Response.StatusCode res)
                (ErrorValue (ErrorResponse.mk 0 EmptyString EmptyString))))
  /\ (forall ms rest e,
        json.scanNext (Response.Body res) = Ok (json.Object ms, rest) ->
        json.Decode (Response.Body res) (json.zero (T := ErrorResponse.t)) = Ok e ->
        (sendRequest c req successValue).1
        = Ok (AuthResponse.mk (Response.StatusCode res) (ErrorValue e))
        /\ (fieldAbsent 0 ms -> ErrorResponse.Status e = 0)
        /\ (fieldAbsent 1 ms -> ErrorResponse.ErrorCode e = EmptyString)
        /\ (fieldAbsent 2 ms -> ErrorResponse.Message e = EmptyString)).
Proof.
  intros Hdo Hcode.
  rewrite (sendRequest_rejected c req successValue res Hdo Hcode).
  unfold json.Decode. split; [|split].
  - intros rest Hscan. now rewrite Hscan.
  - intros ms rest Hscan Hnone. rewrite Hscan. cbn.
    assert (Hall : forall e0, json.objectInto ErrorResponse.names
                     ErrorResponse.setField ms e0 = Ok e0).
    { clear Hscan. induction ms as [|[k v] ms IH]; intros e0; [reflexivity|].
      cbn. rewrite (Hnone k v) by now left.
      apply IH. intros k' v' Hin. apply (Hnone k' v'). now right. }
    now rewrite Hall.
  - intros ms rest e Hscan Hdec. rewrite Hscan in Hdec |- *.
    cbn in Hdec |- *. rewrite Hdec. split; [reflexivity|].
    repeat split; intros Habs.
    + pose proof (objectInto_absent 0 ms _ e ltac:(lia) Habs Hdec) as Hf.
      cbn in Hf. congruence.
    + pose proof (objectInto_absent 1 ms _ e ltac:(lia) Habs Hdec) as Hf.
      cbn in Hf. congruence.
    + pose proof (objectInto_absent 2 ms _ e ltac:(lia) Habs Hdec) as Hf.
      cbn in Hf. congruence.
Qed.

Lemma sendRequest_error_shape_zero_values_witness :
  (sendRequest (testClient (respondWith 400 "null")) testRequest
               (Some EmptyString)).1
  = Ok (AuthResponse.mk 400
          (ErrorValue (ErrorResponse.mk 0 EmptyString EmptyString)))
  /\ (sendRequest (testClient (respondWith 500 "{}")) testRequest
                  (Some EmptyString)).1
     = Ok (AuthResponse.mk 500
             (ErrorValue (ErrorResponse.mk 0 EmptyString EmptyString)))
  /\ (sendRequest (testClient (respondWith 404 errorKeyBody))
                  testRequest (Some EmptyString)).1
     = Ok (AuthResponse.mk 404
             (ErrorValue (ErrorResponse.mk 0 EmptyString EmptyString))).
Proof.
  split; [|split].
  - refine (proj1 (sendRequest_error_shape_zero_values
                     (testClient (respondWith 400 "null")) testRequest
                     (Some EmptyString) (Response.mk 400 "null") eq_refl _)
                  EmptyString eq_refl).
    unfold is2xx. cbn. lia.
  - refine (proj1 (proj2 (sendRequest_error_shape_zero_values
                     (testClient (respondWith 500 "{}")) testRequest
                     (Some EmptyString) (Response.mk 500 "{}") eq_refl _))
                  [] EmptyString eq_refl _).
    + unfold is2xx. cbn. lia.
    + intros k v Hin. inversion Hin.
  - refine (proj1 (proj2 (sendRequest_error_shape_zero_values
                     (testClient (respondWith 404 errorKeyBody))
                     testRequest (Some EmptyString)
                     (Response.mk 404 errorKeyBody) eq_refl _))
                  [("error"%string, json.Str "Bad request")] EmptyString eq_refl _).
    + unfold is2xx. cbn. lia.
    + intros k v Hin. apply list_elem_of_singleton in Hin.
      injection Hin as -> ->. reflexivity.
Defined.

(** ** Claims about [createRequest] *)

(** C5. On a client whose base URL is empty, [createRequest] fails with
    the error "supabase api url is empty" whatever the method, endpoint and
    payload, and returns no request; [createAndSendRequest] then returns the
    same error without any transport event. *)
Theorem createRequest_empty_base_url {P T} `{URLParser} `{json.Marshaler P}
    `{json.Unmarshaler T}
    (apiKey : string) (httpClient : Request.t -> result Response.t)
    (method endpoint : string) (data : option P) (successValue : option T) :
  createRequest (mkClient EmptyString apiKey httpClient) method endpoint data
  = Err ErrEmptyURL
  /\ errorString ErrEmptyURL = "supabase api url is empty"%string
  /\ createAndSendRequest (mkClient EmptyString apiKey httpClient)
       method endpoint data successValue
     = (Err ErrEmptyURL, []).
Proof. repeat split. Qed.

(** C6, as the specification words it, fails: the payload is serialized,
    and the method checked, before the URL is parsed, so with a payload
    that [Marshal] refuses, [createRequest] reports the serialization
    error although the composed URL is invalid. *)
Lemma createRequest_invalid_url_counterexample :
  let c := mkClient ("http://local" +:+ String (chr 9) "host") "abc123"
                    (respondWith 200 "{}") in
  let reqUrl := (BaseUrl c +:+ "/test")%string in
  @url_Parse ctlCheckParser reqUrl = Err (URLParseError reqUrl)
  /\ @createRequest ctlCheckParser _ _ c "GET" "test" (Some make_chan_int)
     = Err (UnsupportedTypeError "chan int")
  /\ @createRequest ctlCheckParser _ _ c "GET POST" "test" (None : option string)
     = Err (InvalidMethodError "GET POST").
Proof. repeat split. Qed.

(** C6 (amended). On a client with a non-empty base URL, for a payload that
    [Marshal] accepts and a method that is empty or a token, [createRequest]
    hands to the URL parser the base URL itself when the endpoint is empty
    and the base URL, a slash and the endpoint otherwise; it fails exactly
    when the parser rejects that string, with the parser's error, and
    otherwise returns a request for the parsed URL with the serialized
    payload as body. *)
Theorem createRequest_url `{URLParser} {P} `{json.Marshaler P}
    (c : client) (method endpoint : string) (data : option P) (reqBody : string) :
  BaseUrl c <> EmptyString ->
  json.MarshalAny data = Ok reqBody ->
  validMethod (if String.eqb method EmptyString then "GET" else method) = true ->
  let reqUrl :=
    if String.eqb endpoint EmptyString then BaseUrl c
    else (BaseUrl c +:+ "/" +:+ endpoint)%string in
  (forall err, createRequest c method endpoint data = Err err
               <-> url_Parse reqUrl = Err err)
  /\ (forall u, url_Parse reqUrl = Ok u ->
        exists req, createRequest c method endpoint data = Ok req
                    /\ Request.URL req = u
                    /\ Request.Body req = reqBody).
Proof.
  intros Hbase Hbody Hmethod reqUrl.
  unfold createRequest.
  destruct (String.eqb_spec (BaseUrl c) EmptyString) as [E|_]; [contradiction|].
  rewrite Hbody. unfold NewRequestWithContext. rewrite Hmethod. cbn [negb].
  replace (if negb (String.eqb endpoint EmptyString)
           then (BaseUrl c +:+ "/" +:+ endpoint)%string else BaseUrl c)
    with reqUrl by (subst reqUrl; now destruct (String.eqb endpoint EmptyString)).
  destruct (url_Parse reqUrl) as [u|e]; cbn; split.
  - intros err. split; discriminate.
  - intros u' [= <-]. eexists. split; [reflexivity|]. split; reflexivity.
  - intros err. split; intros [= <-]; reflexivity.
  - intros u' [=].
Qed.

Lemma createRequest_url_witness :
  (forall err,
     @createRequest ctlCheckParser _ _ (testClient (respondWith 200 "{}"))
        "GET" "test" (None : option string) = Err err
     <-> @url_Parse ctlCheckParser "http://localhost/test" = Err err)
  /\ (forall u, @url_Parse ctlCheckParser "http://localhost/test" = Ok u ->
        exists req,
          @createRequest ctlCheckParser _ _ (testClient (respondWith 200 "{}"))
             "GET" "test" (None : option string) = Ok req
          /\ Request.URL req = u
          /\ Request.Body req = "null"%string).
Proof.
  refine (@createRequest_url ctlCheckParser _ _
            (testClient (respondWith 200 "{}")) "GET" "test" None "null"
            _ eq_refl eq_refl).
  discriminate.
Defined.

Lemma string_take_drop k s :
  json.string_take k s +:+ utf8.string_drop k s = s.
Proof.
  revert s. induction k as [|k IH]; intros s; [reflexivity|].
  destruct s as [|c s]; [reflexivity|].
  cbn [json.string_take utf8.string_drop]. push_append. now rewrite IH.
Qed.

(** A Go string that is valid UTF-8 is read back as it is. *)
Lemma coerceUTF8_valid n : forall s,
  utf8.validFuel n s = true -> coerceUTF8 n s = s.
Proof.
  induction n as [|n IH]; intros s Hv.
  - destruct s; [reflexivity|discriminate Hv].
  - destruct s as [|c r]; [reflexivity|].
    cbn [utf8.validFuel coerceUTF8] in *.
    destruct (byte c <? utf8.RuneSelf) eqn:E0.
    + now rewrite IH.
    + destruct (utf8.DecodeRune (String c r)) as [rr size] eqn:Hdec.
      destruct (DecodeRune_inv c r rr size E0 Hdec)
        as [[-> ->] | [(-> & _) | [(-> & _) | (-> & _)]]];
        try discriminate Hv;
        (replace ((rr =? utf8.RuneError) && (_ =? 1)%nat) with false
           by (symmetry; apply andb_false_iff; now right));
        rewrite IH by exact Hv; apply string_take_drop.
Qed.

Lemma coerceUTF8_ValidString s :
  utf8.ValidString s = true -> coerceUTF8 (String.length s) s = s.
Proof. apply coerceUTF8_valid. Qed.

Lemma quoted_append body rest :
  quoted body +:+ rest = String dquote (body +:+ String dquote rest).
Proof. unfold quoted. push_append. now rewrite append_assoc. Qed.

Lemma readStringLit_literal s rest :
  json.readStringLit
    (json.appendStringBody (String.length s) s +:+ String dquote rest)
  = Ok (coerceUTF8 (String.length s) s, rest).
Proof.
  unfold json.readStringLit.
  apply readString_appendStringBody; [lia|].
  rewrite length_append. cbn [String.length]. lia.
Qed.

(** A string literal, where a value is expected. *)
Lemma readValue_string n depth s rest :
  json.readValue (S n) depth (json.appendString s +:+ rest)
  = Ok (json.Str (coerceUTF8 (String.length s) s), rest).
Proof.
  unfold json.appendString. rewrite quoted_append.
  cbn [json.readValue]. 
  change (json.skipSpace (String dquote ?x)) with (String dquote x).
  cbn [json.skipSpace].
  change (dquote =? "{")%char with false.
  change (dquote =? "[")%char with false.
  change (dquote =? dquote)%char with true.
  cbv iota. now rewrite readStringLit_literal.
Qed.

Lemma readMembers_key n depth k tail :
  json.readMembers (S n) depth (json.appendString k +:+ String ":" tail)
  = '(v, r3) ← json.readValue n depth tail;
    match json.skipSpace r3 with
    | EmptyString => Err ErrUnexpectedEOF
    | String d r4 =>
      if (d =? ",")%char then
        '(ms, rest) ← json.readMembers n depth r4;
        Ok ((coerceUTF8 (String.length k) k, v) :: ms, rest)
      else if (d =? "}")%char then Ok ([(coerceUTF8 (String.length k) k, v)], r4)
      else Err (SyntaxError d "after object key:value pair")
    end.
Proof.
  unfold json.appendString. rewrite quoted_append.
  cbn [json.readMembers].
  change (json.skipSpace (String dquote ?x)) with (String dquote x).
  change (dquote =? dquote)%char with true. cbv iota.
  rewrite readStringLit_literal. reflexivity.
Qed.

Lemma readMembers_last n depth k v rest :
  json.readMembers (S (S n)) depth
    (json.appendString k +:+ ":" +:+ json.appendString v +:+ String "}" rest)
  = Ok ([readBack (k, v)], rest).
Proof.
  change (":" +:+ ?x)%string with (String ":" x).
  rewrite readMembers_key, readValue_string. reflexivity.
Qed.

Lemma readMembers_more n depth k v rest :
  json.readMembers (S (S n)) depth
    (json.appendString k +:+ ":" +:+ json.appendString v +:+ String "," rest)
  = '(ms, r) ← json.readMembers (S n) depth rest; Ok (readBack (k, v) :: ms, r).
Proof.
  change (":" +:+ ?x)%string with (String ":" x).
  rewrite readMembers_key, readValue_string. reflexivity.
Qed.

Lemma readMembers_entries l : forall n depth rest,
  l <> [] -> (length l <= n)%nat ->
  json.readMembers (S n) depth (json.appendEntries l +:+ String "}" rest)
  = Ok (map readBack l, rest).
Proof.
  induction l as [|[k v] l IH]; intros n depth rest Hne Hn; [congruence|].
  destruct n as [|n]; [cbn in Hn; lia|].
  destruct l as [|kv' l].
  - cbn [json.appendEntries]. rewrite !append_assoc.
    apply readMembers_last.
  - cbn [json.appendEntries] in *. destruct kv' as [k' v'].
    rewrite !append_assoc.
    change ("," +:+ ?x)%string with (String "," x).
    rewrite readMembers_more.
    rewrite IH by (try discriminate; cbn in Hn |- *; lia).
    reflexivity.
Qed.

Lemma append_nil_r s : s +:+ EmptyString = s.
Proof. induction s as [|c s IH]; [reflexivity|]. now rewrite append_String, IH. Qed.

Lemma appendString_head s : exists x, json.appendString s = String dquote x.
Proof. unfold json.appendString, quoted. eauto. Qed.

Lemma appendEntries_head l :
  l <> [] -> exists x, json.appendEntries l = String dquote x.
Proof.
  destruct l as [|[k v] l]; [congruence|]. intros _.
  destruct (appendString_head k) as [x Hx].
  destruct l; cbn [json.appendEntries]; rewrite Hx; push_append; eauto.
Qed.

Lemma length_appendEntries l :
  (length l <= String.length (json.appendEntries l))%nat.
Proof.
  induction l as [|[k v] l IH]; [cbn; lia|].
  destruct (appendString_head k) as [x Hx].
  assert (Hy : exists y, json.appendEntries ((k, v) :: l)
                         = String dquote (y +:+ json.appendEntries l)).
  { destruct l as [|kv l].
    - exists (x +:+ ":" +:+ json.appendString v)%string.
      cbn [json.appendEntries]. rewrite Hx. push_append.
      rewrite ?append_nil_r. norm_append. reflexivity.
    - exists (x +:+ ":" +:+ json.appendString v +:+ ",")%string.
      change (json.appendEntries ((k, v) :: kv :: l))
        with (json.appendString k +:+ ":" +:+ json.appendString v +:+ ","
              +:+ json.appendEntries (kv :: l))%string.
      rewrite Hx. norm_append. reflexivity. }
  destruct Hy as [y ->].
  cbn [String.length length]. rewrite length_append. lia.
Qed.

(** The text [Marshal] writes for a non-empty list of members is scanned as
    the object of these members, read back. *)
Lemma scanWhole_entries l :
  l <> [] ->
  json.scanWhole ("{" +:+ json.appendEntries l +:+ "}")
  = Ok (json.Object (map readBack l)).
Proof.
  intros Hne. unfold json.scanWhole, json.fuelFor. push_append.
  pose proof (length_appendEntries l) as Hlen.
  assert (Hfuel : exists n,
            (2 * String.length (String "{" (json.appendEntries l +:+ "}")))%nat
            = S n /\ (length l <= n)%nat).
  { cbn [String.length]. rewrite length_append.
    exists (S (2 * (String.length (json.appendEntries l)
                    + String.length "}")))%nat.
    split; lia. }
  destruct Hfuel as (n & -> & Hn).
  change (json.skipSpace (String "{" ?x)) with (String "{" x).
  cbv iota. cbn [json.readValue].
  change (json.skipSpace (String "{" ?x)) with (String "{" x).
  cbv iota.
  change ("{" =? "{")%char with true. cbv iota.
  change (json.maxNestingDepth <? 0 + 1) with false. cbv iota.
  destruct (appendEntries_head l Hne) as [x Hx].
  assert (Hcl : json.closes "}" (json.appendEntries l +:+ "}") = None)
    by (rewrite Hx; reflexivity).
  rewrite Hcl, readMembers_entries by assumption.
  reflexivity.
Qed.

Lemma scanWhole_string s :
  json.scanWhole (json.appendString s)
  = Ok (json.Str (coerceUTF8 (String.length s) s)).
Proof.
  pose proof (readValue_string (2 * String.length (json.appendString s)) 0 s
                EmptyString) as Hrd.
  rewrite append_nil_r in Hrd.
  unfold json.scanWhole, json.fuelFor. rewrite Hrd.
  destruct (appendString_head s) as [x ->].
  reflexivity.
Qed.

(** ** Decoding what [Marshal] wrote *)

Lemma Unmarshal_string s old :
  json.Unmarshal (json.appendString s) old
  = Ok (coerceUTF8 (String.length s) s).
Proof. unfold json.Unmarshal. now rewrite scanWhole_string. Qed.

Lemma Marshal_credentials_entries (c : UserCredentials.t) :
  json.Marshal c
  = Ok ("{" +:+ json.appendEntries
                  [("Email"%string, UserCredentials.Email c);
                   ("Password"%string, UserCredentials.Password c)]
        +:+ "}")%string.
Proof. reflexivity. Qed.

Lemma Unmarshal_credentials (c old : UserCredentials.t) body :
  json.Marshal c = Ok body ->
  json.Unmarshal body old
  = Ok (UserCredentials.mk
          (coerceUTF8 (String.length (UserCredentials.Email c))
                      (UserCredentials.Email c))
          (coerceUTF8 (String.length (UserCredentials.Password c))
                      (UserCredentials.Password c))).
Proof.
  rewrite Marshal_credentials_entries. intros Hm.
  apply (f_equal (fun r => match r with Ok b => b | Err _ => EmptyString end))
    in Hm. subst body.
  unfold json.Unmarshal. rewrite scanWhole_entries by discriminate.
  reflexivity.
Qed.

Lemma objectIntoMap_strings l : forall m0,
  objectIntoMap (map (fun kv : string * string => (kv.1, json.Str kv.2)) l) m0
  = Ok (foldl (fun m kv => <[kv.1 := kv.2]> m) m0 l).
Proof.
  induction l as [|[k v] l IH]; intros m0; [reflexivity|].
  cbn. apply IH.
Qed.

Lemma foldl_insert_list_to_map (l : list (string * string)) :
  forall m0 : gmap string string,
  NoDup l.*1 ->
  foldl (fun m kv => <[kv.1 := kv.2]> m) m0 l = list_to_map l ∪ m0.
Proof.
  induction l as [|[k v] l IH]; intros m0 Hnd.
  - cbn. now rewrite (left_id_L ∅ (∪)).
  - rewrite fmap_cons in Hnd. apply NoDup_cons in Hnd as [Hk Hnd].
    cbn [foldl list_to_map foldr fst snd]. rewrite IH by exact Hnd.
    rewrite <- insert_union_l. symmetry.
    apply insert_union_r. now apply not_elem_of_list_to_map_1.
Qed.

Lemma foldl_insert_sortedEntries (m : gmap string string) :
  foldl (fun acc kv => <[kv.1 := kv.2]> acc) ∅ (json.sortedEntries m) = m.
Proof.
  assert (Hp : json.sortedEntries m ≡ₚ map_to_list m)
    by apply merge_sort_Permutation.
  assert (Hnd : NoDup (json.sortedEntries m).*1).
  { rewrite Hp. apply NoDup_fst_map_to_list. }
  rewrite foldl_insert_list_to_map by exact Hnd.
  rewrite (right_id_L ∅ (∪)).
  rewrite (list_to_map_proper _ _ Hnd Hp).
  apply list_to_map_to_list.
Qed.

Lemma readBack_valid (l : list (string * string)) :
  Forall (fun kv => validEntry kv.1 kv.2) l ->
  map readBack l = map (fun kv : string * string => (kv.1, json.Str kv.2)) l.
Proof.
  induction 1 as [|[k v] l [Hk Hv] _ IH]; [reflexivity|].
  cbn [map]. rewrite IH. unfold readBack. cbn [fst snd] in *.
  now rewrite (coerceUTF8_ValidString k Hk), (coerceUTF8_ValidString v Hv).
Qed.

Lemma Unmarshal_map (m : gmap string string) body :
  map_Forall validEntry m ->
  json.Marshal m = Ok body ->
  json.Unmarshal body (∅ : gmap string string) = Ok m.
Proof.
  intros Hvalid Hm.
  apply (f_equal (fun r => match r with Ok b => b | Err _ => EmptyString end))
    in Hm. cbn in Hm. subst body.
  assert (Hp : json.sortedEntries m ≡ₚ map_to_list m)
    by apply merge_sort_Permutation.
  destruct (json.sortedEntries m) as [|kv l] eqn:El.
  - symmetry in Hp. apply Permutation_nil_r in Hp.
    apply map_to_list_empty_iff in Hp. subst m. reflexivity.
  - rewrite <- El in *. unfold json.Unmarshal.
    rewrite scanWhole_entries by (rewrite El; discriminate).
    cbn [mbind result_bind json.store map_unmarshaler].
    rewrite readBack_valid.
    + rewrite objectIntoMap_strings. f_equal. apply foldl_insert_sortedEntries.
    + rewrite Hp. apply map_Forall_to_list in Hvalid.
      eapply Forall_impl; [exact Hvalid|]. now intros [k v].
Qed.

(** The body of the request [createRequest] returns is the payload as
    [Marshal] wrote it. *)
Lemma createRequest_body `{URLParser} {P} `{json.Marshaler P}
    (c : client) (method endpoint : string) (data : option P) (req : Request.t) :
  createRequest c method endpoint data = Ok req ->
  json.MarshalAny data = Ok (Request.Body req).
Proof.
  unfold createRequest.
  destruct (String.eqb (BaseUrl c) EmptyString); [discriminate|].
  destruct (json.MarshalAny data) as [body|]; [|discriminate].
  unfold NewRequestWithContext.
  destruct (negb _); [discriminate|].
  destruct (url_Parse _); [|discriminate].
  now intros [= <-].
Qed.

(** C8, as the specification words it, fails: [Marshal] coerces a Go
    string to valid UTF-8, so a payload holding a byte that is no UTF-8 (here
    the single byte 255) is read back with U+FFFD in its place. *)
Lemma createRequest_body_roundtrip_counterexample :
  let p := String (chr 255) EmptyString in
  let c := testClient (respondWith 200 "{}") in
  (exists req,
     @createRequest ctlCheckParser _ _ c MethodPost "signup" (Some p) = Ok req
     /\ json.Unmarshal (Request.Body req) EmptyString
        = Ok (utf8.EncodeRune utf8.RuneError)
     /\ utf8.EncodeRune utf8.RuneError <> p)
  /\ (exists req,
        @createRequest ctlCheckParser _ _ c MethodPost "signup"
           (Some (UserCredentials.mk p "secret")) = Ok req
        /\ json.Unmarshal (Request.Body req) (UserCredentials.mk "" "")
           = Ok (UserCredentials.mk (utf8.EncodeRune utf8.RuneError) "secret")).
Proof.
  split.
  - eexists. split; [reflexivity|]. split; [reflexivity|]. discriminate.
  - eexists. split; reflexivity.
Qed.

(** C8 (amended). For a payload of one of the kinds the client is given
    (nil, a string, [UserCredentials], a [map[string]string]) whose strings
    are valid UTF-8, the body of the request [createRequest] returns,
    deserialized into the payload's type, is the payload. *)
Theorem createRequest_body_roundtrip `{URLParser}
    (c : client) (method endpoint : string) (req : Request.t) :
  (createRequest c method endpoint (None : option string) = Ok req ->
   json.Unmarshal (Request.Body req) (json.zero (T := json.value)) = Ok json.Null)
  /\ (forall (s old : string),
        createRequest c method endpoint (Some s) = Ok req ->
        utf8.ValidString s = true ->
        json.Unmarshal (Request.Body req) old = Ok s)
  /\ (forall (credentials old : UserCredentials.t),
        createRequest c method endpoint (Some credentials) = Ok req ->
        utf8.ValidString (UserCredentials.Email credentials) = true ->
        utf8.ValidString (UserCredentials.Password credentials) = true ->
        json.Unmarshal (Request.Body req) old = Ok credentials)
  /\ (forall (m : gmap string string),
        createRequest c method endpoint (Some m) = Ok req ->
        map_Forall validEntry m ->
        json.Unmarshal (Request.Body req) (∅ : gmap string string) = Ok m).
Proof.
  repeat split.
  - intros Hreq. apply createRequest_body in Hreq.
    injection Hreq as <-. reflexivity.
  - intros s old Hreq Hs. apply createRequest_body in Hreq.
    cbn in Hreq. injection Hreq as <-.
    rewrite Unmarshal_string. now rewrite coerceUTF8_ValidString.
  - intros credentials old Hreq He Hp. apply createRequest_body in Hreq.
    rewrite (Unmarshal_credentials credentials old _ Hreq).
    rewrite (coerceUTF8_ValidString _ He), (coerceUTF8_ValidString _ Hp).
    now destruct credentials.
  - intros m Hreq Hm. apply createRequest_body in Hreq.
    now apply Unmarshal_map.
Qed.

Lemma createRequest_body_roundtrip_witness :
  let c := testClient (respondWith 200 "{}") in
  let credentials := UserCredentials.mk "user@example.com" "p<w>&d" in
  exists req,
    @createRequest ctlCheckParser _ _ c MethodPost "signup" (Some credentials)
    = Ok req
    /\ json.Unmarshal (Request.Body req) (UserCredentials.mk "" "")
       = Ok credentials.
Proof.
  eexists. split; [reflexivity|].
  refine (proj1 (proj2 (proj2 (@createRequest_body_roundtrip ctlCheckParser
            (testClient (respondWith 200 "{}")) MethodPost "signup" _)))
            (UserCredentials.mk "user@example.com" "p<w>&d")
            (UserCredentials.mk "" "") eq_refl eq_refl eq_refl).
Defined.

(** ** Claims about the facade *)

(** The body of every request that [createAndSendRequest] hands to the
    transport is the serialized payload. *)
Lemma createAndSendRequest_body `{URLParser} {P T} `{json.Marshaler P}
    `{json.Unmarshaler T}
    (c : client) (method endpoint : string) (data : option P)
    (successValue : option T) (req : Request.t) :
  EvDo req ∈ (createAndSendRequest c method endpoint data successValue).2 ->
  json.MarshalAny data = Ok (Request.Body req).
Proof.
  unfold createAndSendRequest, createRequest.
  destruct (String.eqb (BaseUrl c) EmptyString); [intros Hin; inversion Hin|].
  destruct (json.MarshalAny data) as [body|]; [|intros Hin; inversion Hin].
  destruct (NewRequestWithContext _ _ body) as [r|] eqn:Enew;
    [|intros Hin; inversion Hin].
  assert (Hb : Request.Body r = body).
  { unfold NewRequestWithContext in Enew.
    destruct (negb _); [discriminate|].
    destruct (url_Parse _); [|discriminate]. now injection Enew as <-. }
  unfold sendRequest.
  destruct (HttpClient c _); cbn [snd]; intros Hin;
    repeat (apply elem_of_cons in Hin; destruct Hin as [Hin|Hin]);
    try discriminate; try (inversion Hin; fail);
    injection Hin as ->; cbn; now rewrite Hb.
Qed.

(** What [createRequest] returns, spelled out over its checks, for a
    payload that [Marshal] accepts and a valid method. *)
Lemma createRequest_built `{URLParser} {P} `{json.Marshaler P}
    (c : client) (method endpoint : string) (data : option P) (body : string) :
  json.MarshalAny data = Ok body ->
  validMethod method = true ->
  createRequest c method endpoint data
  = if String.eqb (BaseUrl c) EmptyString then Err ErrEmptyURL
    else match url_Parse (composedURL c endpoint) with
         | Err err => Err err
         | Ok u =>
           Ok (Header_Set "Accept" "application/json"
                 (Header_Set "Content-Type" "application/json"
                    (Request.mk method u ∅ body)))
         end.
Proof.
  intros Hbody Hm. unfold createRequest, composedURL.
  destruct (String.eqb (BaseUrl c) EmptyString); [reflexivity|].
  rewrite Hbody. unfold NewRequestWithContext.
  assert (Hne : String.eqb method EmptyString = false).
  { destruct method; [discriminate Hm|reflexivity]. }
  rewrite Hne, Hm. cbn [negb].
  destruct (String.eqb endpoint EmptyString); cbn [negb];
    now destruct (url_Parse _).
Qed.

Lemma Header_Get_Set (k k0 v : string) (req : Request.t) :
  Header_Get k (Header_Set k0 v req)
  = if decide (CanonicalMIMEHeaderKey k0 = CanonicalMIMEHeaderKey k)
    then v else Header_Get k req.
Proof.
  unfold Header_Get, Header_Set. cbn [Request.Header].
  rewrite lookup_insert. now destruct (decide _).
Qed.

Lemma Header_Get_new (k method u body : string) :
  Header_Get k (Request.mk method u ∅ body) = EmptyString.
Proof. unfold Header_Get. cbn [Request.Header]. now rewrite lookup_empty. Qed.

(** Looks a header up through the [Header_Set]s of a request under
    construction. *)
Ltac header_get :=
  repeat (rewrite Header_Get_Set;
          let E := fresh "E" in
          destruct (decide _) as [E|E];
          [ first [ reflexivity | vm_compute in E; discriminate E ]
          | try (exfalso; apply E; reflexivity) ]);
  try (rewrite Header_Get_new; reflexivity).

(** The request [sendRequest] hands to the transport. *)
Lemma sendRequest_trace {T} `{json.Unmarshaler T}
    (c : client) (req : Request.t) (successValue : option T) :
  (sendRequest c req successValue).2
  = match HttpClient c (Header_Set "apikey" (ApiKey c) req) with
    | Ok _ => [EvDo (Header_Set "apikey" (ApiKey c) req); EvClose]
    | Err _ => [EvDo (Header_Set "apikey" (ApiKey c) req)]
    end.
Proof.
  unfold sendRequest.
  now destruct (HttpClient c (Header_Set "apikey" (ApiKey c) req)).
Qed.

(** An operation that goes through [createAndSendRequest] hands its request
    over. *)
Lemma createAndSendRequest_handsOver `{URLParser} {P T} `{json.Marshaler P}
    `{json.Unmarshaler T}
    (c : client) (method endpoint : string) (data : option P)
    (successValue : option T) (body : string) :
  json.MarshalAny data = Ok body ->
  validMethod method = true ->
  handsOver c (createAndSendRequest c method endpoint data successValue)
            method endpoint body EmptyString.
Proof.
  intros Hbody Hm. unfold handsOver, createAndSendRequest.
  rewrite (createRequest_built c method endpoint data body Hbody Hm).
  destruct (String.eqb (BaseUrl c) EmptyString); [reflexivity|].
  destruct (url_Parse (composedURL c endpoint)) as [u|err]; [|reflexivity].
  eexists. split.
  { rewrite sendRequest_trace.
    destruct (HttpClient c _); [right|left]; reflexivity. }
  repeat split; header_get.
Qed.

(** C9. [UserCredentials] declares no JSON tags, so [Marshal] writes it
    under Go's field names: as the object with the keys "Email" and
    "Password", in that order, each followed by the field's value as a JSON
    string; scanned as JSON the text is the object with exactly these two
    members.  [SignUp] and [SignIn] send this text: unless the client has no
    base URL or the URL does not parse, each calls [Do] once with a [POST]
    request to its endpoint whose body it is. *)
Theorem credentials_body_has_capitalized_keys `{URLParser} {Time}
    `{json.Unmarshaler Time} (a : client) (credentials : UserCredentials.t) :
  let body :=
    ("{" +:+ quoted "Email" +:+ ":"
     +:+ json.appendString (UserCredentials.Email credentials)
     +:+ "," +:+ quoted "Password" +:+ ":"
     +:+ json.appendString (UserCredentials.Password credentials)
     +:+ "}")%string in
  json.Marshal credentials = Ok body
  /\ json.scanWhole body
     = Ok (json.Object
             [("Email"%string,
               json.Str (coerceUTF8
                           (String.length (UserCredentials.Email credentials))
                           (UserCredentials.Email credentials)));
              ("Password"%string,
               json.Str (coerceUTF8
                           (String.length (UserCredentials.Password credentials))
                           (UserCredentials.Password credentials)))])
  /\ handsOver a (Auth.SignUp (Time := Time) a credentials)
               "POST" "signup" body EmptyString
  /\ handsOver a (Auth.SignIn (Time := Time) a credentials)
               "POST" "token?grant_type=password" body EmptyString.
Proof.
  intros body.
  assert (Hb : body
               = ("{" +:+ json.appendEntries
                            [("Email"%string, UserCredentials.Email credentials);
                             ("Password"%string,
                              UserCredentials.Password credentials)]
                  +:+ "}")%string).
  { subst body. cbn [json.appendEntries].
    change (json.appendString "Email") with (quoted "Email").
    change (json.appendString "Password") with (quoted "Password").
    now rewrite !append_assoc. }
  assert (Hm : json.Marshal credentials = Ok body).
  { rewrite Hb. apply Marshal_credentials_entries. }
  split; [exact Hm|]. split.
  - rewrite Hb. now rewrite scanWhole_entries by discriminate.
  - split.
    + apply (createAndSendRequest_handsOver a MethodPost "signup"
               (Some credentials)); [exact Hm|reflexivity].
    + apply (createAndSendRequest_handsOver a MethodPost
               "token?grant_type=password" (Some credentials));
        [exact Hm|reflexivity].
Qed.

Lemma credentials_body_has_capitalized_keys_witness :
  let credentials := UserCredentials.mk "user@example.com" "secret" in
  let body :=
    ("{" +:+ quoted "Email" +:+ ":" +:+ quoted "user@example.com"
     +:+ "," +:+ quoted "Password" +:+ ":" +:+ quoted "secret" +:+ "}")%string in
  (exists req,
     (@Auth.SignUp ctlCheckParser string _
        (testClient (respondWith 200 "{}")) credentials).2
     = [EvDo req; EvClose]
     /\ Request.Body req = body)
  /\ (exists req,
        (@Auth.SignIn ctlCheckParser string _
           (testClient (respondWith 200 "{}")) credentials).2
        = [EvDo req; EvClose]
        /\ Request.Body req = body).
Proof.
  intros credentials body.
  destruct (@credentials_body_has_capitalized_keys ctlCheckParser string _
              (testClient (respondWith 200 "{}")) credentials)
    as (_ & _ & Hup & Hin).
  split.
  - destruct Hup as (req & [Htr|Htr] & _ & _ & Hb & _);
      [discriminate Htr|]. now exists req.
  - destruct Hin as (req & [Htr|Htr] & _ & _ & Hb & _);
      [discriminate Htr|]. now exists req.
Defined.

(** * Further properties of the pipeline *)

(** ** Decoding the error shape *)

Lemma scanNext_blank body :
  json.skipSpace body = EmptyString -> json.scanNext body = Err EOF.
Proof. intros Hb. unfold json.scanNext. now rewrite Hb. Qed.

(** The outcome of [sendRequest] wherever the body is decoded, when the scan
    of its first value fails. *)
Lemma sendRequest_scan_error {T} `{json.Unmarshaler T}
    (c : client) (req : Request.t) (successValue : option T) (res : Response.t)
    (err : error) :
  HttpClient c (Header_Set "apikey" (ApiKey c) req) = Ok res ->
  json.scanNext (Response.Body res) = Err err ->
  ~ is2xx (Response.StatusCode res)
  \/ (Response.StatusCode res <> 204 /\ successValue <> None) ->
  (sendRequest c req successValue).1 = Err err.
Proof.
  intros Hdo Hscan Hcase.
  destruct (Z_le_dec 200 (Response.StatusCode res)) as [Hlo|Hlo];
    [destruct (Z_lt_dec (Response.StatusCode res) 300) as [Hhi|Hhi]|].
  - assert (Hcode : is2xx (Response.StatusCode res)) by (split; assumption).
    destruct Hcase as [Hn|[Hne Hsv]]; [contradiction|].
    rewrite (sendRequest_accepted c req successValue res Hdo Hcode).
    unfold StatusNoContent. apply Z.eqb_neq in Hne. rewrite Hne.
    destruct successValue as [sv|]; [|congruence].
    cbn. unfold json.DecodeInterface. now rewrite Hscan.
  - rewrite (sendRequest_rejected c req successValue res Hdo);
      [|unfold is2xx; lia].
    unfold json.Decode. now rewrite Hscan.
  - rewrite (sendRequest_rejected c req successValue res Hdo);
      [|unfold is2xx; lia].
    unfold json.Decode. now rewrite Hscan.
Qed.

(** X1. A body that is empty, or white space only, is an error wherever the
    body is decoded: for a status outside [200, 300), and for a status in
    [200, 300) other than 204 with a success value given, [sendRequest]
    returns [io.EOF] and no envelope. *)
Theorem sendRequest_blank_body {T} `{json.Unmarshaler T}
    (c : client) (req : Request.t) (successValue : option T) (res : Response.t) :
  HttpClient c (Header_Set "apikey" (ApiKey c) req) = Ok res ->
  json.skipSpace (Response.Body res) = EmptyString ->
  ~ is2xx (Response.StatusCode res)
  \/ (Response.StatusCode res <> 204 /\ successValue <> None) ->
  (sendRequest c req successValue).1 = Err EOF.
Proof.
  intros Hdo Hblank Hcase.
  apply (sendRequest_scan_error c req successValue res EOF Hdo);
    [now apply scanNext_blank | exact Hcase].
Qed.

Lemma sendRequest_blank_body_witness :
  (sendRequest (testClient (respondWith 400 EmptyString)) testRequest
               (Some EmptyString)).1 = Err EOF
  /\ (sendRequest (testClient (respondWith 200 "  ")) testRequest
                  (Some EmptyString)).1 = Err EOF.
Proof.
  split.
  - refine (sendRequest_blank_body
              (testClient (respondWith 400 EmptyString)) testRequest
              (Some EmptyString) (Response.mk 400 EmptyString)
              eq_refl eq_refl (or_introl _)).
    unfold is2xx. cbn. lia.
  - refine (sendRequest_blank_body
              (testClient (respondWith 200 "  ")) testRequest
              (Some EmptyString) (Response.mk 200 "  ")
              eq_refl eq_refl (or_intror (conj _ _))); cbn; [lia|discriminate].
Defined.

(** X2. Outside [200, 300), a body whose first value is an array, a string,
    a number or a boolean is a call failure: [sendRequest] returns the type
    error of the decoder and no envelope. *)
Theorem sendRequest_error_body_not_object {T} `{json.Unmarshaler T}
    (c : client) (req : Request.t) (successValue : option T) (res : Response.t)
    (v : json.value) (rest : string) :
  HttpClient c (Header_Set "apikey" (ApiKey c) req) = Ok res ->
  ~ is2xx (Response.StatusCode res) ->
  json.scanNext (Response.Body res) = Ok (v, rest) ->
  v <> json.Null -> (forall ms, v <> json.Object ms) ->
  (sendRequest c req successValue).1
  = Err (UnmarshalTypeError (json.describe v) "supauth.ErrorResponse").
Proof.
  intros Hdo Hcode Hscan Hnull Hobj.
  rewrite (sendRequest_rejected c req successValue res Hdo Hcode).
  unfold json.Decode. rewrite Hscan. cbn.
  destruct v; try reflexivity; [congruence | now destruct (Hobj members)].
Qed.

Lemma sendRequest_error_body_not_object_witness :
  (sendRequest (testClient (respondWith 500 "400")) testRequest
               (Some EmptyString)).1
  = Err (UnmarshalTypeError "number" "supauth.ErrorResponse")
  /\ (sendRequest (testClient (respondWith 500 "[1, 2]")) testRequest
                  (Some EmptyString)).1
     = Err (UnmarshalTypeError "array" "supauth.ErrorResponse").
Proof.
  split.
  - refine (sendRequest_error_body_not_object
              (testClient (respondWith 500 "400")) testRequest
              (Some EmptyString) (Response.mk 500 "400")
              (json.Number "400") EmptyString
              eq_refl _ eq_refl _ _).
    + unfold is2xx. cbn. lia.
    + discriminate.
    + discriminate.
  - refine (sendRequest_error_body_not_object
              (testClient (respondWith 500 "[1, 2]")) testRequest
              (Some EmptyString) (Response.mk 500 "[1, 2]")
              (json.Array [json.Number "1"; json.Number "2"]) EmptyString
              eq_refl _ eq_refl _ _).
    + unfold is2xx. cbn. lia.
    + discriminate.
    + discriminate.
Defined.

Lemma setField_accepted i v e :
  (i < 3)%nat -> fieldAccepts i v = true ->
  exists e', ErrorResponse.setField i v e = Ok e'.
Proof.
  intros Hi Hacc. unfold ErrorResponse.setField.
  destruct i as [|[|[|i]]]; try lia; destruct v; cbn in Hacc |- *;
    try discriminate; eauto.
  destruct (json.ParseInt lit); [eauto|discriminate].
Qed.

Lemma setField_refused i v e :
  (i < 3)%nat -> fieldAccepts i v = false ->
  exists a b, ErrorResponse.setField i v e = Err (UnmarshalTypeError a b).
Proof.
  intros Hi Hacc. unfold ErrorResponse.setField.
  destruct i as [|[|[|i]]]; try lia; destruct v; cbn in Hacc |- *;
    try discriminate; eauto.
  destruct (json.ParseInt lit); [discriminate|eauto].
Qed.

Lemma objectInto_accepted ms : forall e,
  forallb memberAccepted ms = true ->
  exists e', json.objectInto ErrorResponse.names ErrorResponse.setField ms e
             = Ok e'.
Proof.
  induction ms as [|[k v] ms IH]; intros e Hall; [cbn; eauto|].
  cbn [forallb] in Hall. apply andb_true_iff in Hall as [Hkv Hall].
  unfold memberAccepted in Hkv. cbn [fst snd] in Hkv. cbn [json.objectInto].
  destruct (json.findField ErrorResponse.names k) as [i|] eqn:Ef; [|now apply IH].
  destruct (setField_accepted i v e (findField_lt _ _ _ Ef) Hkv) as [e1 ->].
  cbn. now apply IH.
Qed.

Lemma objectInto_refused ms : forall e,
  forallb memberAccepted ms = false ->
  exists a b, json.objectInto ErrorResponse.names ErrorResponse.setField ms e
              = Err (UnmarshalTypeError a b).
Proof.
  induction ms as [|[k v] ms IH]; intros e Hall; [discriminate|].
  cbn [forallb] in Hall. unfold memberAccepted at 1 in Hall.
  cbn [fst snd] in Hall. cbn [json.objectInto].
  destruct (json.findField ErrorResponse.names k) as [i|] eqn:Ef;
    [|now apply IH].
  destruct (fieldAccepts i v) eqn:Hacc.
  - destruct (setField_accepted i v e (findField_lt _ _ _ Ef) Hacc) as [e1 ->].
    cbn. now apply IH.
  - destruct (setField_refused i v e (findField_lt _ _ _ Ef) Hacc)
      as (a & b & ->). cbn. eauto.
Qed.

(** X3. Outside [200, 300), a body that is a JSON object gives an envelope
    exactly when every member that selects a field of [ErrorResponse]
    carries [null] or a value of the field's type (a number within [int] for
    [code], a string for [error_code] and [msg]); with any other member the
    call fails with the decoder's type error and no envelope. *)
Theorem sendRequest_error_body_types {T} `{json.Unmarshaler T}
    (c : client) (req : Request.t) (successValue : option T) (res : Response.t)
    (ms : list (string * json.value)) (rest : string) :
  HttpClient c (Header_Set "apikey" (ApiKey c) req) = Ok res ->
  ~ is2xx (Response.StatusCode res) ->
  json.scanNext (Response.Body res) = Ok (json.Object ms, rest) ->
  (forallb memberAccepted ms = true ->
     exists e, (sendRequest c req successValue).1
               = Ok (AuthResponse.mk (Response.StatusCode res) (ErrorValue e)))
  /\ (forallb memberAccepted ms = false ->
        exists a b, (sendRequest c req successValue).1
                    = Err (UnmarshalTypeError a b)).
Proof.
  intros Hdo Hcode Hscan.
  rewrite (sendRequest_rejected c req successValue res Hdo Hcode).
  unfold json.Decode. rewrite Hscan. cbn. split; intros Hall.
  - destruct (objectInto_accepted ms json.zero Hall) as [e He].
    cbn in He. rewrite He. eauto.
  - destruct (objectInto_refused ms json.zero Hall) as (a & b & He).
    cbn in He. rewrite He. eauto.
Qed.

Lemma sendRequest_error_body_types_witness :
  exists a b,
    (sendRequest (testClient (respondWith 400 mistypedCodeBody)) testRequest
                 (Some EmptyString)).1
    = Err (UnmarshalTypeError a b).
Proof.
  refine (proj2 (sendRequest_error_body_types
                   (testClient (respondWith 400 mistypedCodeBody)) testRequest
                   (Some EmptyString) (Response.mk 400 mistypedCodeBody)
                   [("code"%string, json.Str "400")] EmptyString
                   eq_refl _ eq_refl) eq_refl).
  unfold is2xx. cbn. lia.
Defined.

(** X4. The keys of the error body are matched without regard to letter
    case: a member selects [Status], [ErrorCode] or [Message] exactly when
    its key, folded, is [CODE], [ERROR_CODE] or [MSG]. *)
Theorem findField_error_shape_fold (k : string) (i : nat) :
  json.findField ErrorResponse.names k = Some i
  <-> (i = 0%nat /\ json.foldName k = "CODE"%string)
      \/ (i = 1%nat /\ json.foldName k = "ERROR_CODE"%string)
      \/ (i = 2%nat /\ json.foldName k = "MSG"%string).
Proof.
  unfold json.findField, ErrorResponse.names. cbn [json.indexOf].
  change (json.foldName "code") with "CODE"%string.
  change (json.foldName "error_code") with "ERROR_CODE"%string.
  change (json.foldName "msg") with "MSG"%string.
  destruct (String.eqb_spec k "code") as [->|H0].
  { change (json.foldName "code") with "CODE"%string.
    split; [intros [= <-]; now left|].
    intros [[-> _]|[[_ Hf]|[_ Hf]]]; [reflexivity|discriminate Hf..]. }
  destruct (String.eqb_spec k "error_code") as [->|H1].
  { change (json.foldName "error_code") with "ERROR_CODE"%string.
    split; [intros [= <-]; right; now left|].
    intros [[_ Hf]|[[-> _]|[_ Hf]]]; [discriminate Hf|reflexivity|discriminate Hf]. }
  destruct (String.eqb_spec k "msg") as [->|H2].
  { change (json.foldName "msg") with "MSG"%string.
    split; [intros [= <-]; right; now right|].
    intros [[_ Hf]|[[_ Hf]|[-> _]]]; [discriminate Hf..|reflexivity]. }
  cbn [fmap option_fmap option_map].
  destruct (String.eqb_spec "CODE" (json.foldName k)) as [E0|E0].
  { rewrite <- E0. split; [intros [= <-]; now left|].
    intros [[-> _]|[[_ Hf]|[_ Hf]]]; [reflexivity|discriminate Hf..]. }
  destruct (String.eqb_spec "ERROR_CODE" (json.foldName k)) as [E1|E1].
  { rewrite <- E1. split; [intros [= <-]; right; now left|].
    intros [[_ Hf]|[[-> _]|[_ Hf]]]; [discriminate Hf|reflexivity|discriminate Hf]. }
  destruct (String.eqb_spec "MSG" (json.foldName k)) as [E2|E2].
  { rewrite <- E2. split; [intros [= <-]; right; now right|].
    intros [[_ Hf]|[[_ Hf]|[-> _]]]; [discriminate Hf..|reflexivity]. }
  split; [discriminate|].
  intros [[_ Hf]|[[_ Hf]|[_ Hf]]]; congruence.
Qed.

Lemma objectInto_app {T} names (setField : nat -> json.value -> T -> result T)
    (a b : list (string * json.value)) : forall t,
  json.objectInto names setField (a ++ b) t
  = json.objectInto names setField a t ≫= json.objectInto names setField b.
Proof.
  induction a as [|[k v] a IH]; intros t; [reflexivity|].
  cbn [app json.objectInto].
  destruct (json.findField names k); [|apply IH].
  destruct (setField n v t); cbn; [apply IH|reflexivity].
Qed.

(** What one member does to the field it selects. *)
Lemma setField_stored i v e e' :
  (i < 3)%nat ->
  ErrorResponse.setField i v e = Ok e' ->
  (v <> json.Null -> stored i v = Some (field i e'))
  /\ (v = json.Null -> e' = e).
Proof.
  intros Hi. unfold ErrorResponse.setField.
  destruct i as [|[|[|i]]]; try lia; destruct v; cbn;
    try discriminate;
    try (intros [= <-]; split; [congruence|now destruct e]);
    try (intros [= <-]; split; [reflexivity|discriminate]).
  destruct (json.ParseInt lit) as [n|]; [|discriminate].
  intros [= <-]. split; [reflexivity|discriminate].
Qed.

(** The members of an object around one of them: those before it are
    decoded first, those after it leave alone the field it selects when
    none of them selects it. *)
Lemma objectInto_around ms1 k v ms2 i e0 e :
  json.objectInto ErrorResponse.names ErrorResponse.setField
    (ms1 ++ (k, v) :: ms2) e0 = Ok e ->
  json.findField ErrorResponse.names k = Some i ->
  fieldAbsent i ms2 ->
  exists e1 e2,
    json.objectInto ErrorResponse.names ErrorResponse.setField ms1 e0 = Ok e1
    /\ ErrorResponse.setField i v e1 = Ok e2
    /\ field i e = field i e2.
Proof.
  rewrite objectInto_app. intros Hall Hk Habs.
  destruct (json.objectInto ErrorResponse.names ErrorResponse.setField ms1 e0)
    as [e1|]; [|discriminate].
  cbn [mbind result_bind json.objectInto] in Hall. rewrite Hk in Hall.
  destruct (ErrorResponse.setField i v e1) as [e2|] eqn:Hset; [|discriminate].
  cbn [mbind result_bind] in Hall.
  exists e1, e2. split; [reflexivity|]. split; [exact Hset|].
  apply (objectInto_absent i ms2 e2 e); [|assumption..].
  exact (findField_lt _ _ _ Hk).
Qed.

(** The error shape in an envelope is the one decoded from the object. *)
Lemma sendRequest_error_object {T} `{json.Unmarshaler T}
    (c : client) (req : Request.t) (successValue : option T) (res : Response.t)
    (ms : list (string * json.value)) (rest : string) :
  HttpClient c (Header_Set "apikey" (ApiKey c) req) = Ok res ->
  ~ is2xx (Response.StatusCode res) ->
  json.scanNext (Response.Body res) = Ok (json.Object ms, rest) ->
  (sendRequest c req successValue).1
  = match json.objectInto ErrorResponse.names ErrorResponse.setField ms
            json.zero with
    | Ok e => Ok (AuthResponse.mk (Response.StatusCode res) (ErrorValue e))
    | Err err => Err err
    end.
Proof.
  intros Hdo Hcode Hscan.
  rewrite (sendRequest_rejected c req successValue res Hdo Hcode).
  unfold json.Decode. now rewrite Hscan.
Qed.

(** X5. When a key of the error body occurs more than once, the last
    occurrence decides, wherever in the object it stands: for a member that
    selects a field and is followed by no member selecting the same field,
    the field of the [ErrorResponse] in the envelope holds the member's
    value; when that value is [null], the field is as the members before
    it made it. *)
Theorem error_body_last_member_wins {T} `{json.Unmarshaler T}
    (c : client) (req : Request.t) (successValue : option T) (res : Response.t)
    (ms1 ms2 : list (string * json.value)) (k : string) (v : json.value)
    (rest : string) (i : nat) (r : AuthResponse.t T) (e : ErrorResponse.t) :
  HttpClient c (Header_Set "apikey" (ApiKey c) req) = Ok res ->
  ~ is2xx (Response.StatusCode res) ->
  json.scanNext (Response.Body res)
  = Ok (json.Object (ms1 ++ (k, v) :: ms2), rest) ->
  json.findField ErrorResponse.names k = Some i ->
  fieldAbsent i ms2 ->
  (sendRequest c req successValue).1 = Ok r ->
  AuthResponse.Data r = ErrorValue e ->
  (v <> json.Null -> stored i v = Some (field i e))
  /\ (v = json.Null ->
      exists e1,
        json.objectInto ErrorResponse.names ErrorResponse.setField ms1 json.zero
        = Ok e1
        /\ field i e = field i e1).
Proof.
  intros Hdo Hcode Hscan Hk Habs Hr Hdata.
  rewrite (sendRequest_error_object c req successValue res _ rest Hdo Hcode Hscan)
    in Hr.
  destruct (json.objectInto ErrorResponse.names ErrorResponse.setField
              (ms1 ++ (k, v) :: ms2) json.zero) as [e'|] eqn:Hall;
    [|discriminate].
  injection Hr as <-. cbn in Hdata. injection Hdata as ->.
  destruct (objectInto_around ms1 k v ms2 i _ e Hall Hk Habs)
    as (e1 & e2 & H1 & Hset & Hfield).
  destruct (setField_stored i v e1 e2 (findField_lt _ _ _ Hk) Hset)
    as [Hval Hnull].
  split.
  - intros Hv. rewrite Hfield. now apply Hval.
  - intros Hv. exists e1. split; [exact H1|].
    rewrite Hfield. now rewrite (Hnull Hv).
Qed.

Lemma error_body_last_member_wins_witness :
  (sendRequest (testClient (respondWith 401 repeatedKeyBody)) testRequest
               (Some EmptyString)).1
  = Ok (AuthResponse.mk 401
          (ErrorValue (ErrorResponse.mk 401 EmptyString "second")))
  /\ stored 2 (json.Str "second")
     = Some (field 2 (ErrorResponse.mk 401 EmptyString "second")).
Proof.
  split; [reflexivity|].
  refine (proj1 (error_body_last_member_wins
                   (testClient (respondWith 401 repeatedKeyBody)) testRequest
                   (Some EmptyString) (Response.mk 401 repeatedKeyBody)
                   [("msg"%string, json.Str "first")]
                   [("code"%string, json.Number "401")]
                   "msg" (json.Str "second") EmptyString 2
                   (AuthResponse.mk 401
                      (ErrorValue (ErrorResponse.mk 401 EmptyString "second")))
                   (ErrorResponse.mk 401 EmptyString "second")
                   eq_refl _ eq_refl eq_refl _ eq_refl eq_refl) _).
  - unfold is2xx. cbn. lia.
  - intros k v Hin. apply elem_of_cons in Hin as [Hin|Hin];
      [injection Hin as -> ->; discriminate|inversion Hin].
  - discriminate.
Defined.

(** [ParseInt] accepts the literal of an integer within [int], and gives
    that integer. *)
Lemma ParseInt_spec lit n :
  json.ParseInt lit = Some n
  <-> integerOf lit = Some n /\ - 2 ^ 63 <= n < 2 ^ 63.
Proof.
  unfold json.ParseInt.
  change (match lit with
          | String "-" r => Z.opp <$> json.digitsVal 0 r
          | _ => json.digitsVal 0 lit
          end) with (integerOf lit).
  destruct (integerOf lit) as [m|]; cbn [mbind option_bind].
  - destruct ((- 2 ^ 63 <=? m) && (m <? 2 ^ 63)) eqn:E.
    + apply andb_true_iff in E as [E1 E2].
      apply Z.leb_le in E1. apply Z.ltb_lt in E2.
      split; [intros [= <-]; split; [reflexivity|lia]|now intros [[= <-] _]].
    + split; [discriminate|]. intros [[= <-] Hr].
      apply andb_false_iff in E as [E|E];
        [apply Z.leb_gt in E|apply Z.ltb_ge in E]; lia.
  - split; [discriminate|now intros [? _]].
Qed.

(** X6. A [code] is never wrapped around.  For an error body whose deciding
    [code] member is a number: when the number is not the literal of an
    integer, or is an integer outside the 64-bit [int], [sendRequest] fails
    with a type error and returns no envelope (the error names the literal
    when the members before it are well typed); and the [Status] of an
    [ErrorResponse] that is returned is exactly the integer the literal
    denotes. *)
Theorem sendRequest_error_code_exact {T} `{json.Unmarshaler T}
    (c : client) (req : Request.t) (successValue : option T) (res : Response.t)
    (ms1 ms2 : list (string * json.value)) (k lit rest : string) :
  HttpClient c (Header_Set "apikey" (ApiKey c) req) = Ok res ->
  ~ is2xx (Response.StatusCode res) ->
  json.scanNext (Response.Body res)
  = Ok (json.Object (ms1 ++ (k, json.Number lit) :: ms2), rest) ->
  json.findField ErrorResponse.names k = Some 0%nat ->
  fieldAbsent 0 ms2 ->
  (integerOf lit = None
   \/ (exists n, integerOf lit = Some n /\ ~ (- 2 ^ 63 <= n < 2 ^ 63)) ->
   (exists a b, (sendRequest c req successValue).1
                = Err (UnmarshalTypeError a b))
   /\ (forallb memberAccepted ms1 = true ->
       (sendRequest c req successValue).1
       = Err (UnmarshalTypeError ("number " +:+ lit) "int")))
  /\ (forall r e,
        (sendRequest c req successValue).1 = Ok r ->
        AuthResponse.Data r = ErrorValue e ->
        integerOf lit = Some (ErrorResponse.Status e)
        /\ - 2 ^ 63 <= ErrorResponse.Status e < 2 ^ 63).
Proof.
  intros Hdo Hcode Hscan Hk Habs.
  rewrite (sendRequest_error_object c req successValue res _ rest Hdo Hcode Hscan).
  split.
  - intros Hbad.
    assert (Hparse : json.ParseInt lit = None).
    { destruct (json.ParseInt lit) as [n|] eqn:Hp; [|reflexivity].
      apply ParseInt_spec in Hp as [Hn Hr].
      destruct Hbad as [Hnone|(m & Hm & Hout)]; congruence. }
    rewrite objectInto_app.
    split.
    + destruct (forallb memberAccepted ms1) eqn:Hacc.
      * destruct (objectInto_accepted ms1 json.zero Hacc) as [e1 ->].
        cbn [mbind result_bind json.objectInto]. rewrite Hk.
        cbn. rewrite Hparse. cbn. eauto.
      * destruct (objectInto_refused ms1 json.zero Hacc) as (a & b & ->).
        cbn. eauto.
    + intros Hacc.
      destruct (objectInto_accepted ms1 json.zero Hacc) as [e1 ->].
      cbn [mbind result_bind json.objectInto]. rewrite Hk.
      cbn. now rewrite Hparse.
  - intros r e Hr Hdata.
    destruct (json.objectInto ErrorResponse.names ErrorResponse.setField
                (ms1 ++ (k, json.Number lit) :: ms2) json.zero)
      as [e'|] eqn:Hall; [|discriminate].
    injection Hr as <-. cbn in Hdata. injection Hdata as ->.
    destruct (objectInto_around ms1 k _ ms2 0 _ e Hall Hk Habs)
      as (e1 & e2 & H1 & Hset & Hfield).
    destruct (setField_stored 0 _ e1 e2 ltac:(lia) Hset) as [Hval _].
    specialize (Hval ltac:(discriminate)). cbn in Hval.
    destruct (json.ParseInt lit) as [n|] eqn:Hp; [|discriminate].
    cbn in Hval, Hfield. injection Hval as Hn. injection Hfield as Hf.
    apply ParseInt_spec in Hp. rewrite Hf, <- Hn. exact Hp.
Qed.

Lemma sendRequest_error_code_exact_witness :
  (sendRequest (testClient (respondWith 400 hugeCodeBody)) testRequest
               (Some EmptyString)).1
  = Err (UnmarshalTypeError "number 9223372036854775808" "int").
Proof.
  refine (proj2 (proj1 (sendRequest_error_code_exact
                   (testClient (respondWith 400 hugeCodeBody)) testRequest
                   (Some EmptyString) (Response.mk 400 hugeCodeBody)
                   [] [] "code" "9223372036854775808" EmptyString
                   eq_refl _ eq_refl eq_refl _) _) eq_refl).
  - unfold is2xx. cbn. lia.
  - intros k v Hin. inversion Hin.
  - right. exists 9223372036854775808. split; [reflexivity|lia].
Defined.

Lemma objectInto_selected {T} names (setField : nat -> json.value -> T -> result T)
    (ms : list (string * json.value)) : forall t,
  json.objectInto names setField ms t
  = json.objectInto names setField
      (filter (fun kv => is_Some (json.findField names kv.1)) ms) t.
Proof.
  induction ms as [|[k v] ms IH]; intros t; [reflexivity|].
  destruct (json.findField names k) as [i|] eqn:Ef.
  - rewrite filter_cons_True by (cbn; rewrite Ef; eauto).
    cbn [json.objectInto]. rewrite Ef.
    destruct (setField i v t); cbn; [apply IH|reflexivity].
  - rewrite filter_cons_False by (cbn; rewrite Ef; now intros [? ?]).
    cbn [json.objectInto]. rewrite Ef. apply IH.
Qed.

(** X7. Members of the error body whose keys match none of [code],
    [error_code] and [msg] have no effect, whatever their values: outside
    [200, 300) the outcome of [sendRequest] is the outcome for the object
    with these members left out. *)
Theorem sendRequest_error_body_unknown_keys {T} `{json.Unmarshaler T}
    (c : client) (req : Request.t) (successValue : option T) (res : Response.t)
    (ms : list (string * json.value)) (rest : string) :
  HttpClient c (Header_Set "apikey" (ApiKey c) req) = Ok res ->
  ~ is2xx (Response.StatusCode res) ->
  json.scanNext (Response.Body res) = Ok (json.Object ms, rest) ->
  (sendRequest c req successValue).1
  = match json.objectInto ErrorResponse.names ErrorResponse.setField
            (filter (fun kv => is_Some (json.findField ErrorResponse.names kv.1)) ms)
            json.zero with
    | Ok e => Ok (AuthResponse.mk (Response.StatusCode res) (ErrorValue e))
    | Err err => Err err
    end.
Proof.
  intros Hdo Hcode Hscan.
  rewrite (sendRequest_rejected c req successValue res Hdo Hcode).
  unfold json.Decode. rewrite Hscan. cbn [mbind result_bind].
  cbn [json.store ErrorResponse_unmarshaler json.structInto].
  now rewrite objectInto_selected.
Qed.

Lemma sendRequest_error_body_unknown_keys_witness :
  (sendRequest (testClient (respondWith 403 extraKeyBody)) testRequest
               (Some EmptyString)).1
  = Ok (AuthResponse.mk 403
          (ErrorValue (ErrorResponse.mk 0 EmptyString "denied"))).
Proof.
  refine (eq_trans
            (sendRequest_error_body_unknown_keys
               (testClient (respondWith 403 extraKeyBody)) testRequest
               (Some EmptyString) (Response.mk 403 extraKeyBody)
               [("hint"%string, json.Array [json.Number "1"; json.Number "2"]);
                ("msg"%string, json.Str "denied")] EmptyString
               eq_refl _ eq_refl) _).
  - unfold is2xx. cbn. lia.
  - reflexivity.
Defined.

(** ** Headers *)

Lemma sendRequest_EvDo {T} `{json.Unmarshaler T}
    (c : client) (req : Request.t) (successValue : option T) (req' : Request.t) :
  EvDo req' ∈ (sendRequest c req successValue).2 ->
  req' = Header_Set "apikey" (ApiKey c) req.
Proof.
  rewrite sendRequest_trace.
  destruct (HttpClient c _); intros Hin;
    repeat (apply elem_of_cons in Hin; destruct Hin as [Hin|Hin]);
    try discriminate; try (now inversion Hin); now injection Hin.
Qed.

(** X8. [sendRequest] hands to the transport the request it was given with
    the header [apikey] set to the client's key: the key replaces whatever
    the request carried under that name in any letter case, every other
    header is as it was, and method, URL and body are untouched. *)
Theorem sendRequest_sets_apikey {T} `{json.Unmarshaler T}
    (c : client) (req : Request.t) (successValue : option T) (req' : Request.t) :
  EvDo req' ∈ (sendRequest c req successValue).2 ->
  (forall k, CanonicalMIMEHeaderKey k = "Apikey"%string ->
             Header_Get k req' = ApiKey c)
  /\ (forall k, CanonicalMIMEHeaderKey k <> "Apikey"%string ->
                Header_Get k req' = Header_Get k req)
  /\ Request.Method req' = Request.Method req
  /\ Request.URL req' = Request.URL req
  /\ Request.Body req' = Request.Body req.
Proof.
  intros Hin. apply sendRequest_EvDo in Hin. subst req'.
  change (CanonicalMIMEHeaderKey "apikey") with "Apikey"%string.
  repeat split.
  - intros k Hk. rewrite Header_Get_Set.
    change (CanonicalMIMEHeaderKey "apikey") with "Apikey"%string.
    destruct (decide _); congruence.
  - intros k Hk. rewrite Header_Get_Set.
    change (CanonicalMIMEHeaderKey "apikey") with "Apikey"%string.
    destruct (decide _); congruence.
Qed.

Lemma sendRequest_sets_apikey_witness :
  Header_Get "ApiKey" (Header_Set "apikey" "abc123" staleKeyRequest)
  = "abc123"%string
  /\ Header_Get "accept" (Header_Set "apikey" "abc123" staleKeyRequest)
     = "application/json"%string.
Proof.
  pose proof (sendRequest_sets_apikey
                (testClient (respondWith 204 EmptyString)) staleKeyRequest
                (None : option string)
                (Header_Set "apikey" "abc123" staleKeyRequest)
                ltac:(left)) as (Hkey & Hother & _).
  split.
  - exact (Hkey "ApiKey"%string eq_refl).
  - rewrite (Hother "accept"%string) by discriminate. reflexivity.
Defined.

(** ** The request [createRequest] builds *)

(** [createRequest] on a client whose base URL is not empty, spelled out. *)
Lemma createRequest_steps `{URLParser} {P} `{json.Marshaler P}
    (c : client) (method endpoint : string) (data : option P) :
  BaseUrl c <> EmptyString ->
  createRequest c method endpoint data
  = match json.MarshalAny data with
    | Err err => Err err
    | Ok reqBody =>
      if validMethod (effectiveMethod method) then
        match url_Parse (composedURL c endpoint) with
        | Err err => Err err
        | Ok u =>
          Ok (Header_Set "Accept" "application/json"
                (Header_Set "Content-Type" "application/json"
                   (Request.mk (effectiveMethod method) u ∅ reqBody)))
        end
      else Err (InvalidMethodError (effectiveMethod method))
    end.
Proof.
  intros Hbase. unfold createRequest, composedURL, effectiveMethod.
  destruct (String.eqb_spec (BaseUrl c) EmptyString) as [E|_]; [contradiction|].
  destruct (json.MarshalAny data) as [body|]; [|reflexivity].
  unfold NewRequestWithContext.
  destruct (validMethod _); cbn [negb]; [|reflexivity].
  destruct (String.eqb endpoint EmptyString); cbn [negb];
    now destruct (url_Parse _).
Qed.

Lemma createRequest_Ok_base `{URLParser} {P} `{json.Marshaler P}
    (c : client) (method endpoint : string) (data : option P) (req : Request.t) :
  createRequest c method endpoint data = Ok req -> BaseUrl c <> EmptyString.
Proof.
  unfold createRequest.
  destruct (String.eqb_spec (BaseUrl c) EmptyString); [discriminate|auto].
Qed.

(** X9. A request that [createRequest] returns has the method it was asked
    for ([GET] for an empty one), the URL the parser made of the composed
    string, the serialized payload as body, and exactly two headers,
    [Content-Type] and [Accept], both [application/json]; it carries no API
    key and no [Authorization] header. *)
Theorem createRequest_request `{URLParser} {P} `{json.Marshaler P}
    (c : client) (method endpoint : string) (data : option P) (req : Request.t) :
  createRequest c method endpoint data = Ok req ->
  Request.Method req = effectiveMethod method
  /\ url_Parse (composedURL c endpoint) = Ok (Request.URL req)
  /\ json.MarshalAny data = Ok (Request.Body req)
  /\ Request.Header req
     = <["Accept"%string := ["application/json"%string]]>
         (<["Content-Type"%string := ["application/json"%string]]> ∅)
  /\ Header_Get "Content-Type" req = "application/json"%string
  /\ Header_Get "Accept" req = "application/json"%string
  /\ Header_Get "apikey" req = EmptyString
  /\ Header_Get "Authorization" req = EmptyString.
Proof.
  intros Hreq. pose proof (createRequest_Ok_base _ _ _ _ _ Hreq) as Hbase.
  rewrite (createRequest_steps c method endpoint data Hbase) in Hreq.
  destruct (json.MarshalAny data) as [body|]; [|discriminate].
  destruct (validMethod _); [|discriminate].
  destruct (url_Parse _) as [u|]; [|discriminate].
  injection Hreq as <-. repeat split.
Qed.

Lemma createRequest_request_witness :
  exists req,
    @createRequest ctlCheckParser _ _ (testClient (respondWith 200 "{}"))
       EmptyString "test" (None : option string) = Ok req
    /\ Request.Method req = "GET"%string
    /\ Request.Body req = "null"%string
    /\ Header_Get "apikey" req = EmptyString.
Proof.
  eexists. split; [reflexivity|].
  pose proof (@createRequest_request ctlCheckParser _ _
                (testClient (respondWith 200 "{}")) EmptyString "test"
                (None : option string) _ eq_refl)
    as (Hm & _ & Hb & _ & _ & _ & Hk & _).
  split; [exact Hm|]. split; [reflexivity|exact Hk].
Defined.

(** X10. The checks of [createRequest] come in a fixed order: on a client
    with a non-empty base URL, a payload that [Marshal] refuses is reported
    whatever the method and the URL are, and an invalid method is reported
    whatever the URL is; only then is the URL parsed. *)
Theorem createRequest_error_order `{URLParser} {P} `{json.Marshaler P}
    (c : client) (method endpoint : string) (data : option P) :
  BaseUrl c <> EmptyString ->
  (forall err, json.MarshalAny data = Err err ->
               createRequest c method endpoint data = Err err)
  /\ (forall reqBody,
        json.MarshalAny data = Ok reqBody ->
        validMethod (effectiveMethod method) = false ->
        createRequest c method endpoint data
        = Err (InvalidMethodError (effectiveMethod method)))
  /\ (forall reqBody err,
        json.MarshalAny data = Ok reqBody ->
        validMethod (effectiveMethod method) = true ->
        url_Parse (composedURL c endpoint) = Err err ->
        createRequest c method endpoint data = Err err).
Proof.
  intros Hbase. rewrite (createRequest_steps c method endpoint data Hbase).
  repeat split.
  - now intros err ->.
  - now intros reqBody -> ->.
  - now intros reqBody err -> -> ->.
Qed.

Lemma createRequest_error_order_witness :
  @createRequest ctlCheckParser _ _ (testClient (respondWith 200 "{}"))
     "GET POST" "test" (Some make_chan_int)
  = Err (UnsupportedTypeError "chan int")
  /\ @createRequest ctlCheckParser _ _
       (mkClient ("http://local" +:+ String (chr 9) "host") "abc123"
                 (respondWith 200 "{}"))
       "GET POST" "test" (None : option string)
     = Err (InvalidMethodError "GET POST").
Proof.
  split.
  - refine (proj1 (@createRequest_error_order ctlCheckParser _ _
                     (testClient (respondWith 200 "{}")) "GET POST" "test"
                     (Some make_chan_int) _) _ eq_refl).
    discriminate.
  - refine (proj1 (proj2 (@createRequest_error_order ctlCheckParser _ _
                     (mkClient ("http://local" +:+ String (chr 9) "host") "abc123"
                               (respondWith 200 "{}"))
                     "GET POST" "test" (None : option string) _))
                  "null"%string eq_refl eq_refl).
    discriminate.
Defined.

Lemma newClient_BaseUrl projectId apiKey httpClient :
  BaseUrl (newClient projectId apiKey httpClient)
  = ("https://" +:+ projectId +:+ ".supabase.co/auth/v1")%string
  /\ BaseUrl (newClient projectId apiKey httpClient) <> EmptyString.
Proof. split; [reflexivity|discriminate]. Qed.

(** X11. A client made by [newClient] (and so an [Auth] made by [NewAuth])
    has the base URL [https://<project>.supabase.co/auth/v1] and the given
    key; its base URL is never empty, whatever the project identifier, so
    [createRequest] goes on to serialize the payload and, when it returns a
    request, that request is for the URL parsed from the base URL, a slash
    and the endpoint. *)
Theorem newClient_createRequest `{URLParser} {P} `{json.Marshaler P}
    (projectId apiKey : string) (httpClient : Request.t -> result Response.t)
    (method endpoint : string) (data : option P) :
  let c := NewAuth projectId apiKey httpClient in
  ApiKey c = apiKey
  /\ (forall err, json.MarshalAny data = Err err ->
                  createRequest c method endpoint data = Err err)
  /\ (forall req, createRequest c method endpoint data = Ok req ->
        endpoint <> EmptyString ->
        url_Parse ("https://" +:+ projectId +:+ ".supabase.co/auth/v1/"
                   +:+ endpoint)
        = Ok (Request.URL req)).
Proof.
  intros c.
  destruct (newClient_BaseUrl projectId apiKey httpClient) as [Hurl Hne].
  split; [reflexivity|]. split.
  - intros err Herr. subst c. unfold NewAuth.
    rewrite (createRequest_steps _ method endpoint data Hne). now rewrite Herr.
  - intros req Hreq Hep. subst c. unfold NewAuth in Hreq.
    rewrite (createRequest_steps _ method endpoint data Hne) in Hreq.
    destruct (json.MarshalAny data); [|discriminate].
    destruct (validMethod _); [|discriminate].
    unfold composedURL in Hreq. rewrite Hurl in Hreq.
    destruct (String.eqb_spec endpoint EmptyString) as [E|_]; [contradiction|].
    rewrite !append_assoc in Hreq.
    change ((".supabase.co/auth/v1" +:+ "/" +:+ endpoint)%string)
      with ((".supabase.co/auth/v1/" +:+ endpoint)%string) in Hreq.
    destruct (url_Parse _) as [u|]; [|discriminate].
    now injection Hreq as <-.
Qed.

Lemma newClient_createRequest_witness :
  exists req,
    @createRequest ctlCheckParser _ _
       (NewAuth "test" "abc123" (respondWith 200 "{}"))
       "POST" "signup" (None : option string) = Ok req
    /\ Request.URL req = "https://test.supabase.co/auth/v1/signup"%string.
Proof.
  eexists. split; [reflexivity|].
  pose proof (proj2 (proj2 (@newClient_createRequest ctlCheckParser _ _
                              "test" "abc123" (respondWith 200 "{}")
                              "POST" "signup" (None : option string)))
                    _ eq_refl ltac:(discriminate)) as Hu.
  apply (f_equal (fun r => match r with Ok u => u | Err _ => EmptyString end))
    in Hu.
  symmetry. exact Hu.
Defined.

(** ** What the facade sends *)

Lemma sortedEntries_singleton (k v : string) :
  json.sortedEntries {[k := v]} = [(k, v)].
Proof. unfold json.sortedEntries. now rewrite map_to_list_singleton. Qed.

Lemma Marshal_singleton (k v : string) :
  json.MarshalAny (Some ({[k := v]} : gmap string string))
  = Ok (singletonBody k v).
Proof.
  unfold json.MarshalAny, json.Marshal, json.map_marshaler, singletonBody.
  rewrite sortedEntries_singleton. cbn [json.appendEntries].
  now rewrite !append_assoc.
Qed.

Lemma createRequest_Ok_inv `{URLParser} {P} `{json.Marshaler P}
    (c : client) (method endpoint : string) (data : option P) (req : Request.t) :
  createRequest c method endpoint data = Ok req ->
  exists u body,
    url_Parse (composedURL c endpoint) = Ok u
    /\ json.MarshalAny data = Ok body
    /\ req = Header_Set "Accept" "application/json"
               (Header_Set "Content-Type" "application/json"
                  (Request.mk (effectiveMethod method) u ∅ body)).
Proof.
  intros Hreq. pose proof (createRequest_Ok_base _ _ _ _ _ Hreq) as Hbase.
  rewrite (createRequest_steps c method endpoint data Hbase) in Hreq.
  destruct (json.MarshalAny data) as [body|]; [|discriminate].
  destruct (validMethod _); [|discriminate].
  destruct (url_Parse _) as [u|]; [|discriminate].
  injection Hreq as <-. now exists u, body.
Qed.

Lemma bearer_sends `{URLParser} {P T} `{json.Marshaler P} `{json.Unmarshaler T}
    (c : client) (method endpoint : string) (data : option P)
    (token body : string) :
  json.MarshalAny data = Ok body ->
  sends c
        match createRequest c method endpoint data with
        | Err err => (Err err, [])
        | Ok req =>
          sendRequest c (Header_Set "Authorization" ("Bearer " +:+ token) req)
                      (None : option T)
        end.2
        (effectiveMethod method) endpoint body ("Bearer " +:+ token).
Proof.
  intros Hbody req' Hin.
  destruct (createRequest c method endpoint data) as [req|] eqn:Hreq;
    [|inversion Hin].
  apply sendRequest_EvDo in Hin as ->.
  apply createRequest_Ok_inv in Hreq as (u & body' & Hu & Hb & ->).
  rewrite Hbody in Hb. injection Hb as <-.
  repeat split; try exact Hu; header_get.
Qed.

Lemma bearer_handsOver `{URLParser} {P T} `{json.Marshaler P}
    `{json.Unmarshaler T}
    (c : client) (method endpoint : string) (data : option P)
    (token body : string) :
  json.MarshalAny data = Ok body ->
  validMethod method = true ->
  handsOver c
            match createRequest c method endpoint data with
            | Err err => (Err err, [])
            | Ok req =>
              sendRequest c
                (Header_Set "Authorization" ("Bearer " +:+ token) req)
                (None : option T)
            end
            method endpoint body ("Bearer " +:+ token).
Proof.
  intros Hbody Hm. unfold handsOver.
  rewrite (createRequest_built c method endpoint data body Hbody Hm).
  destruct (String.eqb (BaseUrl c) EmptyString); [reflexivity|].
  destruct (url_Parse (composedURL c endpoint)) as [u|err]; [|reflexivity].
  eexists. split.
  { rewrite sendRequest_trace.
    destruct (HttpClient c _); [right|left]; reflexivity. }
  repeat split; header_get.
Qed.

(** X12. The four operations that go through [createAndSendRequest] send
    what they are to send.  Unless the client has no base URL or the URL
    does not parse (then nothing is sent and that error is returned), each
    calls [Do] once with a [POST] to its endpoint under the base URL
    ([signup], [token?grant_type=password],
    [token?grant_type=refresh_token], [recover]), with the client's key, the
    JSON content type and no [Authorization] header; the body of [SignUp]
    and [SignIn] is what [Marshal] makes of the credentials, that of
    [RefreshToken] and [ForgottenPassword] an object with the single member
    [refresh_token], respectively [email]. *)
Theorem Auth_requests `{URLParser} {Time : Type} `{json.Unmarshaler Time}
    (a : client) (credentials : UserCredentials.t)
    (refreshToken email : string) :
  handsOver a (Auth.SignUp (Time := Time) a credentials)
            "POST" "signup" (credentialsBody credentials) EmptyString
  /\ handsOver a (Auth.SignIn (Time := Time) a credentials)
               "POST" "token?grant_type=password"
               (credentialsBody credentials) EmptyString
  /\ handsOver a (Auth.RefreshToken (Time := Time) a refreshToken)
               "POST" "token?grant_type=refresh_token"
               (singletonBody "refresh_token" refreshToken) EmptyString
  /\ handsOver a (Auth.ForgottenPassword a email)
               "POST" "recover" (singletonBody "email" email) EmptyString.
Proof.
  split; [|split; [|split]].
  - apply (createAndSendRequest_handsOver a MethodPost "signup"
             (Some credentials)); reflexivity.
  - apply (createAndSendRequest_handsOver a MethodPost
             "token?grant_type=password" (Some credentials)); reflexivity.
  - apply (createAndSendRequest_handsOver a MethodPost
             "token?grant_type=refresh_token");
      [apply Marshal_singleton|reflexivity].
  - apply (createAndSendRequest_handsOver a MethodPost "recover");
      [apply Marshal_singleton|reflexivity].
Qed.

Lemma Auth_requests_witness :
  let a := testClient (respondWith 200 "{}") in
  let credentials := UserCredentials.mk "test@example.com" "password" in
  (exists req,
     (@Auth.SignUp ctlCheckParser string _ a credentials).2
     = [EvDo req; EvClose]
     /\ Request.Method req = "POST"%string
     /\ Request.URL req = "http://localhost/signup"%string)
  /\ (exists req,
        (@Auth.SignIn ctlCheckParser string _ a credentials).2
        = [EvDo req; EvClose]
        /\ Request.Method req = "POST"%string
        /\ Request.URL req
           = "http://localhost/token?grant_type=password"%string)
  /\ (exists req,
        (@Auth.RefreshToken ctlCheckParser string _ a "cba987").2
        = [EvDo req; EvClose]
        /\ Request.Method req = "POST"%string
        /\ Request.URL req
           = "http://localhost/token?grant_type=refresh_token"%string)
  /\ (exists req,
        (@Auth.ForgottenPassword ctlCheckParser a "test@example.com").2
        = [EvDo req; EvClose]
        /\ Request.Method req = "POST"%string
        /\ Request.URL req = "http://localhost/recover"%string).
Proof.
  intros a credentials.
  destruct (@Auth_requests ctlCheckParser string _ a credentials
              "cba987" "test@example.com") as (H1 & H2 & H3 & H4).
  split; [|split; [|split]].
  - destruct H1 as (req & [Htr|Htr] & Hm & Hu & _); [discriminate Htr|].
    now exists req.
  - destruct H2 as (req & [Htr|Htr] & Hm & Hu & _); [discriminate Htr|].
    now exists req.
  - destruct H3 as (req & [Htr|Htr] & Hm & Hu & _); [discriminate Htr|].
    now exists req.
  - destruct H4 as (req & [Htr|Htr] & Hm & Hu & _); [discriminate Htr|].
    now exists req.
Defined.

(** X13. [SignOut] and [ResetPassword] are the two operations that
    authenticate as the user.  Unless the client has no base URL or the URL
    does not parse (then nothing is sent and that error is returned),
    [SignOut] calls [Do] once with a [POST] to [logout] with the body
    [null], and [ResetPassword] with a [PUT] to [user?type=recovery] whose
    body is an object with the single member [password]; both requests
    carry [Authorization: Bearer <token>] beside the client's key. *)
Theorem Auth_bearer_requests `{URLParser} (a : client) (token password : string) :
  handsOver a (Auth.SignOut a token)
            "POST" "logout" "null" ("Bearer " +:+ token)
  /\ handsOver a (Auth.ResetPassword a token password)
               "PUT" "user?type=recovery" (singletonBody "password" password)
               ("Bearer " +:+ token).
Proof.
  split.
  - apply (bearer_handsOver (T := json.value) a MethodPost "logout"
             (None : option string) token); reflexivity.
  - apply (bearer_handsOver (T := json.value) a MethodPut "user?type=recovery"
             (Some ({["password"%string := password]} : gmap string string))
             token); [apply Marshal_singleton|reflexivity].
Qed.

Lemma Auth_bearer_requests_witness :
  let a := testClient (respondWith 204 EmptyString) in
  (exists req,
     (@Auth.SignOut ctlCheckParser a "cba321").2 = [EvDo req; EvClose]
     /\ Request.Method req = "POST"%string
     /\ Request.URL req = "http://localhost/logout"%string
     /\ Header_Get "Authorization" req = "Bearer cba321"%string)
  /\ (exists req,
        (@Auth.ResetPassword ctlCheckParser a "cba321" "newPassword").2
        = [EvDo req; EvClose]
        /\ Request.Method req = "PUT"%string
        /\ Request.URL req = "http://localhost/user?type=recovery"%string
        /\ Header_Get "Authorization" req = "Bearer cba321"%string).
Proof.
  intros a.
  destruct (@Auth_bearer_requests ctlCheckParser a "cba321" "newPassword")
    as (H1 & H2).
  split.
  - destruct H1 as (req & [Htr|Htr] & Hm & Hu & _ & _ & Hau & _);
      [discriminate Htr|]. now exists req.
  - destruct H2 as (req & [Htr|Htr] & Hm & Hu & _ & _ & Hau & _);
      [discriminate Htr|]. now exists req.
Defined.

(** ** One exchange per operation *)

Lemma sendRequest_exchangeOf {T} `{json.Unmarshaler T}
    (c : client) (req : Request.t) (successValue : option T) :
  exchangeOf c (Ok req) (sendRequest c req successValue).
Proof.
  unfold exchangeOf, sendRequest.
  now destruct (HttpClient c (Header_Set "apikey" (ApiKey c) req)).
Qed.

Lemma createAndSendRequest_exchangeOf `{URLParser} {P T} `{json.Marshaler P}
    `{json.Unmarshaler T}
    (c : client) (method endpoint : string) (data : option P)
    (successValue : option T) :
  exchangeOf c (createRequest c method endpoint data)
             (createAndSendRequest c method endpoint data successValue).
Proof.
  unfold createAndSendRequest.
  destruct (createRequest c method endpoint data) as [req|err];
    [apply sendRequest_exchangeOf|reflexivity].
Qed.

Lemma bearer_exchangeOf `{URLParser} {P T} `{json.Marshaler P}
    `{json.Unmarshaler T}
    (c : client) (method endpoint : string) (data : option P)
    (token : string) (successValue : option T) :
  exchangeOf c (withBearer token (createRequest c method endpoint data))
             match createRequest c method endpoint data with
             | Err err => (Err err, [])
             | Ok req =>
               sendRequest c
                 (Header_Set "Authorization" ("Bearer " +:+ token) req)
                 successValue
             end.
Proof.
  destruct (createRequest c method endpoint data) as [req|err];
    [apply sendRequest_exchangeOf|reflexivity].
Qed.

(** X14. No operation of the facade retries or talks to the transport
    twice.  When the request cannot be built, the operation returns that
    error and does not call [Do].  Otherwise it calls [Do] exactly once, on
    the request it built with the client's key set: when [Do] fails, its
    error is returned and no body is released; when [Do] delivers a
    response, the body of the response is released exactly once, whether
    the operation then returns an envelope or an error of the decoder. *)
Theorem Auth_single_exchange `{URLParser} {Time : Type} `{json.Unmarshaler Time}
    (a : client) (credentials : UserCredentials.t)
    (token refreshToken email password : string) :
  exchangeOf a (createRequest a "POST" "signup" (Some credentials))
             (Auth.SignUp (Time := Time) a credentials)
  /\ exchangeOf a (createRequest a "POST" "token?grant_type=password"
                               (Some credentials))
                (Auth.SignIn (Time := Time) a credentials)
  /\ exchangeOf a (withBearer token
                     (createRequest a "POST" "logout" (None : option string)))
                (Auth.SignOut a token)
  /\ exchangeOf a (createRequest a "POST" "token?grant_type=refresh_token"
                     (Some ({["refresh_token"%string := refreshToken]}
                            : gmap string string)))
                (Auth.RefreshToken (Time := Time) a refreshToken)
  /\ exchangeOf a (createRequest a "POST" "recover"
                     (Some ({["email"%string := email]} : gmap string string)))
                (Auth.ForgottenPassword a email)
  /\ exchangeOf a (withBearer token
                     (createRequest a "PUT" "user?type=recovery"
                        (Some ({["password"%string := password]}
                               : gmap string string))))
                (Auth.ResetPassword a token password).
Proof.
  split; [|split; [|split; [|split; [|split]]]].
  - apply createAndSendRequest_exchangeOf.
  - apply createAndSendRequest_exchangeOf.
  - apply (bearer_exchangeOf a MethodPost "logout" (None : option string)).
  - apply createAndSendRequest_exchangeOf.
  - apply createAndSendRequest_exchangeOf.
  - apply (bearer_exchangeOf a MethodPut "user?type=recovery"
             (Some ({["password"%string := password]} : gmap string string))).
Qed.

Lemma Auth_single_exchange_witness :
  (exists req,
     @Auth.ForgottenPassword ctlCheckParser
       (testClient (respondWith 400 notJSONBody)) "test@example.com"
     = (Err (SyntaxError "<" "looking for beginning of value"),
        [EvDo req; EvClose]))
  /\ (exists req,
        @Auth.SignOut ctlCheckParser
          (testClient (failWith "connection refused")) "cba321"
        = (Err (TransportError "connection refused"), [EvDo req]))
  /\ @Auth.SignOut ctlCheckParser (unconfigured (respondWith 200 "{}"))
       "cba321"
     = (Err ErrEmptyURL, []).
Proof.
  split; [|split].
  - eexists.
    pose proof (proj1 (proj2 (proj2 (proj2 (proj2
                  (@Auth_single_exchange ctlCheckParser string _
                     (testClient (respondWith 400 notJSONBody))
                     (UserCredentials.mk "test@example.com" "password")
                     "cba321" "cba987" "test@example.com" "newPassword"))))))
      as Hx.
    apply injective_projections; [reflexivity|exact Hx].
  - eexists.
    exact (proj1 (proj2 (proj2
             (@Auth_single_exchange ctlCheckParser string _
                (testClient (failWith "connection refused"))
                (UserCredentials.mk "test@example.com" "password")
                "cba321" "cba987" "test@example.com" "newPassword")))).
  - exact (proj1 (proj2 (proj2
             (@Auth_single_exchange ctlCheckParser string _
                (unconfigured (respondWith 200 "{}"))
                (UserCredentials.mk "test@example.com" "password")
                "cba321" "cba987" "test@example.com" "newPassword")))).
Defined.

(** ** Operations without a success shape *)




(** ** What the server reads *)

Lemma Unmarshal_singleton (k v : string) :
  json.Unmarshal (singletonBody k v) (∅ : gmap string string)
  = Ok ({[asReceived k := asReceived v]} : gmap string string).
Proof.
  assert (Hb : singletonBody k v
               = ("{" +:+ json.appendEntries [(k, v)] +:+ "}")%string).
  { unfold singletonBody. cbn [json.appendEntries].
    now rewrite !append_assoc. }
  unfold json.Unmarshal. rewrite Hb.
  rewrite scanWhole_entries by discriminate.
  reflexivity.
Qed.

(** X16. The body an operation sends is well-formed JSON whatever bytes its
    arguments hold: decoded into the type of the payload it gives the
    payload as received, each string with every byte that is not part of a
    well-formed UTF-8 sequence replaced by U+FFFD.  So [SignUp] and
    [SignIn] deliver the credentials, and [RefreshToken],
    [ForgottenPassword] and [ResetPassword] a map with the one key
    [refresh_token], [email] or [password], with the strings as received. *)
Theorem Auth_bodies_as_received `{URLParser} {Time : Type}
    `{json.Unmarshaler Time}
    (a : client) (credentials old : UserCredentials.t)
    (token refreshToken email password : string) (req : Request.t) :
  let received :=
    UserCredentials.mk (asReceived (UserCredentials.Email credentials))
                       (asReceived (UserCredentials.Password credentials)) in
  (EvDo req ∈ (Auth.SignUp (Time := Time) a credentials).2 ->
   json.Unmarshal (Request.Body req) old = Ok received)
  /\ (EvDo req ∈ (Auth.SignIn (Time := Time) a credentials).2 ->
      json.Unmarshal (Request.Body req) old = Ok received)
  /\ (EvDo req ∈ (Auth.RefreshToken (Time := Time) a refreshToken).2 ->
      json.Unmarshal (Request.Body req) (∅ : gmap string string)
      = Ok {["refresh_token"%string := asReceived refreshToken]})
  /\ (EvDo req ∈ (Auth.ForgottenPassword a email).2 ->
      json.Unmarshal (Request.Body req) (∅ : gmap string string)
      = Ok {["email"%string := asReceived email]})
  /\ (EvDo req ∈ (Auth.ResetPassword a token password).2 ->
      json.Unmarshal (Request.Body req) (∅ : gmap string string)
      = Ok {["password"%string := asReceived password]}).
Proof.
  intros received. split; [|split; [|split; [|split]]].
  - intros Hin. apply createAndSendRequest_body in Hin.
    now apply Unmarshal_credentials.
  - intros Hin. apply createAndSendRequest_body in Hin.
    now apply Unmarshal_credentials.
  - intros Hin. apply createAndSendRequest_body in Hin.
    rewrite Marshal_singleton in Hin. injection Hin as <-.
    apply Unmarshal_singleton.
  - intros Hin. apply createAndSendRequest_body in Hin.
    rewrite Marshal_singleton in Hin. injection Hin as <-.
    apply Unmarshal_singleton.
  - intros Hin.
    pose proof (bearer_sends (T := json.value) a MethodPut "user?type=recovery"
                  (Some ({["password"%string := password]} : gmap string string))
                  token _ (Marshal_singleton _ _) req Hin) as (_ & _ & -> & _).
    apply Unmarshal_singleton.
Qed.

Lemma Auth_bodies_as_received_witness :
  exists req,
    EvDo req ∈ (@Auth.ResetPassword ctlCheckParser
                  (testClient (respondWith 200 "{}")) "cba321"
                  rawBytePassword).2
    /\ json.Unmarshal (Request.Body req) (∅ : gmap string string)
       = Ok {["password"%string := ("p" +:+ utf8.EncodeRune utf8.RuneError +:+ "w")%string]}.
Proof.
  eexists. split; [left|].
  exact (proj2 (proj2 (proj2 (proj2
           (@Auth_bodies_as_received ctlCheckParser string _
              (testClient (respondWith 200 "{}"))
              (UserCredentials.mk "test@example.com" "password")
              (UserCredentials.mk EmptyString EmptyString)
              "cba321" "cba987" "test@example.com" rawBytePassword _))))
         ltac:(left)).
Defined.

(** ** The strings of a body are valid UTF-8 *)

Lemma validFuel_ascii n c rest :
  (byte c <? utf8.RuneSelf) = true ->
  utf8.validFuel (S n) (String c rest) = utf8.validFuel n rest.
Proof. intros E. cbn [utf8.validFuel]. now rewrite E. Qed.

Lemma validFuel_rune n s rr size tail :
  utf8.DecodeRune s = (rr, size) -> (2 <= size)%nat ->
  utf8.validFuel (S n) (json.string_take size s +:+ tail)
  = utf8.validFuel n tail.
Proof.
  intros Hdec Hsize.
  pose proof (DecodeRune_prefix s rr size tail Hdec Hsize) as Hpre.
  destruct s as [|c0 s1]; [cbn in Hdec; injection Hdec as <- <-; lia|].
  assert (E0 : (byte c0 <? utf8.RuneSelf) = false).
  { destruct (byte c0 <? utf8.RuneSelf) eqn:E; [|reflexivity].
    unfold utf8.DecodeRune in Hdec. rewrite E in Hdec.
    injection Hdec as <- <-. lia. }
  pose proof (DecodeRune_size c0 s1 rr size Hdec) as Hlen.
  destruct size as [|[|size]]; try lia.
  remember (json.string_take (S (S size)) (String c0 s1) +:+ tail)%string
    as p eqn:Hp.
  assert (Hhead : exists p', p = String c0 p').
  { subst p. cbn [json.string_take]. push_append. now eexists. }
  destruct Hhead as [p' Hp'].
  rewrite Hp' in Hpre |- *.
  cbn [utf8.validFuel]. rewrite E0, Hpre.
  rewrite <- Hp', Hp.
  now rewrite string_drop_take_append by lia.
Qed.

Lemma validFuel_RuneError n tail :
  utf8.validFuel (S n) (utf8.EncodeRune utf8.RuneError +:+ tail)
  = utf8.validFuel n tail.
Proof.
  change (utf8.EncodeRune utf8.RuneError)
    with (String (chr 239) (String (chr 191) (String (chr 189) EmptyString))).
  push_append. reflexivity.
Qed.

Lemma coerceUTF8_validFuel n : forall s m,
  (String.length (coerceUTF8 n s) <= m)%nat ->
  utf8.validFuel m (coerceUTF8 n s) = true.
Proof.
  induction n as [|n IH]; intros s m Hm.
  - destruct s, m; reflexivity.
  - destruct s as [|c r]; [now destruct m|].
    cbn [coerceUTF8] in *.
    destruct (byte c <? utf8.RuneSelf) eqn:E0.
    + cbn [String.length] in Hm. destruct m as [|m]; [lia|].
      rewrite validFuel_ascii by exact E0. apply IH. lia.
    + destruct (utf8.DecodeRune (String c r)) as [rr size] eqn:Hdec.
      pose proof (DecodeRune_size c r rr size Hdec) as Hlen.
      destruct ((rr =? utf8.RuneError) && (size =? 1)%nat) eqn:Ebad.
      * rewrite length_append in Hm.
        change (String.length (utf8.EncodeRune utf8.RuneError)) with 3%nat in Hm.
        destruct m as [|m]; [lia|].
        rewrite validFuel_RuneError. apply IH. lia.
      * assert (Hsize : (2 <= size)%nat).
        { destruct (DecodeRune_inv c r rr size E0 Hdec)
            as [[-> ->] | [(-> & _) | [(-> & _) | (-> & _)]]];
            [discriminate Ebad|lia..]. }
        rewrite length_append, length_string_take in Hm by lia.
        destruct m as [|m]; [lia|].
        rewrite (validFuel_rune m (String c r) rr size) by assumption.
        apply IH. lia.
Qed.

Lemma asReceived_valid s : utf8.ValidString (asReceived s) = true.
Proof. unfold utf8.ValidString, asReceived. now apply coerceUTF8_validFuel. Qed.

(** X17. What is read back from the body [createRequest] makes of a string
    is valid UTF-8, and it is the string itself exactly when the string was
    valid UTF-8; a string read back once goes through unchanged from then
    on. *)
Theorem createRequest_string_as_received `{URLParser}
    (c : client) (method endpoint s old : string) (req : Request.t) :
  createRequest c method endpoint (Some s) = Ok req ->
  json.Unmarshal (Request.Body req) old = Ok (asReceived s)
  /\ utf8.ValidString (asReceived s) = true
  /\ (asReceived s = s <-> utf8.ValidString s = true)
  /\ asReceived (asReceived s) = asReceived s.
Proof.
  intros Hreq. apply createRequest_body in Hreq.
  cbn in Hreq. injection Hreq as <-.
  split; [apply Unmarshal_string|].
  split; [apply asReceived_valid|].
  split; [split|].
  - intros Heq. rewrite <- Heq. apply asReceived_valid.
  - apply coerceUTF8_ValidString.
  - apply coerceUTF8_ValidString, asReceived_valid.
Qed.

Lemma createRequest_string_as_received_witness :
  exists req,
    @createRequest ctlCheckParser _ _ (testClient (respondWith 200 "{}"))
       "POST" "test" (Some rawBytePassword) = Ok req
    /\ json.Unmarshal (Request.Body req) EmptyString
       = Ok ("p" +:+ utf8.EncodeRune utf8.RuneError +:+ "w")%string.
Proof.
  eexists. split; [reflexivity|].
  exact (proj1 (@createRequest_string_as_received ctlCheckParser
                  (testClient (respondWith 200 "{}")) "POST" "test"
                  rawBytePassword EmptyString _ eq_refl)).
Defined.

(** ** The members of a map payload *)

Lemma leb_key_total :
  Total (fun a b : string * string => String.leb a.1 b.1 : Prop).
Proof.
  intros a b. destruct (String.leb_total a.1 b.1) as [E|E];
    [left|right]; now rewrite E.
Qed.

Lemma Sorted_keyLe (l : list (string * string)) :
  Sorted (fun a b : string * string => String.leb a.1 b.1 : Prop) l ->
  Sorted keyLe l.
Proof.
  induction 1 as [|x l Hs IH Hhd]; constructor; [exact IH|].
  destruct Hhd as [|y l' Hxy]; constructor.
  unfold keyLe. now destruct (String.leb x.1 y.1).
Qed.

(** X18. The body [createRequest] makes of a map holds each entry of the
    map once, as one member, and the members come in ascending order of
    their keys, compared as bytes. *)
Theorem createRequest_map_body `{URLParser}
    (c : client) (method endpoint : string) (m : gmap string string)
    (req : Request.t) :
  createRequest c method endpoint (Some m) = Ok req ->
  exists l,
    Request.Body req = ("{" +:+ json.appendEntries l +:+ "}")%string
    /\ l ≡ₚ map_to_list m
    /\ NoDup l.*1
    /\ Sorted keyLe l.
Proof.
  intros Hreq. apply createRequest_body in Hreq.
  cbn in Hreq. injection Hreq as <-.
  exists (json.sortedEntries m).
  assert (Hp : json.sortedEntries m ≡ₚ map_to_list m)
    by apply merge_sort_Permutation.
  split; [reflexivity|]. split; [exact Hp|]. split.
  - rewrite Hp. apply NoDup_fst_map_to_list.
  - apply Sorted_keyLe.
    apply (@Sorted_merge_sort _
             (fun a b : string * string => String.leb a.1 b.1 : Prop) _
             leb_key_total).
Qed.

Lemma createRequest_map_body_witness :
  exists req l,
    @createRequest ctlCheckParser _ _ (testClient (respondWith 200 "{}"))
       "POST" "test"
       (Some (<["b"%string := "2"%string]> {["a"%string := "1"%string]}
              : gmap string string))
    = Ok req
    /\ Request.Body req = ("{" +:+ json.appendEntries l +:+ "}")%string
    /\ Sorted keyLe l.
Proof.
  eexists.
  destruct (@createRequest_map_body ctlCheckParser
              (testClient (respondWith 200 "{}")) "POST" "test"
              (<["b"%string := "2"%string]> {["a"%string := "1"%string]})
              _ eq_refl) as (l & Hb & _ & _ & Hs).
  exists l. split; [reflexivity|]. split; assumption.
Defined.

(** ** Success bodies *)







(** ** Failures pass through the facade *)









(** X23. On a client without a base URL every operation fails with the
    configuration error before anything is sent: no operation reaches the
    transport. *)
Theorem Auth_empty_base_url `{URLParser} {Time : Type} `{json.Unmarshaler Time}
    (a : client) (credentials : UserCredentials.t)
    (token refreshToken email password : string) :
  BaseUrl a = EmptyString ->
  Auth.SignUp (Time := Time) a credentials = (Err ErrEmptyURL, [])
  /\ Auth.SignIn (Time := Time) a credentials = (Err ErrEmptyURL, [])
  /\ Auth.SignOut a token = (Err ErrEmptyURL, [])
  /\ Auth.RefreshToken (Time := Time) a refreshToken = (Err ErrEmptyURL, [])
  /\ Auth.ForgottenPassword a email = (Err ErrEmptyURL, [])
  /\ Auth.ResetPassword a token password = (Err ErrEmptyURL, []).
Proof.
  intros Hbase.
  unfold Auth.SignUp, Auth.SignIn, Auth.SignOut, Auth.RefreshToken,
    Auth.ForgottenPassword, Auth.ResetPassword, createAndSendRequest,
    createRequest.
  rewrite Hbase. repeat split.
Qed.

Lemma Auth_empty_base_url_witness :
  @Auth.ResetPassword ctlCheckParser (unconfigured (respondWith 200 "{}"))
     "cba321" "newPassword"
  = (Err ErrEmptyURL, []).
Proof.
  exact (proj2 (proj2 (proj2 (proj2 (proj2
           (@Auth_empty_base_url ctlCheckParser string _
              (unconfigured (respondWith 200 "{}"))
              (UserCredentials.mk "test@example.com" "password")
              "cba321" "cba987" "test@example.com" "newPassword"
              eq_refl)))))).
Defined.
